(** * seo-sage: the site crawler of [services/crawler.py]

    A shallow embedding of [WebsiteCrawler] and the properties its
    specification states about it.

    Conventions of the embedding.
    - Python [str] is [string]; characters are bytes, so [lower], [strip]
      and the word-character test are the ASCII ones.
    - Python [int] is [Z]; [float] is modelled by exact rationals [Q]
      (rounding is not modelled).
    - [dict] is [gmap], [set] is [gset]; a [list] is a [list].
    - What lives outside the repository (the network, the HTML parser,
      [urlparse], [urljoin], [json.loads], the clock) is a parameter of the
      model; a call of it either returns or raises. *)

From Stdlib Require Import ZArith QArith Ascii String List Lia.
From Stdlib Require Import Numbers.DecimalString.
From stdpp Require Import base decidable option list gmap strings fin_maps fin_sets.

Set Warnings "-register-all,-clear-no-such-hyp".

Open Scope Z_scope.
Open Scope string_scope.
Open Scope list_scope.

(** ** Python string primitives *)

Module PyStr.

(** [s.startswith(p)] *)
Fixpoint startswith (s p : string) {struct p} : bool :=
  match p with
  | EmptyString => true
  | String c p' =>
      match s with
      | EmptyString => false
      | String d s' => if Ascii.eqb c d then startswith s' p' else false
      end
  end.

(** [s.startswith((p1, p2, ...))] *)
Definition startswith_any (s : string) (ps : list string) : bool :=
  existsb (startswith s) ps.

(** [s.endswith(e)]: some suffix of [s] is [e]. *)
Fixpoint endswith (s e : string) : bool :=
  if String.eqb s e then true
  else match s with
       | EmptyString => false
       | String _ s' => endswith s' e
       end.

(** [c in s] for a one-character [c]. *)
Fixpoint contains (c : ascii) (s : string) : bool :=
  match s with
  | EmptyString => false
  | String d s' => if Ascii.eqb c d then true else contains c s'
  end.

Definition lower_char (c : ascii) : ascii :=
  let n := nat_of_ascii c in
  if (Nat.leb 65 n && Nat.leb n 90)%bool then ascii_of_nat (n + 32) else c.

(** [s.lower()] *)
Fixpoint lower (s : string) : string :=
  match s with
  | EmptyString => EmptyString
  | String c s' => String (lower_char c) (lower s')
  end.

(** The characters [str.strip()] removes: tab, newline, vertical tab,
    form feed, carriage return, the separators 28..31 and the space. *)
Definition is_space (c : ascii) : bool :=
  let n := nat_of_ascii c in
  ((Nat.leb 9 n && Nat.leb n 13) || (Nat.leb 28 n && Nat.leb n 32))%bool.

Fixpoint lstrip (s : string) : string :=
  match s with
  | EmptyString => EmptyString
  | String c s' => if is_space c then lstrip s' else s
  end.

Fixpoint rstrip (s : string) : string :=
  match s with
  | EmptyString => EmptyString
  | String c s' =>
      match rstrip s' with
      | EmptyString => if is_space c then EmptyString else String c EmptyString
      | r => String c r
      end
  end.

(** [s.strip()] *)
Definition strip (s : string) : string := rstrip (lstrip s).

(** [s.split(c)[0]]: the part of [s] before the first [c]. *)
Fixpoint before (c : ascii) (s : string) : string :=
  match s with
  | EmptyString => EmptyString
  | String d s' => if Ascii.eqb c d then EmptyString else String d (before c s')
  end.

(** The part of [s] from the first character satisfying [stop] on. *)
Fixpoint from_first (stop : ascii -> bool) (s : string) : string :=
  match s with
  | EmptyString => EmptyString
  | String d s' => if stop d then s else from_first stop s'
  end.

(** The part of [s] before the first character satisfying [stop]. *)
Fixpoint until_first (stop : ascii -> bool) (s : string) : string :=
  match s with
  | EmptyString => EmptyString
  | String d s' => if stop d then EmptyString else String d (until_first stop s')
  end.

(** [bool(s)]: a string is truthy when it is not empty. *)
Definition truthy (s : string) : bool :=
  match s with EmptyString => false | _ => true end.

(** [str(n)] for an integer. *)
Definition of_Z (n : Z) : string := NilEmpty.string_of_int (Z.to_int n).

End PyStr.

(** ** Calls that may raise *)

(** A call that either raises an exception, of which the crawler only
    ever reads [str(e)], or returns. *)
Inductive Try (A : Type) : Type :=
  | Raises (message : string)
  | Returns (a : A).
Arguments Raises {A} message.
Arguments Returns {A} a.

(** ** Character classes and a URL splitter for the examples

    [urlparse] and [urljoin] belong to [urllib], not to the repository:
    the crawler calls them through the [World] defined further down.  This
    module holds the character classes the extractors share and a splitter
    that the example worlds use as their [urlparse]: as
    [urllib.parse.urlsplit] does on printable ASCII text, it takes as
    scheme the text before the first [:] when it starts with a letter and
    consists of scheme characters, and lowercases it; a following [//]
    opens the network location, which ends at the first [/], [?] or [#];
    and it raises when that location holds one square bracket without the
    other. *)

Module UrlParse.

Definition is_alpha (c : ascii) : bool :=
  let n := nat_of_ascii c in
  ((Nat.leb 65 n && Nat.leb n 90) || (Nat.leb 97 n && Nat.leb n 122))%bool.

Definition is_digit (c : ascii) : bool :=
  let n := nat_of_ascii c in (Nat.leb 48 n && Nat.leb n 57)%bool.

(** [scheme_chars]: letters, digits, [+], [-] and [.] *)
Definition is_scheme_char (c : ascii) : bool :=
  (is_alpha c || is_digit c ||
   Ascii.eqb c "+" || Ascii.eqb c "-" || Ascii.eqb c ".")%bool.

Fixpoint all_chars (p : ascii -> bool) (s : string) : bool :=
  match s with
  | EmptyString => true
  | String c s' => (p c && all_chars p s')%bool
  end.

Definition is_colon (c : ascii) : bool := Ascii.eqb c ":".

(** Splits [url] into (scheme, rest). *)
Definition split_scheme (url : string) : string * string :=
  if PyStr.contains ":" url then
    let pre := PyStr.until_first is_colon url in
    match pre with
    | String c _ =>
        if (is_alpha c && all_chars is_scheme_char pre)%bool
        then (PyStr.lower pre,
              match PyStr.from_first is_colon url with
              | String _ rest => rest
              | EmptyString => EmptyString
              end)
        else (EmptyString, url)
    | EmptyString => (EmptyString, url)
    end
  else (EmptyString, url).

Definition is_netloc_end (c : ascii) : bool :=
  (Ascii.eqb c "/" || Ascii.eqb c "?" || Ascii.eqb c "#")%bool.

(** [urlparse(url).scheme] *)
Definition scheme (url : string) : string := fst (split_scheme url).

(** [urlparse(url).netloc] *)
Definition netloc (url : string) : string :=
  match snd (split_scheme url) with
  | String "/" (String "/" rest) => PyStr.until_first is_netloc_end rest
  | _ => EmptyString
  end.

(** What follows the network location: path, query and fragment. *)
Definition after_netloc (url : string) : string :=
  match snd (split_scheme url) with
  | String "/" (String "/" rest) => PyStr.from_first is_netloc_end rest
  | rest => rest
  end.

Definition is_path_end (c : ascii) : bool :=
  (Ascii.eqb c "?" || Ascii.eqb c "#")%bool.

(** The path of [url], parameters included: up to the first [?] or [#]. *)
Definition path (url : string) : string :=
  PyStr.until_first is_path_end (after_netloc url).

(** The scheme, [://] and the network location of [url]. *)
Definition origin (url : string) : string :=
  scheme url +:+ "://" +:+ netloc url.

(** [urlsplit] refuses a network location with an unmatched bracket. *)
Definition unmatched_bracket (location : string) : bool :=
  xorb (PyStr.contains "[" location) (PyStr.contains "]" location).

(** The scheme and the network location of [urlparse(url)], or the
    message of its [ValueError]. *)
Definition urlparse (url : string) : Try (string * string) :=
  if unmatched_bracket (netloc url) then Raises "Invalid IPv6 URL"
  else Returns (scheme url, netloc url).

End UrlParse.

(** ** The admission filter: [WebsiteCrawler._should_visit_url] *)

Definition skip_extensions : list string :=
  [ ".jpg"; ".jpeg"; ".png"; ".gif"; ".pdf"; ".doc"; ".docx";
    ".xls"; ".xlsx"; ".ppt"; ".pptx"; ".zip"; ".tar"; ".gz";
    ".mp3"; ".mp4"; ".avi"; ".mov"; ".wmv"; ".css"; ".js" ].

Definition should_visit_url (url base_url : string) : bool :=
  if negb (PyStr.startswith url base_url) then false
  else if PyStr.contains "#" url then false
  else if existsb (PyStr.endswith (PyStr.lower url)) skip_extensions then false
  else true.

(** ** The parsed document

    [BeautifulSoup(html, "html.parser")] is outside the repository; the model
    works on the tree it builds.  A [Soup] is the list of top-level nodes.
    Tag and attribute names are the lowercase ones the parser produces. *)

Inductive Node : Type :=
  | Text (s : string)
  | Element (tag : string) (attrs : list (string * string)) (children : list Node).

Abbreviation Soup := (list Node).

Inductive Json : Type :=
  | JNull
  | JBool (b : bool)
  | JNumber (q : Q)
  | JString (s : string)
  | JArray (items : list Json)
  | JObject (members : list (string * Json)).

Module Bs4.

(** [tag.get(name)] *)
Fixpoint get_attr (name : string) (attrs : list (string * string)) : option string :=
  match attrs with
  | [] => None
  | (k, v) :: rest => if String.eqb k name then Some v else get_attr name rest
  end.

(** [tag.get(name, "")] *)
Definition get_attr_or_empty (name : string) (attrs : list (string * string)) : string :=
  match get_attr name attrs with Some v => v | None => EmptyString end.

Definition node_attrs (n : Node) : list (string * string) :=
  match n with Text _ => [] | Element _ a _ => a end.

(** [soup.find_all(...)]: the elements satisfying [p], in document order. *)
Fixpoint find_all_node (p : string -> list (string * string) -> bool) (n : Node)
  : list Node :=
  match n with
  | Text _ => []
  | Element t a cs =>
      (if p t a then [n] else []) ++ flat_map (find_all_node p) cs
  end.

Definition find_all (p : string -> list (string * string) -> bool) (soup : Soup)
  : list Node :=
  flat_map (find_all_node p) soup.

(** [soup.find(...)]: the first match. *)
Definition find (p : string -> list (string * string) -> bool) (soup : Soup)
  : option Node :=
  head (find_all p soup).

Definition tag_in (tags : list string) (t : string) (_ : list (string * string)) : bool :=
  existsb (String.eqb t) tags.

Definition tag_is (tag : string) (t : string) (_ : list (string * string)) : bool :=
  String.eqb t tag.

(** [for e in soup(tags): e.decompose()]: every element whose tag is in
    [tags] leaves the tree together with its subtree. *)
Fixpoint decompose_node (tags : list string) (n : Node) : list Node :=
  match n with
  | Text _ => [n]
  | Element t a cs =>
      if existsb (String.eqb t) tags then []
      else [Element t a (flat_map (decompose_node tags) cs)]
  end.

Definition decompose_all (tags : list string) (soup : Soup) : Soup :=
  flat_map (decompose_node tags) soup.

(** [tag.text] / [soup.get_text()]: the text nodes, concatenated. *)
Fixpoint node_text (n : Node) : string :=
  match n with
  | Text s => s
  | Element _ _ cs => String.concat EmptyString (map node_text cs)
  end.

Definition get_text (soup : Soup) : string :=
  String.concat EmptyString (map node_text soup).

(** [tag.string]: the single text child, looked up through single element
    children; [None] otherwise. *)
Fixpoint node_string (n : Node) : option string :=
  match n with
  | Text s => Some s
  | Element _ _ cs =>
      match cs with
      | [c] => match c with
               | Text s => Some s
               | Element _ _ _ => node_string c
               end
      | _ => None
      end
  end.

End Bs4.

(** ** The extractors of [WebsiteCrawler] *)

Record Image := { src : string; alt : string; img_title : string }.

(** [_extract_title] *)
Definition extract_title (soup : Soup) : string :=
  match Bs4.find (Bs4.tag_is "title") soup with
  | Some title_tag => PyStr.strip (Bs4.node_text title_tag)
  | None => EmptyString
  end.

Module TextCleanup.

Definition newline : ascii := "010"%char.

(** The line boundaries of [str.splitlines()] among the bytes. *)
Definition is_linebreak (c : ascii) : bool :=
  let n := nat_of_ascii c in
  ((Nat.leb 10 n && Nat.leb n 13) || (Nat.leb 28 n && Nat.leb n 30))%bool.

Definition cons_head (c : ascii) (ls : list string) : list string :=
  match ls with
  | l :: rest => String c l :: rest
  | [] => [String c EmptyString]
  end.

(** [text.splitlines()], up to empty lines (which [_extract_content]
    drops): the pieces of [s] between line boundaries. *)
Fixpoint splitlines (s : string) : list string :=
  match s with
  | EmptyString => [EmptyString]
  | String c s' =>
      if is_linebreak c then EmptyString :: splitlines s'
      else cons_head c (splitlines s')
  end.

(** [line.split("  ")]: the pieces of [s] between double spaces. *)
Fixpoint split_double_space (s : string) : list string :=
  match s with
  | EmptyString => [EmptyString]
  | String c s1 =>
      match s1 with
      | String c2 s2 =>
          if (Ascii.eqb c " " && Ascii.eqb c2 " ")%bool
          then EmptyString :: split_double_space s2
          else cons_head c (split_double_space s1)
      | EmptyString => [String c EmptyString]
      end
  end.

(** [\w]: letters, digits and the underscore. *)
Definition is_word_char (c : ascii) : bool :=
  (UrlParse.is_alpha c || UrlParse.is_digit c || Ascii.eqb c "_")%bool.

(** [len(re.findall(r'\w+', s))]: the number of maximal runs of word
    characters; [in_word] tells whether the previous character was one. *)
Fixpoint count_words (in_word : bool) (s : string) : Z :=
  match s with
  | EmptyString => 0
  | String c s' =>
      if is_word_char c
      then (if in_word then 0 else 1) + count_words true s'
      else count_words false s'
  end.

End TextCleanup.

Definition stripped_tags : list string :=
  ["script"; "style"; "header"; "footer"; "nav"].

(** [_extract_content].  The method edits the tree it is given; the
    edited tree is returned next to the text, since every extractor
    called after it reads that same object. *)
Definition extract_content (soup : Soup) : string * Soup :=
  let soup' := Bs4.decompose_all stripped_tags soup in
  let text := Bs4.get_text soup' in
  let lines := map PyStr.strip (TextCleanup.splitlines text) in
  let chunks :=
    flat_map (fun line => map PyStr.strip (TextCleanup.split_double_space line)) lines in
  (String.concat (String TextCleanup.newline EmptyString)
     (List.filter PyStr.truthy chunks),
   soup').

Definition is_meta_named (name : string) (t : string) (a : list (string * string)) : bool :=
  (String.eqb t "meta" &&
   match Bs4.get_attr "name" a with Some v => String.eqb v name | None => false end)%bool.

(** [_extract_meta_description] and [_extract_meta_keywords] *)
Definition extract_meta (name : string) (soup : Soup) : option string :=
  match Bs4.find (is_meta_named name) soup with
  | Some m => Some (PyStr.strip (Bs4.get_attr_or_empty "content" (Bs4.node_attrs m)))
  | None => None
  end.

(** [_extract_headings] *)
Definition extract_headings (soup : Soup) (heading_type : string) : list string :=
  map (fun h => PyStr.strip (Bs4.node_text h))
      (Bs4.find_all (Bs4.tag_is heading_type) soup).

Definition is_anchor_with_href (t : string) (a : list (string * string)) : bool :=
  (String.eqb t "a" &&
   match Bs4.get_attr "href" a with Some _ => true | None => false end)%bool.

(** The [href] values of [soup.find_all("a", href=True)], in document order. *)
Definition anchor_hrefs (soup : Soup) : list string :=
  map (fun n => Bs4.get_attr_or_empty "href" (Bs4.node_attrs n))
      (Bs4.find_all is_anchor_with_href soup).

Definition skipped_schemes : list string := ["javascript:"; "mailto:"; "tel:"].
Definition http_schemes : list string := ["http://"; "https://"].

(** The body of the loop of [_extract_links] for one [href], on the two
    lists built so far; [urljoin] may raise, and its exception ends the
    loop: once an iteration has raised, the later ones do nothing. *)
Definition extract_links_step (urljoin : string -> string -> Try string)
    (base_url current_url : string) (acc : Try (list string * list string))
    (raw : string) : Try (list string * list string) :=
  match acc with
  | Raises e => Raises e
  | Returns (internal_links, external_links) =>
      let href := PyStr.strip raw in
      if (negb (PyStr.truthy href) || PyStr.startswith_any href skipped_schemes)%bool
      then acc
      else
        match (if negb (PyStr.startswith_any href http_schemes)
               then urljoin current_url href else Returns href) with
        | Raises e => Raises e
        | Returns href =>
            let href := PyStr.before "#" href in
            if PyStr.startswith href base_url then
              if bool_decide (href ∈ internal_links) then acc
              else Returns (internal_links ++ [href], external_links)
            else
              if bool_decide (href ∈ external_links) then acc
              else Returns (internal_links, external_links ++ [href])
        end
  end.

(** [_extract_links] *)
Definition extract_links (urljoin : string -> string -> Try string)
    (soup : Soup) (base_url current_url : string) : Try (list string * list string) :=
  fold_left (extract_links_step urljoin base_url current_url) (anchor_hrefs soup)
    (Returns ([], [])).

(** The body of the loop of [_extract_images] for one [img] element. *)
Definition extract_images_step (urljoin : string -> string -> Try string)
    (base_url : string) (acc : Try (list Image)) (img : Node) : Try (list Image) :=
  match acc with
  | Raises e => Raises e
  | Returns images =>
      let a := Bs4.node_attrs img in
      let s := Bs4.get_attr_or_empty "src" a in
      if PyStr.truthy s then
        match (if negb (PyStr.startswith_any s http_schemes)
               then urljoin base_url s else Returns s) with
        | Raises e => Raises e
        | Returns s =>
            Returns (images ++ [ {| src := s;
                                    alt := Bs4.get_attr_or_empty "alt" a;
                                    img_title := Bs4.get_attr_or_empty "title" a |} ])
        end
      else acc
  end.

(** [_extract_images] *)
Definition extract_images (urljoin : string -> string -> Try string)
    (soup : Soup) (base_url : string) : Try (list Image) :=
  fold_left (extract_images_step urljoin base_url)
    (Bs4.find_all (Bs4.tag_is "img") soup) (Returns []).

Definition is_ld_json (t : string) (a : list (string * string)) : bool :=
  (String.eqb t "script" &&
   match Bs4.get_attr "type" a with
   | Some v => String.eqb v "application/ld+json"
   | None => false
   end)%bool.

(** [_extract_schema_org]; [json_loads] answers [None] where [json.loads]
    raises, and so does a script without a single string ([script.string]
    is then [None]). *)
Definition extract_schema_org (json_loads : string -> option Json) (soup : Soup)
  : list Json :=
  flat_map
    (fun script =>
       match Bs4.node_string script with
       | Some text => match json_loads text with Some data => [data] | None => [] end
       | None => []
       end)
    (Bs4.find_all is_ld_json soup).

(** ** The world outside the crawler *)

(** What [_process_url] reads of an [aiohttp] response. *)
Record Response := {
  content_type_header : option string;   (* [response.headers.get("Content-Type")] *)
  status : Z;                            (* [response.status] *)
  text : Try string                      (* [await response.text()] *)
}.

Record World := {
  (* [urllib.parse.urlparse]: the scheme and the network location of the
     result, or the message of the [ValueError] it raises *)
  urlparse : string -> Try (string * string);
  http_get : string -> Try Response;     (* [session.get(url, allow_redirects=True)] *)
  html_parser : string -> Try Soup;      (* [BeautifulSoup(html, "html.parser")] *)
  (* [urllib.parse.urljoin], or the message of the [ValueError] it raises *)
  urljoin : string -> string -> Try string;
  json_loads : string -> option Json;    (* [json.loads]; [None] where it raises *)
  (* [time.time()], in seconds, as read or readable while [url] is fetched *)
  clock_at_request : string -> Q;        (* line 202, before the request *)
  clock_at_response : string -> Q;       (* line 206, once [session.get] has answered *)
  clock_at_body_read : string -> Q;      (* once [response.text()] has returned *)
  (* [time.time()] at the start and at the end of [crawl] *)
  clock_at_start : Q;
  clock_at_end : Q
}.

(** [int(x)] of a float: truncation towards zero. *)
Definition py_int (x : Q) : Z := Z.quot (Qnum x) (Z.pos (Qden x)).

(** ** Records of [crawler.py] *)

Record PageData := {
  url : string;
  title : string;
  content : string;
  html : string;
  meta_description : option string;
  meta_keywords : option string;
  h1s : list string;
  h2s : list string;
  internal_links : list string;
  external_links : list string;
  images : list Image;
  status_code : Z;
  load_time_ms : Z;
  word_count : Z;
  schema_org : list Json
}.

Record CrawlStats := {
  total_pages_crawled : Z;
  total_errors : Z;
  crawl_time_seconds : Q;
  average_page_size_kb : Q;
  average_load_time_ms : Q;
  pages_by_status_code : gmap Z Z
}.

Record CrawlResult := {
  base_url : string;
  pages : gmap string PageData;
  errors : gmap string string;
  result_site_structure : gmap string (list string);
  crawl_stats : CrawlStats
}.

(** The arguments of [WebsiteCrawler.__init__]. *)
Record Config := {
  max_pages : Z;
  max_depth : Z;
  respect_robots : bool;
  user_agent : string;
  timeout : Z;
  max_concurrent_requests : Z
}.

Definition default_config : Config :=
  {| max_pages := 100; max_depth := 3; respect_robots := true;
     user_agent := "SEOSageBot/1.0"; timeout := 30;
     max_concurrent_requests := 10 |}.

(** ** The fetch worker: [WebsiteCrawler._process_url] *)

(** The tuple [(url, page_data, new_urls, error)]. *)
Record WorkerResult := {
  r_url : string;
  r_page_data : option PageData;
  r_new_urls : list string;
  r_error : option string
}.

Definition failed (url message : string) : WorkerResult :=
  {| r_url := url; r_page_data := None; r_new_urls := []; r_error := Some message |}.

(** [s in t] for strings. *)
Fixpoint has_substring (t s : string) : bool :=
  if PyStr.startswith t s then true
  else match t with
       | EmptyString => false
       | String _ t' => has_substring t' s
       end.

Definition measure_load_time_ms (start_time now : Q) : Z :=
  py_int ((now - start_time) * 1000).

(** The extraction part of [_process_url] (lines 225 to 253): the
    extractors run in this order on one tree, which [_extract_content]
    edits.  An exception of [urljoin] in [_extract_links] or in
    [_extract_images] leaves the extraction. *)
Definition build_page_data (w : World) (url base_url html : string) (soup : Soup)
    (status_code load_time_ms : Z) : Try PageData :=
  let title := extract_title soup in
  let '(content, soup) := extract_content soup in
  let meta_description := extract_meta "description" soup in
  let meta_keywords := extract_meta "keywords" soup in
  let h1s := extract_headings soup "h1" in
  let h2s := extract_headings soup "h2" in
  match extract_links (urljoin w) soup base_url url with
  | Raises e => Raises e
  | Returns (internal_links, external_links) =>
      match extract_images (urljoin w) soup base_url with
      | Raises e => Raises e
      | Returns images =>
          let schema_org := extract_schema_org (json_loads w) soup in
          let word_count := TextCleanup.count_words false content in
          Returns
            {| url := url; title := title; content := content; html := html;
               meta_description := meta_description; meta_keywords := meta_keywords;
               h1s := h1s; h2s := h2s;
               internal_links := internal_links; external_links := external_links;
               images := images; status_code := status_code;
               load_time_ms := load_time_ms; word_count := word_count;
               schema_org := schema_org |}
      end
  end.

Definition process_url (w : World) (url : string) (depth : Z) (base_url : string)
  : WorkerResult :=
  let start_time := clock_at_request w url in
  match http_get w url with
  | Raises e => failed url e
  | Returns response =>
      let load_time_ms := measure_load_time_ms start_time (clock_at_response w url) in
      let content_type := default EmptyString (content_type_header response) in
      if negb (has_substring (PyStr.lower content_type) "text/html")
      then failed url ("Not HTML content: " +:+ content_type)
      else
        match text response with
        | Raises e => failed url e
        | Returns html =>
            let status_code := status response in
            if (400 <=? status_code)%Z
            then failed url ("HTTP status " +:+ PyStr.of_Z status_code)
            else
              match html_parser w html with
              | Raises e => failed url e
              | Returns soup =>
                  match build_page_data w url base_url html soup status_code
                          load_time_ms with
                  | Raises e => failed url e
                  | Returns page_data =>
                      {| r_url := url; r_page_data := Some page_data;
                         r_new_urls := internal_links page_data; r_error := None |}
                  end
              end
        end
  end.

(** ** The scheduler and coordinator: [WebsiteCrawler.crawl] *)

(** The two effects of the loop on its surroundings, recorded newest
    first: a worker is created for [url] (line 120), and [url] is appended
    to the frontier (line 155; the seed is there from line 92). *)
Inductive Event : Type :=
  | Dispatched (url : string) (depth : Z)
  | Enqueued (url : string) (depth : Z).

Record CrawlState := {
  visited_urls : gset string;
  pages_data : gmap string PageData;
  error_urls : gmap string string;
  urls_to_visit : list (string * Z);
  site_structure : gmap string (list string);
  events : list Event
}.

(** [l[:n]] and [l[n:]] *)
Definition slice_to {A} (n : Z) (l : list A) : list A :=
  if (0 <=? n)%Z then take (Z.to_nat n) l
  else take (length l - Z.to_nat (- n))%nat l.

Definition slice_from {A} (n : Z) (l : list A) : list A :=
  if (0 <=? n)%Z then drop (Z.to_nat n) l
  else drop (length l - Z.to_nat (- n))%nat l.

(** Lines 114 to 120, for one entry of the batch. *)
Definition dispatch_step (base_url : string)
    (acc : gset string * list (string * Z) * list Event) (url_info : string * Z)
  : gset string * list (string * Z) * list Event :=
  let '(visited, tasks, evs) := acc in
  let '(url, depth) := url_info in
  if (bool_decide (url ∉ visited) && should_visit_url url base_url)%bool
  then ({[url]} ∪ visited, tasks ++ [(url, depth)], Dispatched url depth :: evs)
  else acc.

(** [next((u["depth"] for u in current_batch if u["url"] == url), 0)] *)
Fixpoint depth_in_batch (current_batch : list (string * Z)) (url : string) : Z :=
  match current_batch with
  | [] => 0
  | (u, d) :: rest => if String.eqb u url then d else depth_in_batch rest url
  end.

(** Lines 152 to 155, for one discovered link. *)
Definition enqueue_step (base_url : string) (visited : gset string) (current_depth : Z)
    (acc : list (string * Z) * list Event) (new_url : string)
  : list (string * Z) * list Event :=
  let '(to_visit, evs) := acc in
  if (bool_decide (new_url ∉ visited) &&
      bool_decide (new_url ∉ (fst <$> to_visit)) &&
      should_visit_url new_url base_url)%bool
  then (to_visit ++ [(new_url, current_depth + 1)],
        Enqueued new_url (current_depth + 1) :: evs)
  else acc.

(** Lines 126 to 155, for one result of the round.  A worker catches
    every exception itself and always returns its 4-tuple, which is never
    falsy, so the tests of lines 127 and 132 never hold. *)
Definition handle_result (cfg : Config) (base_url : string)
    (current_batch : list (string * Z)) (st : CrawlState) (result : WorkerResult)
  : CrawlState :=
  let url := r_url result in
  if match r_error result with Some e => PyStr.truthy e | None => false end then
    {| visited_urls := visited_urls st;
       pages_data := pages_data st;
       error_urls := <[url := default EmptyString (r_error result)]> (error_urls st);
       urls_to_visit := urls_to_visit st;
       site_structure := site_structure st;
       events := events st |}
  else
    match r_page_data result with
    | Some page_data =>
        let current_depth := depth_in_batch current_batch url in
        let '(to_visit, evs) :=
          if (current_depth <? max_depth cfg)%Z
          then fold_left (enqueue_step base_url (visited_urls st) current_depth)
                         (r_new_urls result) (urls_to_visit st, events st)
          else (urls_to_visit st, events st) in
        {| visited_urls := visited_urls st;
           pages_data := <[url := page_data]> (pages_data st);
           error_urls := error_urls st;
           urls_to_visit := to_visit;
           site_structure :=
             <[url := List.filter (fun link => PyStr.startswith link base_url)
                                  (internal_links page_data)]> (site_structure st);
           events := evs |}
    | None => st
    end.

(** One iteration of the [while] loop (lines 108 to 155): the batch is
    cut off the frontier, its admitted and unvisited entries are handed to
    workers, and the results are handled in the order of the tasks, as
    [asyncio.gather] returns them. *)
Definition crawl_round (w : World) (cfg : Config) (base_url : string) (st : CrawlState)
  : CrawlState :=
  let current_batch := slice_to (max_concurrent_requests cfg) (urls_to_visit st) in
  let to_visit := slice_from (max_concurrent_requests cfg) (urls_to_visit st) in
  let '(visited, tasks, evs) :=
    fold_left (dispatch_step base_url) current_batch (visited_urls st, [], events st) in
  let batch_results :=
    map (fun task => process_url w (fst task) (snd task) base_url) tasks in
  fold_left (handle_result cfg base_url current_batch) batch_results
    {| visited_urls := visited;
       pages_data := pages_data st;
       error_urls := error_urls st;
       urls_to_visit := to_visit;
       site_structure := site_structure st;
       events := evs |}.

(** [urls_to_visit and len(pages_data) < self.max_pages] *)
Definition loop_condition (cfg : Config) (st : CrawlState) : bool :=
  (match urls_to_visit st with [] => false | _ => true end &&
   (Z.of_nat (size (pages_data st)) <? max_pages cfg)%Z)%bool.

(** The [while] loop of line 107; [None] when [fuel] rounds do not end it. *)
Fixpoint crawl_loop (w : World) (cfg : Config) (base_url : string)
    (fuel : nat) (st : CrawlState) : option CrawlState :=
  if loop_condition cfg st then
    match fuel with
    | O => None
    | S fuel' => crawl_loop w cfg base_url fuel' (crawl_round w cfg base_url st)
    end
  else Some st.

Definition initial_state (start_url : string) : CrawlState :=
  {| visited_urls := ∅;
     pages_data := ∅;
     error_urls := ∅;
     urls_to_visit := [(start_url, 0)];
     site_structure := ∅;
     events := [Enqueued start_url 0] |}.

(** [_calculate_avg_page_size] *)
Definition calculate_avg_page_size (pages_data : gmap string PageData) : Q :=
  if bool_decide (pages_data = ∅) then 0%Q
  else
    let total_size :=
      fold_right Qplus 0%Q
        (map (fun p => (inject_Z (Z.of_nat (String.length (html p.2))) / 1024)%Q)
             (map_to_list pages_data)) in
    (total_size / inject_Z (Z.of_nat (size pages_data)))%Q.

(** [_calculate_avg_load_time] *)
Definition calculate_avg_load_time (pages_data : gmap string PageData) : Q :=
  if bool_decide (pages_data = ∅) then 0%Q
  else
    let total_time :=
      fold_right Z.add 0 (map (fun p => load_time_ms p.2) (map_to_list pages_data)) in
    (inject_Z total_time / inject_Z (Z.of_nat (size pages_data)))%Q.

(** [_count_status_codes] *)
Definition count_status_codes (pages_data : gmap string PageData) : gmap Z Z :=
  fold_left
    (fun (status_counts : gmap Z Z) p =>
       <[status_code p.2 := default 0 (status_counts !! status_code p.2) + 1]> status_counts)
    (map_to_list pages_data) ∅.

(** Lines 159 to 176. *)
Definition make_result (w : World) (base_url : string) (st : CrawlState) : CrawlResult :=
  {| base_url := base_url;
     pages := pages_data st;
     errors := error_urls st;
     result_site_structure := site_structure st;
     crawl_stats :=
       {| total_pages_crawled := Z.of_nat (size (pages_data st));
          total_errors := Z.of_nat (size (error_urls st));
          crawl_time_seconds := (clock_at_end w - clock_at_start w)%Q;
          average_page_size_kb := calculate_avg_page_size (pages_data st);
          average_load_time_ms := calculate_avg_load_time (pages_data st);
          pages_by_status_code := count_status_codes (pages_data st) |} |}.

Definition semaphore_error : string := "Semaphore initial value must be >= 0".

(** Lines 85 and 86: [urlparse(start_url)], which may raise, and
    [f"{parsed_url.scheme}://{parsed_url.netloc}"]. *)
Definition parse_base_url (w : World) (start_url : string) : Try string :=
  match urlparse w start_url with
  | Raises e => Raises e
  | Returns (scheme, netloc) => Returns (scheme +:+ "://" +:+ netloc)
  end.

(** [crawl], up to the end of the loop: the final state of the scheduler.
    The call of [urlparse] stands outside every [try], so its exception
    leaves [crawl]; then [asyncio.Semaphore(n)] raises [ValueError] for a
    negative [n], before the session is opened. *)
Definition crawl_run (w : World) (cfg : Config) (start_url : string) (fuel : nat)
  : option (Try CrawlState) :=
  match parse_base_url w start_url with
  | Raises e => Some (Raises e)
  | Returns base_url =>
      if (max_concurrent_requests cfg <? 0)%Z then Some (Raises semaphore_error)
      else
        match crawl_loop w cfg base_url fuel (initial_state start_url) with
        | Some st => Some (Returns st)
        | None => None
        end
  end.

(** [WebsiteCrawler.crawl]: [None] when [fuel] rounds are not enough,
    otherwise the exception that leaves [crawl] or the result it returns. *)
Definition crawl (w : World) (cfg : Config) (start_url : string) (fuel : nat)
  : option (Try CrawlResult) :=
  match parse_base_url w start_url with
  | Raises e => Some (Raises e)
  | Returns base_url =>
      match crawl_run w cfg start_url fuel with
      | Some (Returns st) => Some (Returns (make_result w base_url st))
      | Some (Raises e) => Some (Raises e)
      | None => None
      end
  end.

(** ** Concrete worlds for the examples *)

Module Scenario.

(** The part of [s] up to and including its last [/]. *)
Fixpoint upto_last_slash (s : string) : string :=
  match s with
  | EmptyString => EmptyString
  | String c s' =>
      if PyStr.contains "/" s' then String c (upto_last_slash s')
      else if Ascii.eqb c "/" then String c EmptyString else EmptyString
  end.

(** [urljoin] on the references the examples use.  An empty reference
    gives the base; otherwise both texts are parsed, which may raise, and
    the reference is a URL of its own (it has a scheme), opens a network
    location, is an absolute path, a fragment, or a relative path without
    dot segments. *)
Definition rfc_join (base ref : string) : Try string :=
  if negb (PyStr.truthy ref) then Returns base
  else
    match UrlParse.urlparse base, UrlParse.urlparse ref with
    | Raises e, _ => Raises e
    | Returns _, Raises e => Raises e
    | Returns _, Returns _ =>
        Returns
          (if PyStr.truthy (UrlParse.scheme ref) then ref
           else if PyStr.startswith ref "//" then UrlParse.scheme base +:+ ":" +:+ ref
           else if PyStr.startswith ref "/" then UrlParse.origin base +:+ ref
           else if PyStr.startswith ref "#" then PyStr.before "#" base +:+ ref
           else
             let dir := upto_last_slash (UrlParse.path base) in
             UrlParse.origin base +:+ (if PyStr.truthy dir then dir else "/") +:+ ref)
    end.

Fixpoint assoc {A} (default : A) (table : list (string * A)) (key : string) : A :=
  match table with
  | [] => default
  | (k, v) :: rest => if String.eqb k key then v else assoc default rest key
  end.

Definition html_response (code : Z) (body : string) : Try Response :=
  Returns {| content_type_header := Some "text/html; charset=utf-8";
             status := code; text := Returns body |}.

(** A world given by what each URL answers and what each body parses to;
    unknown URLs refuse the connection, and every request takes 120 ms
    until the response and 380 ms more until the body is read. *)
Definition world (site : list (string * Try Response)) (parses : list (string * Soup))
  : World :=
  {| urlparse := UrlParse.urlparse;
     http_get := assoc (Raises "Cannot connect to host") site;
     html_parser := fun html => Returns (assoc [] parses html);
     urljoin := rfc_join;
     json_loads := fun _ => None;
     clock_at_request := fun _ => 10%Q;
     clock_at_response := fun _ => (10 + 120 / 1000)%Q;
     clock_at_body_read := fun _ => (10 + 500 / 1000)%Q;
     clock_at_start := 0%Q;
     clock_at_end := 60%Q |}.

Definition link (href label : string) : Node :=
  Element "a" [("href", href)] [Text label].

Definition home_html : string :=
  "<h1>Welcome</h1><a href=/about>About</a><a href=/contact>Contact</a><a href=https://other.com>Other</a>".

Definition home_soup : Soup :=
  [ Element "h1" [] [Text "Welcome"];
    link "/about" "About"; link "/contact" "Contact";
    link "https://other.com" "Other" ].

Definition leaf_html : string := "<p>Hello</p>".
Definition leaf_soup : Soup := [Element "p" [] [Text "Hello"]].

(** The site of the end-to-end scenario: a home page with two internal
    links and an external one. *)
Definition small_site : World :=
  world [ ("https://example.com/", html_response 200 home_html);
          ("https://example.com/about", html_response 200 leaf_html);
          ("https://example.com/contact", html_response 200 leaf_html) ]
        [ (home_html, home_soup); (leaf_html, leaf_soup) ].

Definition with_limits (pages depth concurrent : Z) : Config :=
  {| max_pages := pages; max_depth := depth; respect_robots := true;
     user_agent := "SEOSageBot/1.0"; timeout := 30;
     max_concurrent_requests := concurrent |}.

Definition home : string := "https://example.com/".

(** The final state and the result of the end-to-end scenario
    ([maxDepth] 1, [maxPages] 10, ten requests per round). *)
Definition small_state : CrawlState :=
  default (initial_state home)
    (crawl_loop small_site (with_limits 10 1 10) (UrlParse.origin home) 2
       (initial_state home)).

Definition small_result : CrawlResult :=
  make_result small_site (UrlParse.origin home) small_state.

(** The record of an extraction that returned; the empty record stands
    for one that raised. *)
Definition page_of (extraction : Try PageData) : PageData :=
  match extraction with
  | Returns page_data => page_data
  | Raises _ =>
      {| url := ""; title := ""; content := ""; html := "";
         meta_description := None; meta_keywords := None; h1s := []; h2s := [];
         internal_links := []; external_links := []; images := [];
         status_code := 0; load_time_ms := 0; word_count := 0; schema_org := [] |}
  end.

(** The record of the home page of the example site, answered with
    status 200 after 120 ms. *)
Definition home_page : PageData :=
  page_of (build_page_data small_site home (UrlParse.origin home) home_html home_soup
             200 120).

(** A site whose only page times out: the exception of a timeout has an
    empty message, [str(asyncio.TimeoutError()) == ""]. *)
Definition timeout_site : World := world [(home, Raises EmptyString)] [].

(** The same site under a budget of two pages. *)
Definition tight_budget : Config := with_limits 2 1 10.

(** A configuration that hands no request to a round. *)
Definition no_requests : Config := with_limits 100 3 0.

(** The same site with a failing server behind the about page. *)
Definition broken_site : World :=
  world [ (home, html_response 200 home_html);
          ("https://example.com/about", html_response 500 "<h1>Oops</h1>");
          ("https://example.com/contact", html_response 200 leaf_html) ]
        [ (home_html, home_soup); (leaf_html, leaf_soup) ].

Definition broken_result : CrawlResult :=
  make_result broken_site (UrlParse.origin home)
    (default (initial_state home)
       (crawl_loop broken_site (with_limits 10 1 10) (UrlParse.origin home) 2
          (initial_state home))).

End Scenario.

(** * Vocabulary of the properties *)

(** ** Admission *)

(** The three rejection rules, as the code applies them to the two
    strings. *)
Definition outside_origin (url base_url : string) : Prop :=
  ~ exists rest, url = base_url +:+ rest.

Definition has_fragment (url : string) : Prop :=
  exists before after, url = before +:+ String "#" after.

Definition has_skipped_extension (url : string) : Prop :=
  exists ext before, ext ∈ skip_extensions /\ PyStr.lower url = before +:+ ext.


(** ** Link extraction *)

(** An [href], once trimmed, that the link extractor follows: it is not
    empty and does not start with [javascript:], [mailto:] or [tel:]. *)
Definition followable (href : string) : bool :=
  (PyStr.truthy href && negb (PyStr.startswith_any href skipped_schemes))%bool.

(** The trimmed [href]s the link extractor follows, in document order. *)
Definition followed_hrefs (hrefs : list string) : list string :=
  List.filter followable (map PyStr.strip hrefs).

(** The absolute, fragment-free URL of a followed [href]: references that
    do not start with [http://] or [https://] are resolved against the
    page's own URL, which may raise, and the text from the first [#] on is
    cut off. *)
Definition resolve_href (join : string -> string -> Try string)
    (current_url href : string) : Try string :=
  match (if PyStr.startswith_any href http_schemes then Returns href
         else join current_url href) with
  | Raises e => Raises e
  | Returns absolute => Returns (PyStr.before "#" absolute)
  end.

(** [href] can be resolved: [urljoin] does not raise on it. *)
Definition resolvable (join : string -> string -> Try string)
    (current_url href : string) : Prop :=
  exists link, resolve_href join current_url href = Returns link.

(** The resolved URLs of the anchors of a page, one per followed anchor
    that can be resolved, in document order. *)
Definition resolved_links (join : string -> string -> Try string) (current_url : string)
    (hrefs : list string) : list string :=
  flat_map (fun href => match resolve_href join current_url href with
                        | Returns link => [link]
                        | Raises _ => []
                        end)
           (followed_hrefs hrefs).

(** The elements of [l] that are neither in [seen] nor earlier in [l],
    in the order of their first occurrence. *)
Fixpoint first_occurrences (seen l : list string) : list string :=
  match l with
  | [] => []
  | x :: l' =>
      if bool_decide (x ∈ seen) then first_occurrences seen l'
      else x :: first_occurrences (x :: seen) l'
  end.

Definition inside (base_url link : string) : bool := PyStr.startswith link base_url.
Definition outside (base_url link : string) : bool := negb (PyStr.startswith link base_url).

(** A document without [script], [style], [header], [footer] and [nav]
    elements: [soup(["script", ...])] finds nothing. *)
Definition no_stripped_elements (soup : Soup) : Prop :=
  Bs4.find_all (Bs4.tag_in stripped_tags) soup = [].

(** A document none of whose anchors lies inside a [script], [style],
    [header], [footer] or [nav] element: removing those elements removes
    no anchor. *)
Definition keeps_all_anchors (soup : Soup) : Prop :=
  anchor_hrefs (Bs4.decompose_all stripped_tags soup) = anchor_hrefs soup.

(** ** Runs of the scheduler *)

Definition event_url (e : Event) : string :=
  match e with Dispatched u _ => u | Enqueued u _ => u end.

(** The URLs a worker was created for, newest first. *)
Definition dispatched_urls (evs : list Event) : list string :=
  flat_map (fun e => match e with Dispatched u _ => [u] | Enqueued _ _ => [] end) evs.

(** Every event concerns a URL for which no worker had been created
    before ([evs] is newest first). *)
Fixpoint events_ok (evs : list Event) : Prop :=
  match evs with
  | [] => True
  | e :: earlier => (event_url e ∉ dispatched_urls earlier) /\ events_ok earlier
  end.

(** Once a worker has been created for a URL, no later event concerns
    that URL: it is neither enqueued nor dispatched again. *)
Definition never_again (evs : list Event) : Prop :=
  forall later earlier u d,
    evs = later ++ Dispatched u d :: earlier ->
    forall e, e ∈ later -> event_url e <> u.

(** [child] is one of the internal links of the collected page [parent]. *)
Definition found_on (pages : gmap string PageData) (parent child : string) : Prop :=
  exists page, pages !! parent = Some page /\ child ∈ internal_links page.

(** [hops pages seed d u]: [u] is reached from [seed] by following [d]
    internal links, each found on a collected page. *)
Inductive hops (pages : gmap string PageData) (seed : string) : Z -> string -> Prop :=
  | hops_seed : hops pages seed 0 seed
  | hops_link (d : Z) (parent child : string) :
      hops pages seed d parent -> found_on pages parent child ->
      hops pages seed (d + 1) child.

(** The invariant of the loop of [crawl].  [pending] are the tasks of the
    current round whose results have not been handled yet; it is empty
    between rounds. *)
Record Inv (cfg : Config) (seed : string) (st : CrawlState)
    (pending : list (string * Z)) : Prop := {
  inv_pages_visited :
    forall u, is_Some (pages_data st !! u) -> u ∈ visited_urls st;
  inv_errors_visited :
    forall u, is_Some (error_urls st !! u) -> u ∈ visited_urls st;
  inv_disjoint :
    forall u, is_Some (pages_data st !! u) -> error_urls st !! u = None;
  inv_pending_nodup : NoDup pending.*1;
  inv_pending_fresh :
    forall u d, (u, d) ∈ pending ->
      pages_data st !! u = None /\ error_urls st !! u = None
      /\ Dispatched u d ∈ events st;
  inv_frontier_nodup : NoDup (urls_to_visit st).*1;
  inv_frontier_unvisited :
    forall u, u ∈ (urls_to_visit st).*1 -> u ∉ visited_urls st;
  inv_frontier_enqueued :
    forall u d, (u, d) ∈ urls_to_visit st -> Enqueued u d ∈ events st;
  inv_visited_dispatched :
    forall u, u ∈ visited_urls st <-> u ∈ dispatched_urls (events st);
  inv_events_ok : events_ok (events st);
  inv_dispatched_enqueued :
    forall u d, Dispatched u d ∈ events st -> Enqueued u d ∈ events st;
  inv_enqueued_origin :
    forall v d, Enqueued v d ∈ events st ->
      (v = seed /\ d = 0)
      \/ (1 <= d <= max_depth cfg
          /\ exists p, Dispatched p (d - 1) ∈ events st /\ found_on (pages_data st) p v)
}.

(** ** Statistics *)

(** The collected page records. *)
Definition collected (pages : gmap string PageData) : list PageData :=
  (map_to_list pages).*2.

Definition sumQ (xs : list Q) : Q := fold_right Qplus 0%Q xs.

(** The arithmetic mean, 0 for no values. *)
Definition mean (xs : list Q) : Q :=
  match xs with
  | [] => 0%Q
  | _ => (sumQ xs / inject_Z (Z.of_nat (length xs)))%Q
  end.

(** [len(page.html) / 1024] *)
Definition page_size_kb (p : PageData) : Q :=
  (inject_Z (Z.of_nat (String.length (html p))) / 1024)%Q.

(** How many of the records have status code [c]. *)
Definition occurrences (c : Z) (ps : list PageData) : Z :=
  Z.of_nat (length (List.filter (fun p => Z.eqb (status_code p) c) ps)).

(** [h] counts the status codes of [ps]; a code that does not occur has
    no entry. *)
Definition histogram_of (ps : list PageData) (h : gmap Z Z) : Prop :=
  forall c, h !! c = if decide (occurrences c ps = 0) then None
                     else Some (occurrences c ps).

(** ** Where the entries of a result come from *)

(** A second invariant of the loop of [crawl], about the contents of its
    tables: only admitted URLs get a worker; every entry of [pages] and of
    [errors] is what the worker of its URL returned; [site_structure]
    follows [pages]; and every admitted link of a collected page that was
    dispatched above the depth limit is visited or waits in the frontier. *)
Record Provenance (w : World) (cfg : Config) (base : string) (st : CrawlState)
  : Prop := {
  prov_admitted :
    forall u d, Dispatched u d ∈ events st -> should_visit_url u base = true;
  prov_pages :
    forall u pd, pages_data st !! u = Some pd ->
      exists d, Dispatched u d ∈ events st
                /\ r_page_data (process_url w u d base) = Some pd;
  prov_errors :
    forall u e, error_urls st !! u = Some e ->
      PyStr.truthy e = true
      /\ exists d, Dispatched u d ∈ events st
                   /\ r_error (process_url w u d base) = Some e;
  prov_structure :
    forall u, site_structure st !! u = internal_links <$> (pages_data st !! u);
  prov_complete :
    forall p dp pd v,
      Dispatched p dp ∈ events st -> pages_data st !! p = Some pd ->
      dp < max_depth cfg -> v ∈ internal_links pd ->
      should_visit_url v base = true ->
      v ∈ visited_urls st \/ v ∈ (urls_to_visit st).*1
}.

(** The ways a worker fails on [u] with message [e]: the request, the
    reading of the body, the parser or the extraction (through [urljoin])
    raises an exception of that message, the response is not declared as
    HTML, or its status is 400 or more. *)
Definition failure_of (w : World) (base u e : string) : Prop :=
  http_get w u = Raises e
  \/ exists response,
       http_get w u = Returns response
       /\ let content_type := default EmptyString (content_type_header response) in
          let is_html := has_substring (PyStr.lower content_type) "text/html" in
          (is_html = false /\ e = "Not HTML content: " +:+ content_type)
          \/ (is_html = true /\ text response = Raises e)
          \/ (is_html = true /\ exists body,
                text response = Returns body
                /\ ((400 <= status response
                     /\ e = "HTTP status " +:+ PyStr.of_Z (status response))
                    \/ (status response < 400 /\ html_parser w body = Raises e)
                    \/ (status response < 400 /\ exists soup,
                          html_parser w body = Returns soup
                          /\ build_page_data w u base body soup (status response)
                               (measure_load_time_ms (clock_at_request w u)
                                  (clock_at_response w u)) = Raises e))).

(** What a worker has seen when it returns the page record [pd] for [u]. *)
Definition fetched_as (w : World) (base u : string) (pd : PageData) : Prop :=
  exists response soup,
    http_get w u = Returns response
    /\ has_substring
         (PyStr.lower (default EmptyString (content_type_header response)))
         "text/html" = true
    /\ text response = Returns (html pd)
    /\ status response = status_code pd
    /\ status_code pd < 400
    /\ html_parser w (html pd) = Returns soup
    /\ build_page_data w u base (html pd) soup (status_code pd)
         (measure_load_time_ms (clock_at_request w u) (clock_at_response w u))
       = Returns pd.

(** The sum of the counts of a status table. *)
Definition total_count (counts : gmap Z Z) : Z :=
  map_fold (fun _ n acc => n + acc) 0 counts.

(** ** The text of a page *)

Definition not_linebreak (c : ascii) : bool := negb (TextCleanup.is_linebreak c).

(** A line of cleaned text: not empty, without line breaks inside, and
    without white space at either end. *)
Definition clean_line (l : string) : Prop :=
  l <> EmptyString /\ PyStr.strip l = l /\ UrlParse.all_chars not_linebreak l = true.

(** ** Breadth-first order *)

Fixpoint nondecreasing (l : list Z) : Prop :=
  match l with
  | [] => True
  | x :: rest => (forall y, y ∈ rest -> x <= y) /\ nondecreasing rest
  end.

(** No worker is created at a smaller depth than an earlier one ([evs]
    is newest first). *)
Fixpoint depth_order (evs : list Event) : Prop :=
  match evs with
  | [] => True
  | e :: earlier =>
      match e with
      | Dispatched _ d => forall u' d', Dispatched u' d' ∈ earlier -> d' <= d
      | Enqueued _ _ => True
      end /\ depth_order earlier
  end.

(** The invariant of breadth-first order: the depths of the tasks in
    hand followed by those of the frontier never decrease and span at most
    two levels; workers were created in the order of their depths, none
    deeper than an entry of the frontier. *)
Record Breadth (st : CrawlState) (pending : list (string * Z)) : Prop := {
  bf_sorted : nondecreasing (pending.*2 ++ (urls_to_visit st).*2);
  bf_range :
    forall x y, x ∈ pending.*2 ++ (urls_to_visit st).*2 ->
                y ∈ pending.*2 ++ (urls_to_visit st).*2 -> y <= x + 1;
  bf_order : depth_order (events st);
  bf_frontier :
    forall u d x, Dispatched u d ∈ events st -> x ∈ (urls_to_visit st).*2 -> d <= x;
  bf_near :
    forall u d x, Dispatched u d ∈ events st ->
                  x ∈ pending.*2 ++ (urls_to_visit st).*2 -> d <= x + 1
}.

(** * Properties *)

(** ** Strings *)

Section StringFacts.

Lemma startswith_spec (s p : string) :
  PyStr.startswith s p = true <-> exists t, s = p +:+ t.
Proof.
  revert s. induction p as [|c p IH]; intros s; simpl.
  - split; [intros _; by exists s | done].
  - destruct s as [|d s]; simpl.
    + split; [done | intros [t Ht]; discriminate].
    + destruct (Ascii.eqb_spec c d) as [->|Hne].
      * rewrite IH. split; intros [t Ht]; exists t; [by rewrite Ht | by injection Ht].
      * split; [done | intros [t Ht]; injection Ht as Hc _; by destruct Hne].
Qed.

Lemma startswith_refl (s : string) : PyStr.startswith s s = true.
Proof. induction s as [|c s IH]; simpl; [done | by rewrite Ascii.eqb_refl]. Qed.

Lemma contains_spec (c : ascii) (s : string) :
  PyStr.contains c s = true <-> exists a b, s = a +:+ String c b.
Proof.
  induction s as [|d s IH]; simpl.
  - split; [done | intros ([|? ?] & b & Hs); discriminate].
  - destruct (Ascii.eqb_spec c d) as [->|Hne].
    + split; [intros _; by exists EmptyString, s | done].
    + rewrite IH. split.
      * intros (a & b & ->). by exists (String d a), b.
      * intros ([|d' a] & b & Hs); cbn in Hs; injection Hs as Hd Hs.
        -- by destruct Hne.
        -- by exists a, b.
Qed.

Lemma endswith_unfold (s e : string) :
  PyStr.endswith s e =
  if String.eqb s e then true
  else match s with EmptyString => false | String _ s' => PyStr.endswith s' e end.
Proof. by destruct s. Qed.

Lemma endswith_spec (s e : string) :
  PyStr.endswith s e = true <-> exists t, s = t +:+ e.
Proof.
  induction s as [|c s IH]; rewrite endswith_unfold.
  - destruct (String.eqb_spec EmptyString e) as [<-|Hne].
    + split; [intros _; by exists EmptyString | done].
    + split; [done | intros ([|? ?] & Ht); cbn in Ht; [by destruct Hne | discriminate]].
  - destruct (String.eqb_spec (String c s) e) as [<-|Hne].
    + split; [intros _; by exists EmptyString | done].
    + rewrite IH. split.
      * intros [t ->]. by exists (String c t).
      * intros ([|c' t] & Ht); cbn in Ht; [by destruct Hne |].
        injection Ht as _ Ht. by exists t.
Qed.

Lemma before_no_char (c : ascii) (s : string) :
  PyStr.contains c (PyStr.before c s) = false.
Proof.
  induction s as [|d s IH]; simpl; [done |].
  destruct (Ascii.eqb c d) eqn:E; simpl; [done | by rewrite E].
Qed.

End StringFacts.

(** ** The admission filter *)

Section Admission.

Lemma skipped_extension_spec (url : string) :
  existsb (PyStr.endswith (PyStr.lower url)) skip_extensions = true
  <-> has_skipped_extension url.
Proof.
  unfold has_skipped_extension. rewrite existsb_exists. split.
  - intros (ext & Hin & He). apply endswith_spec in He as [t Ht].
    exists ext, t. by rewrite <- list_elem_of_In in Hin.
  - intros (ext & t & Hin & Ht). exists ext. split.
    + by apply list_elem_of_In.
    + apply endswith_spec. by exists t.
Qed.

(** X24: [_should_visit_url] rejects exactly when the URL does not have
    the origin string as a prefix, or contains a [#], or its lowercased
    text ends with one of the listed extensions. *)
Theorem should_visit_url_rejects_iff (url base_url : string) :
  should_visit_url url base_url = false
  <-> outside_origin url base_url \/ has_fragment url \/ has_skipped_extension url.
Proof.
  unfold should_visit_url, outside_origin, has_fragment.
  rewrite <- startswith_spec, <- contains_spec, <- skipped_extension_spec.
  set (inside := PyStr.startswith url base_url).
  set (fragment := PyStr.contains "#" url).
  set (extension := existsb (PyStr.endswith (PyStr.lower url)) skip_extensions).
  clearbody inside fragment extension.
  destruct inside, fragment, extension; simpl; intuition congruence.
Qed.

(** The filter is a function of its two arguments, and a URL that does
    not start with the origin string is never admitted. *)
Lemma should_visit_url_deterministic (url1 url2 base1 base2 : string) :
  url1 = url2 -> base1 = base2 ->
  should_visit_url url1 base1 = should_visit_url url2 base2.
Proof. by intros -> ->. Qed.

Lemma should_visit_url_inside (url base_url : string) :
  should_visit_url url base_url = true -> PyStr.startswith url base_url = true.
Proof. unfold should_visit_url. by destruct (PyStr.startswith url base_url). Qed.

(** C3 (the code at the failing input): the origin is compared as a
    prefix of the text, so a URL on another host whose name extends the
    origin's is admitted, although it has no fragment and no listed
    extension: the filter visits a URL that is not of the same domain. *)
Lemma should_visit_url_admits_other_host :
  UrlParse.origin "https://example.com.evil.com/x" <> "https://example.com"
  /\ PyStr.contains "#" "https://example.com.evil.com/x" = false
  /\ existsb (PyStr.endswith (UrlParse.path "https://example.com.evil.com/x"))
       skip_extensions = false
  /\ should_visit_url "https://example.com.evil.com/x" "https://example.com" = true.
Proof. repeat split; [intros H; vm_compute in H; discriminate | done..]. Qed.

End Admission.

(** ** The document tree *)

Section Tree.

(** Induction on a tree, with the hypothesis for every child. *)
Lemma Node_nested_ind (P : Node -> Prop) :
  (forall s, P (Text s)) ->
  (forall t a cs, Forall P cs -> P (Element t a cs)) ->
  forall n, P n.
Proof.
  intros HT HE. fix IH 1. intros [s | t a cs].
  - apply HT.
  - apply HE. induction cs as [|c cs IHcs]; constructor; [apply IH | apply IHcs].
Qed.

Lemma decompose_node_id (tags : list string) (n : Node) :
  Bs4.find_all_node (Bs4.tag_in tags) n = [] -> Bs4.decompose_node tags n = [n].
Proof.
  induction n as [s | t a cs IH] using Node_nested_ind; simpl; [done |].
  unfold Bs4.tag_in at 1. destruct (existsb (String.eqb t) tags); [done |].
  simpl. intros Hcs. do 2 f_equal.
  induction IH as [|c cs Hc _ IHcs]; simpl in *; [done |].
  apply app_eq_nil in Hcs as [Hc' Hcs']. by rewrite (Hc Hc'), IHcs.
Qed.

Lemma decompose_all_id (tags : list string) (soup : Soup) :
  Bs4.find_all (Bs4.tag_in tags) soup = [] -> Bs4.decompose_all tags soup = soup.
Proof.
  unfold Bs4.find_all, Bs4.decompose_all.
  induction soup as [|n soup IH]; simpl; [done |].
  intros H. apply app_eq_nil in H as [Hn Hs].
  by rewrite (decompose_node_id _ _ Hn), IH.
Qed.

End Tree.

(** ** Link extraction *)

Section Links.

Variable join : string -> string -> Try string.
Variables base_url current_url : string.

Lemma first_occurrences_ext (seen1 seen2 l : list string) :
  (forall x, x ∈ seen1 <-> x ∈ seen2) ->
  first_occurrences seen1 l = first_occurrences seen2 l.
Proof.
  revert seen1 seen2. induction l as [|x l IH]; intros seen1 seen2 Hs; simpl; [done |].
  rewrite (bool_decide_ext _ _ (Hs x)). case_bool_decide; [by apply IH |].
  f_equal. apply IH. intros y. rewrite !elem_of_cons. by rewrite Hs.
Qed.

Lemma first_occurrences_fresh (seen l : list string) (x : string) :
  x ∈ first_occurrences seen l -> x ∈ l /\ x ∉ seen.
Proof.
  revert seen. induction l as [|y l IH]; intros seen; simpl; [by rewrite elem_of_nil |].
  case_bool_decide as Hy.
  - intros Hx. apply IH in Hx as [? ?]. split; [by right | done].
  - rewrite elem_of_cons. intros [-> | Hx]; [split; [by left | done] |].
    apply IH in Hx as [? Hn]. split; [by right |].
    intros Hs. apply Hn. by right.
Qed.

Lemma first_occurrences_complete (seen l : list string) (x : string) :
  x ∈ l -> x ∉ seen -> x ∈ first_occurrences seen l.
Proof.
  revert seen. induction l as [|y l IH]; intros seen; simpl; [by rewrite elem_of_nil |].
  rewrite elem_of_cons. intros Hx Hn. case_bool_decide as Hy.
  - destruct Hx as [-> | Hx]; [done | by apply IH].
  - destruct (decide (x = y)) as [-> | Hne]; [by left |].
    right. destruct Hx as [-> | Hx]; [done |].
    apply IH; [done |]. rewrite elem_of_cons. by intros [? | ?].
Qed.

Lemma first_occurrences_NoDup (seen l : list string) :
  NoDup (first_occurrences seen l).
Proof.
  revert seen. induction l as [|y l IH]; intros seen; simpl; [constructor |].
  case_bool_decide; [apply IH |]. constructor; [| apply IH].
  intros Hy. apply first_occurrences_fresh in Hy as [_ Hn]. apply Hn. by left.
Qed.

Lemma followed_hrefs_cons (raw : string) (hrefs : list string) :
  followed_hrefs (raw :: hrefs)
  = if followable (PyStr.strip raw) then PyStr.strip raw :: followed_hrefs hrefs
    else followed_hrefs hrefs.
Proof. unfold followed_hrefs. cbn [map List.filter]. done. Qed.

Lemma resolved_links_cons (raw : string) (hrefs : list string) :
  resolved_links join current_url (raw :: hrefs)
  = if followable (PyStr.strip raw)
    then match resolve_href join current_url (PyStr.strip raw) with
         | Returns link => link :: resolved_links join current_url hrefs
         | Raises _ => resolved_links join current_url hrefs
         end
    else resolved_links join current_url hrefs.
Proof.
  unfold resolved_links. rewrite followed_hrefs_cons.
  destruct (followable (PyStr.strip raw)); [| done]. cbn [flat_map].
  by destruct (resolve_href join current_url (PyStr.strip raw)).
Qed.

(** Once an iteration has raised, the rest of the loop changes nothing. *)
Lemma extract_links_raised (hrefs : list string) (e : string) :
  fold_left (extract_links_step join base_url current_url) hrefs (Raises e) = Raises e.
Proof. induction hrefs as [|raw hrefs IH]; [done | exact IH]. Qed.

Lemma extract_links_step_skip (acc : list string * list string) (raw : string) :
  followable (PyStr.strip raw) = false ->
  extract_links_step join base_url current_url (Returns acc) raw = Returns acc.
Proof.
  unfold followable, extract_links_step. destruct acc as [internal external].
  destruct (PyStr.truthy (PyStr.strip raw)); [| done].
  by destruct (PyStr.startswith_any (PyStr.strip raw) skipped_schemes).
Qed.

Lemma extract_links_step_follow (internal external : list string) (raw : string) :
  followable (PyStr.strip raw) = true ->
  extract_links_step join base_url current_url (Returns (internal, external)) raw
  = match resolve_href join current_url (PyStr.strip raw) with
    | Raises e => Raises e
    | Returns href =>
        if inside base_url href
        then (if bool_decide (href ∈ internal) then Returns (internal, external)
              else Returns (internal ++ [href], external))
        else (if bool_decide (href ∈ external) then Returns (internal, external)
              else Returns (internal, external ++ [href]))
    end.
Proof.
  unfold followable, extract_links_step, resolve_href, inside.
  destruct (PyStr.truthy (PyStr.strip raw)); [| done].
  destruct (PyStr.startswith_any (PyStr.strip raw) skipped_schemes); [done |].
  intros _. cbn [negb orb].
  destruct (PyStr.startswith_any (PyStr.strip raw) http_schemes); cbn [negb]; [done |].
  by destruct (join current_url (PyStr.strip raw)).
Qed.

(** When the loop of [_extract_links] returns, every followed [href] was
    resolved, and each list holds the first occurrences of the resolved
    links of its kind. *)
Lemma extract_links_loop (hrefs internal external internal' external' : list string) :
  Forall (fun l => inside base_url l = true) internal ->
  Forall (fun l => outside base_url l = true) external ->
  fold_left (extract_links_step join base_url current_url) hrefs
    (Returns (internal, external)) = Returns (internal', external') ->
  let links := first_occurrences (internal ++ external)
                 (resolved_links join current_url hrefs) in
  Forall (resolvable join current_url) (followed_hrefs hrefs)
  /\ internal' = internal ++ List.filter (inside base_url) links
  /\ external' = external ++ List.filter (outside base_url) links.
Proof.
  revert internal external.
  induction hrefs as [|raw hrefs IH]; intros internal external Hi He Hrun links;
    subst links.
  { cbn in *. injection Hrun as <- <-. by rewrite !app_nil_r. }
  cbn [fold_left] in Hrun. rewrite resolved_links_cons, followed_hrefs_cons.
  destruct (followable (PyStr.strip raw)) eqn:Hf.
  2:{ rewrite extract_links_step_skip in Hrun by done. by apply IH. }
  rewrite extract_links_step_follow in Hrun by done.
  destruct (resolve_href join current_url (PyStr.strip raw)) as [e | href] eqn:Hres.
  { by rewrite extract_links_raised in Hrun. }
  assert (resolvable join current_url (PyStr.strip raw)) as Hok by (by exists href).
  cbn [first_occurrences].
  destruct (inside base_url href) eqn:Hin.
  - assert (href ∉ external) as Hne.
    { intros Hx. rewrite Forall_forall in He. specialize (He _ Hx).
      unfold outside in He. unfold inside in Hin. by rewrite Hin in He. }
    rewrite (bool_decide_ext (href ∈ internal ++ external) (href ∈ internal)).
    2:{ rewrite elem_of_app. naive_solver. }
    case_bool_decide as Hx.
    { destruct (IH _ _ Hi He Hrun) as (Hall & -> & ->). by split_and!; [constructor | |]. }
    apply IH in Hrun as (Hall & -> & ->);
      [| apply Forall_app; split; [done | by constructor] | done].
    split; [by constructor |].
    cbn [List.filter]. rewrite Hin.
    assert (outside base_url href = false) as ->.
    { unfold outside. unfold inside in Hin. by rewrite Hin. }
    rewrite <- !app_assoc. cbn [app].
    rewrite (first_occurrences_ext (internal ++ [href] ++ external)
               (href :: internal ++ external)); [done |].
    intros y. rewrite !elem_of_app, !elem_of_cons, !elem_of_app, elem_of_nil.
    naive_solver.
  - assert (href ∉ internal) as Hne.
    { intros Hx. rewrite Forall_forall in Hi. specialize (Hi _ Hx).
      by rewrite Hin in Hi. }
    assert (outside base_url href = true) as Hout.
    { unfold outside. unfold inside in Hin. by rewrite Hin. }
    rewrite (bool_decide_ext (href ∈ internal ++ external) (href ∈ external)).
    2:{ rewrite elem_of_app. naive_solver. }
    case_bool_decide as Hx.
    { destruct (IH _ _ Hi He Hrun) as (Hall & -> & ->). by split_and!; [constructor | |]. }
    apply IH in Hrun as (Hall & -> & ->);
      [| done | apply Forall_app; split; [done | by constructor]].
    split; [by constructor |].
    cbn [List.filter]. rewrite Hin, Hout.
    rewrite <- !app_assoc. cbn [app].
    rewrite (first_occurrences_ext (internal ++ external ++ [href])
               (href :: internal ++ external)); [done |].
    intros y. rewrite !elem_of_app, !elem_of_cons, !elem_of_app, elem_of_nil.
    naive_solver.
Qed.

(** [_extract_links] against its description: when it returns, every
    followed [href] was resolved and both lists are cut out of the first
    occurrences of the resolved links. *)
Lemma extract_links_spec (soup : Soup) (internal external : list string) :
  extract_links join soup base_url current_url = Returns (internal, external) ->
  let links := first_occurrences [] (resolved_links join current_url (anchor_hrefs soup)) in
  Forall (resolvable join current_url) (followed_hrefs (anchor_hrefs soup))
  /\ internal = List.filter (inside base_url) links
  /\ external = List.filter (outside base_url) links.
Proof.
  unfold extract_links. intros Hrun.
  by apply extract_links_loop in Hrun as (? & -> & ->).
Qed.

(** The resolved links are those of all followed anchors when each of
    them can be resolved. *)
Lemma resolved_links_all (hrefs : list string) :
  Forall (resolvable join current_url) (followed_hrefs hrefs) ->
  Forall2 (fun href link => resolve_href join current_url href = Returns link)
    (followed_hrefs hrefs) (resolved_links join current_url hrefs).
Proof.
  unfold resolved_links. induction (followed_hrefs hrefs) as [|h hs IH]; intros Hall.
  { constructor. }
  apply Forall_cons in Hall as [[link Hlink] Hall]. cbn [flat_map]. rewrite Hlink.
  constructor; [done | by apply IH].
Qed.

End Links.

(** ** The links of a page record *)

(** What a page record takes over from its arguments and from the
    extractors: the link lists are those [_extract_links] reads off the
    tree that [_extract_content] has left. *)
Lemma build_page_data_inv (w : World) (u base body : string) (soup : Soup)
    (code time : Z) (page : PageData) :
  build_page_data w u base body soup code time = Returns page ->
  extract_links (urljoin w) (Bs4.decompose_all stripped_tags soup) base u
  = Returns (internal_links page, external_links page)
  /\ url page = u
  /\ html page = body
  /\ status_code page = code
  /\ load_time_ms page = time
  /\ content page = (extract_content soup).1
  /\ word_count page = TextCleanup.count_words false (extract_content soup).1
  /\ schema_org page
     = extract_schema_org (json_loads w) (Bs4.decompose_all stripped_tags soup).
Proof.
  unfold build_page_data, extract_content. cbv beta iota zeta.
  destruct (extract_links (urljoin w) (Bs4.decompose_all stripped_tags soup)
              base u) as [e | [internal external]]; [done |].
  destruct (extract_images (urljoin w) (Bs4.decompose_all stripped_tags soup) base)
    as [e | images]; [done |].
  by intros [= <-].
Qed.

(** A worker that returns a page record has received an HTML response
    with a status below 400, read and parsed its body, and built the
    record from the tree. *)
Lemma process_url_built (w : World) (base u : string) (d : Z) (pd : PageData) :
  r_page_data (process_url w u d base) = Some pd ->
  exists response body soup,
    http_get w u = Returns response
    /\ has_substring
         (PyStr.lower (default EmptyString (content_type_header response)))
         "text/html" = true
    /\ text response = Returns body
    /\ status response < 400
    /\ html_parser w body = Returns soup
    /\ build_page_data w u base body soup (status response)
         (measure_load_time_ms (clock_at_request w u) (clock_at_response w u))
       = Returns pd.
Proof.
  unfold process_url, failed. destruct (http_get w u) as [e | response]; [done |].
  destruct (has_substring _ _) eqn:Hhtml; [| done]. cbn [negb].
  destruct (text response) as [e | body] eqn:Hbody; [done |].
  destruct (Z.leb_spec 400 (status response)); [done |].
  destruct (html_parser w body) as [e | soup] eqn:Hsoup; [done |].
  destruct (build_page_data _ _ _ _ _ _ _) as [e | page] eqn:Hpage; [done |].
  simpl. intros [= <-]. by exists response, body, soup.
Qed.

Section PageLinks.

Variable w : World.
Variables url base_url html : string.
Variables status_code load_time_ms : Z.

Lemma build_page_data_links (soup : Soup) (page : PageData) :
  build_page_data w url base_url html soup status_code load_time_ms = Returns page ->
  extract_links (urljoin w) (Bs4.decompose_all stripped_tags soup) base_url url
  = Returns (internal_links page, external_links page).
Proof. intros H. by apply build_page_data_inv in H as [? _]. Qed.

(** A document without the stripped elements keeps all its anchors. *)
Lemma no_stripped_elements_keeps_anchors (soup : Soup) :
  no_stripped_elements soup -> keeps_all_anchors soup.
Proof.
  intros H. unfold keeps_all_anchors. by rewrite (decompose_all_id _ _ H).
Qed.

(** C4 (as amended): for a page record built from a document none of
    whose anchors lies inside a script, style, header, footer or nav
    element, every anchor whose trimmed [href] is not empty and does not
    start with [javascript:], [mailto:] or [tel:] was resolved (an [href]
    that is only a fragment included), each against the page's own URL, and
    the two link lists of the record are the internal and the external part
    of one duplicate-free list: the resolved, fragment-free URLs of those
    anchors in the order of first occurrence.  The lists are disjoint and a
    link is internal exactly when it starts with the origin. *)
Theorem page_links_partition (soup : Soup) (page : PageData) :
  keeps_all_anchors soup ->
  build_page_data w url base_url html soup status_code load_time_ms = Returns page ->
  let followed := followed_hrefs (anchor_hrefs soup) in
  let resolved := resolved_links (urljoin w) url (anchor_hrefs soup) in
  let links := first_occurrences [] resolved in
  Forall2 (fun href link => resolve_href (urljoin w) url href = Returns link)
    followed resolved
  /\ internal_links page = List.filter (inside base_url) links
  /\ external_links page = List.filter (outside base_url) links
  /\ NoDup links
  /\ (forall l, l ∈ links <-> l ∈ resolved)
  /\ (forall l, l ∈ internal_links page ++ external_links page <-> l ∈ resolved)
  /\ (forall l, l ∈ internal_links page -> l ∉ external_links page)
  /\ (forall l, l ∈ resolved -> PyStr.contains "#" l = false).
Proof.
  intros Hdoc Hpage followed resolved links.
  apply build_page_data_links in Hpage. unfold extract_links in Hpage.
  rewrite Hdoc in Hpage. apply extract_links_spec in Hpage as (Hall & Hi & He).
  fold resolved links in Hi, He.
  assert (forall l, l ∈ links <-> l ∈ resolved) as Hmem.
  { intros l. split.
    - intros H. by apply first_occurrences_fresh in H as [? _].
    - intros H. apply first_occurrences_complete; [done | apply not_elem_of_nil]. }
  split_and!; try done.
  - by apply resolved_links_all.
  - apply first_occurrences_NoDup.
  - intros l. rewrite <- Hmem, Hi, He, elem_of_app, !list_elem_of_In, !filter_In.
    unfold outside, inside.
    destruct (PyStr.startswith l base_url); simpl; intuition congruence.
  - intros l. rewrite Hi, He, !list_elem_of_In, !filter_In. unfold outside, inside.
    intros [_ H1] [_ H2]. by rewrite H1 in H2.
  - intros l. unfold resolved, resolved_links.
    rewrite list_elem_of_In, in_flat_map. intros (h & _ & Hl).
    unfold resolve_href in Hl.
    destruct (if PyStr.startswith_any h http_schemes then Returns h else urljoin w url h)
      as [e | absolute]; [by destruct Hl |].
    destruct Hl as [<- | []].
    apply before_no_char.
Qed.

End PageLinks.

(** C4 (witness): the home page of the example site. *)
Lemma page_links_partition_witness :
  keeps_all_anchors Scenario.home_soup
  /\ build_page_data Scenario.small_site "https://example.com/" "https://example.com"
       Scenario.home_html Scenario.home_soup 200 120 = Returns Scenario.home_page
  /\ internal_links Scenario.home_page
     = ["https://example.com/about"; "https://example.com/contact"].
Proof.
  assert (build_page_data Scenario.small_site "https://example.com/" "https://example.com"
            Scenario.home_html Scenario.home_soup 200 120 = Returns Scenario.home_page)
    as Hpage by (vm_compute; reflexivity).
  split; [reflexivity |]. split; [exact Hpage |].
  destruct (page_links_partition Scenario.small_site "https://example.com/"
              "https://example.com" Scenario.home_html 200 120 Scenario.home_soup
              Scenario.home_page eq_refl Hpage) as (_ & -> & _).
  reflexivity.
Defined.

(** C4 (counterexample): an anchor whose [href] is only a fragment is not
    left out, it is listed as a link to the page itself; and an anchor
    below a header, footer or nav element is left out, because
    [_extract_content] has removed those elements from the shared tree
    before [_extract_links] runs. *)
Lemma fragment_link_kept_and_nav_link_lost :
  (let soup := [Scenario.link "#top" "Back to top"] in
   exists page,
     build_page_data Scenario.small_site "https://example.com/page"
       "https://example.com" "<a href=#top>Back to top</a>" soup 200 120 = Returns page
     /\ keeps_all_anchors soup
     /\ anchor_hrefs soup = ["#top"]
     /\ internal_links page = ["https://example.com/page"]
     /\ external_links page = [])
  /\ (let soup := [Element "nav" [] [Scenario.link "/about" "About"]] in
      exists page,
        build_page_data Scenario.small_site "https://example.com/"
          "https://example.com" "<nav><a href=/about>About</a></nav>" soup 200 120
        = Returns page
        /\ anchor_hrefs soup = ["/about"]
        /\ resolved_links (urljoin Scenario.small_site) "https://example.com/"
             (anchor_hrefs soup) = ["https://example.com/about"]
        /\ internal_links page = []
        /\ external_links page = []).
Proof. split; eexists; split_and!; vm_compute; reflexivity. Qed.

(** A reference that [urljoin] refuses ends the extraction with the
    message of its exception. *)
Lemma unresolvable_link_fails_the_page :
  let soup := [Scenario.link "//[" "Broken"] in
  build_page_data Scenario.small_site "https://example.com/" "https://example.com"
    "<a href=//[>Broken</a>" soup 200 120 = Raises "Invalid IPv6 URL".
Proof. vm_compute. reflexivity. Qed.

(** ** The events of a run *)

Section Events.

Lemma elem_of_dispatched_urls (u : string) (evs : list Event) :
  u ∈ dispatched_urls evs <-> exists d, Dispatched u d ∈ evs.
Proof.
  unfold dispatched_urls. rewrite list_elem_of_In, in_flat_map. split.
  - intros ([v d | v d] & He & Hu); simpl in Hu; [| done].
    destruct Hu as [-> | []]. exists d. by apply list_elem_of_In.
  - intros [d Hd]. exists (Dispatched u d). split; [by apply list_elem_of_In | by left].
Qed.

Lemma events_ok_never_again (evs : list Event) : events_ok evs -> never_again evs.
Proof.
  induction evs as [|e evs IH]; intros Hok later earlier u d Heq x Hx.
  - by destruct later.
  - destruct Hok as [He Hok]. destruct later as [|e' later]; [by apply elem_of_nil in Hx |].
    injection Heq as -> Heq. apply elem_of_cons in Hx as [-> | Hx].
    + intros Hu. apply He. apply elem_of_dispatched_urls. exists d.
      rewrite Heq, <- Hu. apply elem_of_app. right. by left.
    + by apply (IH Hok later earlier u d).
Qed.

Lemma events_ok_NoDup (evs : list Event) : events_ok evs -> NoDup (dispatched_urls evs).
Proof.
  induction evs as [|e evs IH]; simpl; [constructor |].
  intros [He Hok]. destruct e as [u d | u d]; simpl; [| by apply IH].
  constructor; [done | by apply IH].
Qed.

End Events.

(** ** The loop invariant *)

Section Invariant.

Variable w : World.
Variable cfg : Config.
Variable seed : string.
Variable base : string.

Lemma inv_initial : Inv cfg seed (initial_state seed) [].
Proof.
  split; simpl.
  - intros u [? H]. by rewrite lookup_empty in H.
  - intros u [? H]. by rewrite lookup_empty in H.
  - intros u _. apply lookup_empty.
  - constructor.
  - intros u d H. by apply elem_of_nil in H.
  - apply NoDup_singleton.
  - intros u _. apply not_elem_of_empty.
  - intros u d H. apply list_elem_of_singleton in H. injection H as -> ->. by left.
  - intros u. split; intros H; [by apply not_elem_of_empty in H | by apply elem_of_nil in H].
  - split; [apply not_elem_of_nil | done].
  - intros u d H. apply list_elem_of_singleton in H. discriminate.
  - intros v d H. apply list_elem_of_singleton in H. injection H as -> ->. by left.
Qed.

(** A task leaves [pending] without a trace when its result changes
    nothing. *)
Lemma inv_drop_pending (st : CrawlState) (task : string * Z) (pending : list (string * Z)) :
  Inv cfg seed st (task :: pending) -> Inv cfg seed st pending.
Proof.
  intros [H1 H2 H3 H4 H5 H6 H7 H8 H9 H10 H11 H12]. split; try done.
  - rewrite fmap_cons in H4. by apply NoDup_cons in H4 as [_ ?].
  - intros u d H. apply H5. by right.
Qed.

Lemma inv_dispatch_step (vis : gset string) (pg : gmap string PageData)
    (er : gmap string string) (ss : gmap string (list string))
    (u : string) (d : Z) (fr pending : list (string * Z)) (evs : list Event) :
  Inv cfg seed
    {| visited_urls := vis; pages_data := pg; error_urls := er;
       urls_to_visit := (u, d) :: fr; site_structure := ss; events := evs |} pending ->
  Inv cfg seed
    {| visited_urls := (dispatch_step base (vis, pending, evs) (u, d)).1.1;
       pages_data := pg; error_urls := er;
       urls_to_visit := fr; site_structure := ss;
       events := (dispatch_step base (vis, pending, evs) (u, d)).2 |}
    (dispatch_step base (vis, pending, evs) (u, d)).1.2.
Proof.
  intros [H1 H2 H3 H4 H5 H6 H7 H8 H9 H10 H11 H12]. simpl in *.
  apply NoDup_cons in H6 as [Hu H6].
  unfold dispatch_step.
  destruct (bool_decide (u ∉ vis) && should_visit_url u base)%bool eqn:Hc; simpl.
  - apply andb_true_iff in Hc as [Hc _]. apply bool_decide_eq_true in Hc.
    assert (pg !! u = None) as Hpg.
    { destruct (pg !! u) eqn:E; [| done]. destruct Hc. apply H1. by rewrite E. }
    assert (er !! u = None) as Her.
    { destruct (er !! u) eqn:E; [| done]. destruct Hc. apply H2. by rewrite E. }
    split; simpl.
    + intros v Hv. apply elem_of_union. right. by apply H1.
    + intros v Hv. apply elem_of_union. right. by apply H2.
    + done.
    + rewrite fmap_app. apply NoDup_app. split_and!; [done | | apply NoDup_singleton].
      intros v Hv Hv'. apply list_elem_of_singleton in Hv'. simpl in Hv'. subst v.
      apply list_elem_of_fmap in Hv as ([v dv] & -> & Hv). simpl in Hc.
      apply H5 in Hv as (_ & _ & Hv). apply Hc, H9, elem_of_dispatched_urls. by exists dv.
    + intros v dv Hv. apply elem_of_app in Hv as [Hv | Hv].
      * apply H5 in Hv as (? & ? & ?). split_and!; [done | done | by right].
      * apply list_elem_of_singleton in Hv. injection Hv as -> ->.
        split_and!; [done | done | by left].
    + done.
    + intros v Hv. rewrite elem_of_union, elem_of_singleton.
      intros [-> | Hv']; [done | by apply (H7 v); [right |]].
    + intros v dv Hv. right. apply H8. by right.
    + intros v. by rewrite elem_of_union, elem_of_singleton, H9, elem_of_cons.
    + split; [| done]. simpl. by rewrite <- H9.
    + intros v dv Hv. right. apply elem_of_cons in Hv as [Hv | Hv].
      * injection Hv as -> ->. apply H8. by left.
      * by apply H11.
    + intros v dv Hv. apply elem_of_cons in Hv as [Hv | Hv]; [discriminate |].
      destruct (H12 _ _ Hv) as [? | (? & p & Hp & Hf)]; [by left | right].
      split; [done |]. exists p. split; [by right | done].
  - split; simpl; try done.
    + intros v Hv. apply H7. by right.
    + intros v dv Hv. apply H8. by right.
Qed.

Lemma inv_dispatch (vis : gset string) (pg : gmap string PageData)
    (er : gmap string string) (ss : gmap string (list string))
    (batch rest pending : list (string * Z)) (evs : list Event) :
  Inv cfg seed
    {| visited_urls := vis; pages_data := pg; error_urls := er;
       urls_to_visit := batch ++ rest; site_structure := ss; events := evs |} pending ->
  Inv cfg seed
    {| visited_urls := (fold_left (dispatch_step base) batch (vis, pending, evs)).1.1;
       pages_data := pg; error_urls := er;
       urls_to_visit := rest; site_structure := ss;
       events := (fold_left (dispatch_step base) batch (vis, pending, evs)).2 |}
    (fold_left (dispatch_step base) batch (vis, pending, evs)).1.2
  /\ (forall t, t ∈ (fold_left (dispatch_step base) batch (vis, pending, evs)).1.2 ->
             t ∈ pending \/ t ∈ batch).
Proof.
  revert vis pending evs.
  induction batch as [|[u d] batch IH]; intros vis pending evs Hinv; cbn [fold_left].
  { split; [done | by left]. }
  cbn [app] in Hinv. apply inv_dispatch_step in Hinv.
  pose proof (eq_refl (dispatch_step base (vis, pending, evs) (u, d))) as E.
  unfold dispatch_step at 2 in E.
  destruct (dispatch_step base (vis, pending, evs) (u, d)) as [[vis' pending'] evs'].
  cbn [fst snd] in Hinv. destruct (IH _ _ _ Hinv) as [Hinv' Hsub]. split; [done |].
  intros t Ht. apply Hsub in Ht as [Ht | Ht]; [| right; by right].
  destruct (bool_decide (u ∉ vis) && should_visit_url u base)%bool;
    injection E as -> -> ->; [| by left].
  apply elem_of_app in Ht as [Ht | Ht]; [by left |].
  apply list_elem_of_singleton in Ht as ->. right. by left.
Qed.

Lemma found_on_insert (pg : gmap string PageData) (u p v : string) (pd : PageData) :
  pg !! u = None -> found_on pg p v -> found_on (<[u := pd]> pg) p v.
Proof.
  intros Hu (page & Hp & Hv). exists page. split; [| done].
  rewrite lookup_insert_ne; [done |]. intros <-. by rewrite Hu in Hp.
Qed.

Lemma inv_insert_page (st : CrawlState) (u : string) (d : Z)
    (pending : list (string * Z)) (pd : PageData) (ss : gmap string (list string)) :
  Inv cfg seed st ((u, d) :: pending) ->
  Inv cfg seed
    {| visited_urls := visited_urls st; pages_data := <[u := pd]> (pages_data st);
       error_urls := error_urls st; urls_to_visit := urls_to_visit st;
       site_structure := ss; events := events st |} pending.
Proof.
  intros [H1 H2 H3 H4 H5 H6 H7 H8 H9 H10 H11 H12].
  destruct (H5 u d) as (Hpg & Her & Hev); [by left |].
  rewrite fmap_cons in H4. apply NoDup_cons in H4 as [Hu H4]. simpl in Hu.
  split; simpl; try done.
  - intros v Hv. destruct (decide (u = v)) as [<- | Hne].
    + apply H9, elem_of_dispatched_urls. by exists d.
    + rewrite lookup_insert_ne in Hv by done. by apply H1.
  - intros v Hv. destruct (decide (u = v)) as [<- | Hne]; [done |].
    rewrite lookup_insert_ne in Hv by done. by apply H3.
  - intros v dv Hv. destruct (H5 v dv) as (? & ? & ?); [by right |].
    split_and!; [| done | done]. rewrite lookup_insert_ne; [done |].
    intros <-. apply Hu. apply list_elem_of_fmap. by exists (u, dv).
  - intros v dv Hv. destruct (H12 _ _ Hv) as [? | (? & p & Hp & Hf)]; [by left | right].
    split; [done |]. exists p. split; [done | by apply found_on_insert].
Qed.

Lemma inv_insert_error (st : CrawlState) (u : string) (d : Z)
    (pending : list (string * Z)) (message : string) :
  Inv cfg seed st ((u, d) :: pending) ->
  Inv cfg seed
    {| visited_urls := visited_urls st; pages_data := pages_data st;
       error_urls := <[u := message]> (error_urls st);
       urls_to_visit := urls_to_visit st;
       site_structure := site_structure st; events := events st |} pending.
Proof.
  intros [H1 H2 H3 H4 H5 H6 H7 H8 H9 H10 H11 H12].
  destruct (H5 u d) as (Hpg & Her & Hev); [by left |].
  rewrite fmap_cons in H4. apply NoDup_cons in H4 as [Hu H4]. simpl in Hu.
  split; simpl; try done.
  - intros v Hv. destruct (decide (u = v)) as [<- | Hne].
    + apply H9, elem_of_dispatched_urls. by exists d.
    + rewrite lookup_insert_ne in Hv by done. by apply H2.
  - intros v Hv. destruct (decide (u = v)) as [<- | Hne].
    + rewrite Hpg in Hv. by destruct Hv.
    + rewrite lookup_insert_ne by done. by apply H3.
  - intros v dv Hv. destruct (H5 v dv) as (? & ? & ?); [by right |].
    split_and!; [done | | done]. rewrite lookup_insert_ne; [done |].
    intros <-. apply Hu. apply list_elem_of_fmap. by exists (u, dv).
Qed.

Lemma inv_enqueue_step (vis : gset string) (pg : gmap string PageData)
    (er : gmap string string) (ss : gmap string (list string))
    (fr pending : list (string * Z)) (evs : list Event) (p v : string) (dp : Z) :
  Inv cfg seed
    {| visited_urls := vis; pages_data := pg; error_urls := er;
       urls_to_visit := fr; site_structure := ss; events := evs |} pending ->
  Dispatched p dp ∈ evs -> found_on pg p v -> 0 <= dp < max_depth cfg ->
  Inv cfg seed
    {| visited_urls := vis; pages_data := pg; error_urls := er;
       urls_to_visit := (enqueue_step base vis dp (fr, evs) v).1;
       site_structure := ss;
       events := (enqueue_step base vis dp (fr, evs) v).2 |} pending
  /\ Dispatched p dp ∈ (enqueue_step base vis dp (fr, evs) v).2.
Proof.
  intros Hinv Hp Hf Hd. unfold enqueue_step.
  destruct (bool_decide (v ∉ vis) && bool_decide (v ∉ fr.*1)
            && should_visit_url v base)%bool eqn:Hc; [| done].
  apply andb_true_iff in Hc as [Hc _]. apply andb_true_iff in Hc as [Hc1 Hc2].
  apply bool_decide_eq_true in Hc1, Hc2.
  destruct Hinv as [H1 H2 H3 H4 H5 H6 H7 H8 H9 H10 H11 H12]. simpl in *.
  split; [| by right]. split; simpl; try done.
  - intros u d Hu. destruct (H5 u d Hu) as (? & ? & ?). split_and!; [done | done | by right].
  - rewrite fmap_app. apply NoDup_app. split_and!; [done | | apply NoDup_singleton].
    intros u Hu Hu'. apply list_elem_of_singleton in Hu'. simpl in Hu'. by subst u.
  - intros u. rewrite fmap_app, elem_of_app. intros [Hu | Hu]; [by apply H7 |].
    apply list_elem_of_singleton in Hu. simpl in Hu. by subst u.
  - intros u d Hu. apply elem_of_app in Hu as [Hu | Hu]; [right; by apply H8 |].
    apply list_elem_of_singleton in Hu. injection Hu as -> ->. by left.
  - split; [| done]. by rewrite <- H9.
  - intros u d Hu. apply elem_of_cons in Hu as [Hu | Hu]; [discriminate |].
    right. by apply H11.
  - intros u d Hu. apply elem_of_cons in Hu as [Hu | Hu].
    + injection Hu as -> ->. right. split; [lia |]. exists p.
      replace (dp + 1 - 1) with dp by lia. split; [by right | done].
    + destruct (H12 _ _ Hu) as [? | (? & q & Hq & Hfq)]; [by left | right].
      split; [done |]. exists q. split; [by right | done].
Qed.

Lemma inv_enqueue (vis : gset string) (pg : gmap string PageData)
    (er : gmap string string) (ss : gmap string (list string))
    (links : list string) (fr pending : list (string * Z)) (evs : list Event)
    (p : string) (dp : Z) :
  Inv cfg seed
    {| visited_urls := vis; pages_data := pg; error_urls := er;
       urls_to_visit := fr; site_structure := ss; events := evs |} pending ->
  Dispatched p dp ∈ evs -> (forall v, v ∈ links -> found_on pg p v) ->
  0 <= dp < max_depth cfg ->
  Inv cfg seed
    {| visited_urls := vis; pages_data := pg; error_urls := er;
       urls_to_visit := (fold_left (enqueue_step base vis dp) links (fr, evs)).1;
       site_structure := ss;
       events := (fold_left (enqueue_step base vis dp) links (fr, evs)).2 |} pending.
Proof.
  revert fr evs. induction links as [|v links IH]; intros fr evs Hinv Hp Hf Hd;
    cbn [fold_left]; [done |].
  destruct (inv_enqueue_step _ _ _ _ _ _ _ p v dp Hinv Hp) as [Hinv' Hp'];
    [apply Hf; by left | done |].
  destruct (enqueue_step base vis dp (fr, evs) v) as [fr' evs'].
  apply IH; [done | done | | done]. intros u Hu. apply Hf. by right.
Qed.

(** What a worker returns: a failure, or a page record together with
    its internal links and no error; in both cases the URL it was given. *)
Lemma process_url_cases (u : string) (d : Z) :
  (exists e, process_url w u d base = failed u e)
  \/ (exists pd, process_url w u d base
                 = {| r_url := u; r_page_data := Some pd;
                      r_new_urls := internal_links pd; r_error := None |}).
Proof.
  unfold process_url. destruct (http_get w u) as [e | response]; [left; by exists e |].
  destruct (has_substring _ _); cbn [negb]; [| left; by eexists].
  destruct (text response) as [e | body]; [left; by exists e |].
  destruct (400 <=? status response)%Z; [left; by eexists |].
  destruct (html_parser w body) as [e | soup]; [left; by exists e |].
  destruct (build_page_data _ _ _ _ _ _ _) as [e | pd]; [left; by exists e |].
  right. by exists pd.
Qed.

Lemma process_url_url (u : string) (d : Z) : r_url (process_url w u d base) = u.
Proof. by destruct (process_url_cases u d) as [[e ->] | [pd ->]]. Qed.

Lemma process_url_page (u : string) (d : Z) (pd : PageData) :
  r_page_data (process_url w u d base) = Some pd ->
  r_error (process_url w u d base) = None
  /\ r_new_urls (process_url w u d base) = internal_links pd.
Proof.
  destruct (process_url_cases u d) as [[e ->] | [pd' ->]]; [done |].
  simpl. by intros [= <-].
Qed.

Lemma slice_split {A} (n : Z) (l : list A) : slice_to n l ++ slice_from n l = l.
Proof. unfold slice_to, slice_from. destruct (0 <=? n)%Z; apply take_drop. Qed.

Lemma depth_in_batch_lookup (batch : list (string * Z)) (u : string) (d : Z) :
  NoDup batch.*1 -> (u, d) ∈ batch -> depth_in_batch batch u = d.
Proof.
  induction batch as [|[v dv] batch IH]; intros Hnd Hin; [by apply elem_of_nil in Hin |].
  rewrite fmap_cons in Hnd. apply NoDup_cons in Hnd as [Hv Hnd]. simpl in *.
  apply elem_of_cons in Hin as [Hin | Hin].
  - injection Hin as -> ->. by rewrite String.eqb_refl.
  - destruct (String.eqb_spec v u) as [-> | _]; [| by apply IH].
    destruct Hv. apply list_elem_of_fmap. by exists (u, d).
Qed.

Lemma inv_dispatched_depth (st : CrawlState) (pending : list (string * Z))
    (u : string) (d : Z) :
  Inv cfg seed st pending -> Dispatched u d ∈ events st ->
  (u = seed /\ d = 0) \/ 1 <= d <= max_depth cfg.
Proof.
  intros Hinv Hu. apply (inv_dispatched_enqueued _ _ _ _ Hinv) in Hu.
  destruct (inv_enqueued_origin _ _ _ _ Hinv _ _ Hu) as [? | [? _]]; [by left | by right].
Qed.

(** Handling one result keeps the invariant; unless a page is added, the
    pages and the frontier stay as they are. *)
Lemma inv_handle_result (batch : list (string * Z)) (st : CrawlState)
    (u : string) (d : Z) (pending : list (string * Z)) :
  Inv cfg seed st ((u, d) :: pending) ->
  depth_in_batch batch u = d ->
  let st' := handle_result cfg base batch st (process_url w u d base) in
  Inv cfg seed st' pending
  /\ ((pages_data st' = pages_data st /\ urls_to_visit st' = urls_to_visit st)
      \/ size (pages_data st') = S (size (pages_data st))).
Proof.
  intros Hinv Hd st'. subst st'. unfold handle_result.
  rewrite process_url_url, Hd.
  destruct (match r_error (process_url w u d base) with
            | Some e => PyStr.truthy e
            | None => false
            end).
  { split; [by apply (inv_insert_error st u d) | by left]. }
  destruct (r_page_data (process_url w u d base)) as [pd |] eqn:Hpd.
  2:{ split; [by eapply inv_drop_pending | by left]. }
  apply process_url_page in Hpd as [_ ->].
  destruct (inv_pending_fresh _ _ _ _ Hinv u d) as (Hpg & _ & Hev); [by left |].
  assert (forall ss fr evs,
    size (pages_data
      {| visited_urls := visited_urls st; pages_data := <[u := pd]> (pages_data st);
         error_urls := error_urls st; urls_to_visit := fr;
         site_structure := ss; events := evs |}) = S (size (pages_data st))) as Hsize.
  { intros. simpl. by apply map_size_insert_None. }
  pose proof (inv_insert_page st u d pending pd
    (<[u := List.filter (fun link => PyStr.startswith link base) (internal_links pd)]>
       (site_structure st)) Hinv) as Hinv'.
  destruct (d <? max_depth cfg)%Z eqn:Hlt.
  - apply Z.ltb_lt in Hlt.
    assert (0 <= d) as Hd0.
    { destruct (inv_dispatched_depth _ _ _ _ Hinv Hev) as [[_ ->] | ?]; lia. }
    eapply (inv_enqueue _ _ _ _ (internal_links pd) _ _ _ u d) in Hinv';
      [| done | | done].
    2:{ intros v Hv. exists pd. split; [apply lookup_insert_eq | done]. }
    simpl in Hinv'.
    destruct (fold_left (enqueue_step base (visited_urls st) d) (internal_links pd)
                (urls_to_visit st, events st)) as [fr' evs'].
    split; [done | right; apply Hsize].
  - split; [by destruct st | right; apply Hsize].
Qed.

Lemma inv_handle_results (batch tasks : list (string * Z)) (st : CrawlState) :
  Inv cfg seed st tasks ->
  (forall u d, (u, d) ∈ tasks -> depth_in_batch batch u = d) ->
  let st' := fold_left (handle_result cfg base batch)
               (map (fun task => process_url w task.1 task.2 base) tasks) st in
  Inv cfg seed st' []
  /\ ((pages_data st' = pages_data st /\ urls_to_visit st' = urls_to_visit st)
      \/ (size (pages_data st) < size (pages_data st'))%nat).
Proof.
  revert st. induction tasks as [|[u d] tasks IH]; intros st Hinv Hd; cbn [map fold_left].
  { split; [done | by left]. }
  destruct (inv_handle_result batch st u d tasks Hinv) as [Hinv' Hstep];
    [apply Hd; by left |].
  cbn [fst snd].
  destruct (IH _ Hinv') as [Hfinal Hrest]; [intros; apply Hd; by right |].
  split; [done |].
  destruct Hstep as [[Hp Hf] | Hs], Hrest as [[Hp' Hf'] | Hs'].
  - left. split; congruence.
  - right. by rewrite <- Hp.
  - right. rewrite Hp'. lia.
  - right. lia.
Qed.

(** A round keeps the invariant; unless it adds a page, it leaves the
    pages as they are and only cuts the batch off the frontier. *)
Lemma inv_crawl_round (st : CrawlState) :
  Inv cfg seed st [] ->
  let st' := crawl_round w cfg base st in
  Inv cfg seed st' []
  /\ ((pages_data st' = pages_data st
       /\ urls_to_visit st' = slice_from (max_concurrent_requests cfg) (urls_to_visit st))
      \/ (size (pages_data st) < size (pages_data st'))%nat).
Proof.
  intros Hinv st'. subst st'. unfold crawl_round.
  set (n := max_concurrent_requests cfg).
  assert (Inv cfg seed
    {| visited_urls := visited_urls st; pages_data := pages_data st;
       error_urls := error_urls st;
       urls_to_visit := slice_to n (urls_to_visit st) ++ slice_from n (urls_to_visit st);
       site_structure := site_structure st; events := events st |} []) as Hinv0.
  { rewrite slice_split. by destruct st. }
  assert (NoDup (slice_to n (urls_to_visit st)).*1) as Hnd.
  { pose proof (inv_frontier_nodup _ _ _ _ Hinv) as H.
    rewrite <- (slice_split n (urls_to_visit st)), fmap_app in H.
    by apply NoDup_app in H as [? _]. }
  apply inv_dispatch in Hinv0 as [Hinv1 Hsub].
  destruct (fold_left (dispatch_step base) (slice_to n (urls_to_visit st))
              (visited_urls st, [], events st)) as [[vis tasks] evs].
  cbn [fst snd] in Hinv1, Hsub.
  apply (inv_handle_results (slice_to n (urls_to_visit st))) in Hinv1; [done |].
  intros u d Hu. apply depth_in_batch_lookup; [done |].
  destruct (Hsub _ Hu) as [H | H]; [by apply elem_of_nil in H | done].
Qed.

Lemma inv_crawl_loop (fuel : nat) (st st' : CrawlState) :
  Inv cfg seed st [] -> crawl_loop w cfg base fuel st = Some st' -> Inv cfg seed st' [].
Proof.
  revert st. induction fuel as [|fuel IH]; intros st Hinv; simpl;
    destruct (loop_condition cfg st); try done; try by intros [= <-].
  apply IH. by apply inv_crawl_round.
Qed.

(** The loop has ended in the state it returns. *)
Lemma crawl_loop_done (fuel : nat) (st st' : CrawlState) :
  crawl_loop w cfg base fuel st = Some st' -> loop_condition cfg st' = false.
Proof.
  revert st. induction fuel as [|fuel IH]; intros st; simpl;
    destruct (loop_condition cfg st) eqn:E; try done; try by intros [= <-].
  apply IH.
Qed.

(** More fuel does not change the outcome. *)
Lemma crawl_loop_more_fuel (fuel extra : nat) (st st' : CrawlState) :
  crawl_loop w cfg base fuel st = Some st' ->
  crawl_loop w cfg base (fuel + extra) st = Some st'.
Proof.
  revert st. induction fuel as [|fuel IH]; intros st; simpl.
  - destruct (loop_condition cfg st) eqn:E; [done |]. intros [= <-].
    destruct extra; simpl; by rewrite E.
  - destruct (loop_condition cfg st); [apply IH | done].
Qed.

Lemma slice_from_shorter {A} (n : Z) (l : list A) :
  1 <= n -> l <> [] -> (length (slice_from n l) < length l)%nat.
Proof.
  intros Hn Hl. unfold slice_from. destruct (0 <=? n)%Z eqn:E; [| lia].
  rewrite length_drop. destruct l; [done |]. simpl. lia.
Qed.

(** With at least one request per round the loop ends: a round either
    adds a page, of which at most [max_pages] can be missing, or shortens
    the frontier. *)
Lemma crawl_loop_terminates :
  1 <= max_concurrent_requests cfg ->
  forall (budget len : nat) (st : CrawlState),
    Inv cfg seed st [] ->
    (Z.to_nat (max_pages cfg - Z.of_nat (size (pages_data st))) <= budget)%nat ->
    (length (urls_to_visit st) <= len)%nat ->
    exists fuel st', crawl_loop w cfg base fuel st = Some st'.
Proof.
  intros Hn. induction budget as [|budget IHbudget].
  { intros len st _ Hb _. exists O, st. simpl. unfold loop_condition.
    destruct (Z.ltb_spec (Z.of_nat (size (pages_data st))) (max_pages cfg)); [lia |].
    by rewrite andb_false_r. }
  induction len as [|len IHlen]; intros st Hinv Hb Hl.
  { exists O, st. simpl. unfold loop_condition.
    by destruct (urls_to_visit st); [| simpl in Hl; lia]. }
  destruct (loop_condition cfg st) eqn:Hc.
  2:{ exists O, st. simpl. by rewrite Hc. }
  unfold loop_condition in Hc. apply andb_true_iff in Hc as [Hne Hlt].
  apply Z.ltb_lt in Hlt.
  destruct (inv_crawl_round st Hinv) as [Hinv' Hstep].
  assert (exists fuel st', crawl_loop w cfg base fuel (crawl_round w cfg base st) = Some st')
    as (fuel & st' & Hrun).
  { destruct Hstep as [[Hp Hf] | Hs].
    - apply IHlen; [done | by rewrite Hp |]. rewrite Hf.
      assert (urls_to_visit st <> []) as Hne' by (by destruct (urls_to_visit st)).
      pose proof (slice_from_shorter _ _ Hn Hne'). lia.
    - apply (IHbudget (length (urls_to_visit (crawl_round w cfg base st))));
        [done | lia | done]. }
  exists (S fuel), st'. simpl. unfold loop_condition. rewrite Hne.
  by destruct (Z.ltb_spec (Z.of_nat (size (pages_data st))) (max_pages cfg)); [| lia].
Qed.

End Invariant.

(** ** Runs of [crawl] *)

Section Runs.

Variable w : World.
Variable cfg : Config.
Variable seed : string.

(** A run that returns has parsed the seed, created the semaphore and
    left the loop. *)
Lemma crawl_run_loop (fuel : nat) (st : CrawlState) :
  crawl_run w cfg seed fuel = Some (Returns st) ->
  exists origin,
    parse_base_url w seed = Returns origin
    /\ 0 <= max_concurrent_requests cfg
    /\ crawl_loop w cfg origin fuel (initial_state seed) = Some st.
Proof.
  unfold crawl_run. destruct (parse_base_url w seed) as [e | origin]; [done |].
  destruct (Z.ltb_spec (max_concurrent_requests cfg) 0); [done |].
  destruct (crawl_loop _ _ _ _ _) as [st' |] eqn:E; [| done]. intros [= <-].
  by exists origin.
Qed.

Lemma crawl_run_of_loop (origin : string) (fuel : nat) (st : CrawlState) :
  parse_base_url w seed = Returns origin ->
  0 <= max_concurrent_requests cfg ->
  crawl_loop w cfg origin fuel (initial_state seed) = Some st ->
  crawl_run w cfg seed fuel = Some (Returns st).
Proof.
  intros Hparse Hn Hloop. unfold crawl_run. rewrite Hparse.
  destruct (Z.ltb_spec (max_concurrent_requests cfg) 0); [lia |]. by rewrite Hloop.
Qed.

Lemma crawl_of_run (origin : string) (fuel : nat) (st : CrawlState) :
  parse_base_url w seed = Returns origin ->
  crawl_run w cfg seed fuel = Some (Returns st) ->
  crawl w cfg seed fuel = Some (Returns (make_result w origin st)).
Proof. intros Hparse Hrun. unfold crawl. by rewrite Hparse, Hrun. Qed.

Lemma crawl_run_inv (fuel : nat) (st : CrawlState) :
  crawl_run w cfg seed fuel = Some (Returns st) ->
  Inv cfg seed st [] /\ loop_condition cfg st = false.
Proof.
  intros Hrun. apply crawl_run_loop in Hrun as (origin & _ & _ & Hloop). split.
  - eapply inv_crawl_loop; [apply inv_initial | done].
  - by eapply crawl_loop_done.
Qed.

Lemma crawl_result (fuel : nat) (r : CrawlResult) :
  crawl w cfg seed fuel = Some (Returns r) ->
  exists st origin,
    parse_base_url w seed = Returns origin
    /\ crawl_run w cfg seed fuel = Some (Returns st)
    /\ r = make_result w origin st.
Proof.
  unfold crawl. destruct (parse_base_url w seed) as [e | origin]; [done |].
  destruct (crawl_run w cfg seed fuel) as [[e | st] |]; try done.
  intros [= <-]. by exists st, origin.
Qed.

Lemma crawl_run_terminates (origin : string) :
  parse_base_url w seed = Returns origin ->
  1 <= max_concurrent_requests cfg ->
  exists fuel st, crawl_run w cfg seed fuel = Some (Returns st).
Proof.
  intros Hparse Hn.
  destruct (crawl_loop_terminates w cfg seed origin Hn _ _
              (initial_state seed) (inv_initial cfg seed) (le_n _) (le_n _))
    as (fuel & st & Hrun).
  exists fuel, st. apply (crawl_run_of_loop origin); [done | lia | done].
Qed.

(** The outcome of a run does not depend on the fuel that was enough. *)
Lemma crawl_run_deterministic (fuel1 fuel2 : nat) (o1 o2 : Try CrawlState) :
  crawl_run w cfg seed fuel1 = Some o1 -> crawl_run w cfg seed fuel2 = Some o2 -> o1 = o2.
Proof.
  unfold crawl_run. destruct (parse_base_url w seed) as [e | origin]; [congruence |].
  destruct (max_concurrent_requests cfg <? 0)%Z; [congruence |].
  destruct (crawl_loop _ _ _ fuel1 _) as [st1 |] eqn:E1; [| done].
  destruct (crawl_loop _ _ _ fuel2 _) as [st2 |] eqn:E2; [| done].
  apply (crawl_loop_more_fuel _ _ _ _ fuel2) in E1.
  apply (crawl_loop_more_fuel _ _ _ _ fuel1) in E2.
  rewrite Nat.add_comm in E2. congruence.
Qed.

Lemma crawl_deterministic (fuel1 fuel2 : nat) (o1 o2 : Try CrawlResult) :
  crawl w cfg seed fuel1 = Some o1 -> crawl w cfg seed fuel2 = Some o2 -> o1 = o2.
Proof.
  unfold crawl. destruct (parse_base_url w seed) as [e | origin]; [congruence |].
  destruct (crawl_run w cfg seed fuel1) as [t1 |] eqn:E1; [| done].
  destruct (crawl_run w cfg seed fuel2) as [t2 |] eqn:E2; [| done].
  rewrite (crawl_run_deterministic _ _ _ _ E1 E2).
  destruct t2; congruence.
Qed.

(** The collected pages are linked to the seed by as many hops as the
    depth they were enqueued with. *)
Lemma inv_hops (st : CrawlState) :
  Inv cfg seed st [] ->
  forall (n : nat) (v : string) (d : Z),
    Z.to_nat d = n -> 0 <= d -> Enqueued v d ∈ events st ->
    hops (pages_data st) seed d v.
Proof.
  intros Hinv. induction n as [|n IH]; intros v d Hn Hd Hv;
    destruct (inv_enqueued_origin _ _ _ _ Hinv _ _ Hv) as [[-> ->] | (Hr & p & Hp & Hf)];
    try constructor; try lia.
  replace d with (d - 1 + 1) by lia. apply hops_link with p; [| done].
  apply IH; [lia | lia |]. by apply (inv_dispatched_enqueued _ _ _ _ Hinv).
Qed.

(** C2: the key sets of [pages] and [errors] of a result are disjoint
    and hold only URLs a worker was created for; no URL has two workers;
    and after the worker of a URL has been created (the URL is marked
    visited at that moment) the URL is neither enqueued nor dispatched
    again. *)
Theorem no_duplicate_fetches (fuel : nat) (r : CrawlResult) :
  crawl w cfg seed fuel = Some (Returns r) ->
  exists st,
    crawl_run w cfg seed fuel = Some (Returns st)
    /\ pages r = pages_data st /\ errors r = error_urls st
    /\ dom (pages r) ## dom (errors r)
    /\ (forall u, u ∈ dom (pages r) ∪ dom (errors r) -> u ∈ dispatched_urls (events st))
    /\ NoDup (dispatched_urls (events st))
    /\ never_again (events st).
Proof.
  intros Hr. apply crawl_result in Hr as (st & origin & Horigin & Hrun & ->). exists st.
  destruct (crawl_run_inv _ _ Hrun) as [Hinv _]. simpl.
  split_and!; try done.
  - intros u Hp He. apply elem_of_dom in Hp, He.
    rewrite (inv_disjoint _ _ _ _ Hinv u Hp) in He. by destruct He.
  - intros u Hu. apply (inv_visited_dispatched _ _ _ _ Hinv).
    apply elem_of_union in Hu as [Hu | Hu]; apply elem_of_dom in Hu.
    + by apply (inv_pages_visited _ _ _ _ Hinv).
    + by apply (inv_errors_visited _ _ _ _ Hinv).
  - apply events_ok_NoDup, (inv_events_ok _ _ _ _ Hinv).
  - apply events_ok_never_again, (inv_events_ok _ _ _ _ Hinv).
Qed.

(** C6: every collected page was dispatched at a depth [d] that is the
    length of a chain of internal links from the seed through collected
    pages; the seed has depth 0 and every other page a depth between 1 and
    [max_depth].  Nothing is enqueued from a page whose depth has reached
    [max_depth]: every enqueued link has a parent page dispatched below
    [max_depth]. *)
Theorem depth_bound (fuel : nat) (r : CrawlResult) :
  crawl w cfg seed fuel = Some (Returns r) ->
  exists st,
    crawl_run w cfg seed fuel = Some (Returns st)
    /\ pages r = pages_data st
    /\ (forall u, is_Some (pages r !! u) ->
          exists d, Dispatched u d ∈ events st
                    /\ hops (pages r) seed d u
                    /\ ((u = seed /\ d = 0) \/ 1 <= d <= max_depth cfg))
    /\ (forall v d, Enqueued v d ∈ events st ->
          (v = seed /\ d = 0)
          \/ exists p, Dispatched p (d - 1) ∈ events st
                       /\ d - 1 < max_depth cfg /\ found_on (pages r) p v)
    /\ (forall p dp v, Dispatched p dp ∈ events st -> max_depth cfg <= dp ->
          Enqueued v (dp + 1) ∉ events st).
Proof.
  intros Hr. apply crawl_result in Hr as (st & origin & Horigin & Hrun & ->). exists st.
  destruct (crawl_run_inv _ _ Hrun) as [Hinv _]. simpl.
  split_and!; try done.
  - intros u Hu. apply (inv_pages_visited _ _ _ _ Hinv) in Hu.
    apply (inv_visited_dispatched _ _ _ _ Hinv), elem_of_dispatched_urls in Hu as [d Hd].
    exists d. pose proof (inv_dispatched_depth _ _ _ _ _ _ Hinv Hd) as Hdepth.
    split_and!; [done | | done].
    apply (inv_hops st Hinv (Z.to_nat d)); [done | |].
    + destruct Hdepth as [[_ ->] | ?]; lia.
    + by apply (inv_dispatched_enqueued _ _ _ _ Hinv).
  - intros v d Hv.
    destruct (inv_enqueued_origin _ _ _ _ Hinv _ _ Hv) as [? | (Hd & p & Hp & Hf)];
      [by left | right].
    exists p. split_and!; [done | lia | done].
  - intros p dp v Hp Hdp Hv.
    pose proof (inv_dispatched_depth _ _ _ _ _ _ Hinv Hp) as Hdepth.
    destruct (inv_enqueued_origin _ _ _ _ Hinv _ _ Hv) as [[_ ?] | [? _]]; [| lia].
    destruct Hdepth as [[_ ->] | ?]; lia.
Qed.

End Runs.

(** C2 (witness): the end-to-end scenario. *)
Lemma no_duplicate_fetches_witness :
  crawl Scenario.small_site (Scenario.with_limits 10 1 10) Scenario.home 2
  = Some (Returns Scenario.small_result)
  /\ dom (pages Scenario.small_result) ## dom (errors Scenario.small_result).
Proof.
  assert (crawl Scenario.small_site (Scenario.with_limits 10 1 10) Scenario.home 2
          = Some (Returns Scenario.small_result)) as Hrun by (vm_compute; reflexivity).
  split; [exact Hrun |].
  destruct (no_duplicate_fetches _ _ _ _ _ Hrun) as (st & _ & _ & _ & Hdisjoint & _).
  exact Hdisjoint.
Defined.

(** C6 (witness): the end-to-end scenario. *)
Lemma depth_bound_witness :
  crawl Scenario.small_site (Scenario.with_limits 10 1 10) Scenario.home 2
  = Some (Returns Scenario.small_result)
  /\ forall u, is_Some (pages Scenario.small_result !! u) ->
       exists d, hops (pages Scenario.small_result) Scenario.home d u
                 /\ ((u = Scenario.home /\ d = 0) \/ 1 <= d <= 1).
Proof.
  assert (crawl Scenario.small_site (Scenario.with_limits 10 1 10) Scenario.home 2
          = Some (Returns Scenario.small_result)) as Hrun by (vm_compute; reflexivity).
  split; [exact Hrun |].
  destruct (depth_bound _ _ _ _ _ Hrun) as (st & _ & _ & Hpages & _).
  intros u Hu. destruct (Hpages u Hu) as (d & _ & Hhops & Hd).
  exists d. split; [exact Hhops | exact Hd].
Defined.

(** ** The page budget *)

(** C1 (the code at the failing input): with a budget of two pages and
    ten requests per round, the second round collects both pages the home
    page links to, and the result holds three pages. *)
Theorem page_budget_overshoot :
  exists r,
    crawl Scenario.small_site Scenario.tight_budget Scenario.home 2 = Some (Returns r)
    /\ max_pages Scenario.tight_budget = 2
    /\ Z.of_nat (size (pages r)) = 3.
Proof. eexists. split_and!; vm_compute; reflexivity. Qed.

Section Budget.

Variable w : World.
Variable cfg : Config.
Variable base : string.

Lemma handle_result_size (batch : list (string * Z)) (st : CrawlState)
    (result : WorkerResult) :
  (size (pages_data (handle_result cfg base batch st result))
   <= S (size (pages_data st)))%nat.
Proof.
  unfold handle_result.
  destruct (match r_error result with Some e => PyStr.truthy e | None => false end);
    [simpl; lia |].
  destruct (r_page_data result) as [pd |]; [| lia].
  destruct (if (depth_in_batch batch (r_url result) <? max_depth cfg)%Z
            then fold_left
                   (enqueue_step base (visited_urls st)
                      (depth_in_batch batch (r_url result)))
                   (r_new_urls result) (urls_to_visit st, events st)
            else (urls_to_visit st, events st)) as [fr evs].
  simpl. rewrite map_size_insert.
  destruct (pages_data st !! r_url result); unfold id; lia.
Qed.

Lemma handle_results_size (batch : list (string * Z)) (results : list WorkerResult)
    (st : CrawlState) :
  (size (pages_data (fold_left (handle_result cfg base batch) results st))
   <= size (pages_data st) + length results)%nat.
Proof.
  revert st. induction results as [|r results IH]; intros st; cbn [fold_left length];
    [lia |].
  etrans; [apply IH |]. pose proof (handle_result_size batch st r). lia.
Qed.

Lemma dispatch_tasks_length (batch tasks : list (string * Z)) (vis : gset string)
    (evs : list Event) :
  (length (fold_left (dispatch_step base) batch (vis, tasks, evs)).1.2
   <= length tasks + length batch)%nat.
Proof.
  revert vis tasks evs.
  induction batch as [|[u d] batch IH]; intros vis tasks evs; cbn [fold_left length];
    [simpl; lia |].
  unfold dispatch_step at 2.
  destruct (bool_decide (u ∉ vis) && should_visit_url u base)%bool.
  - etrans; [apply IH |]. rewrite length_app. simpl. lia.
  - etrans; [apply IH |]. lia.
Qed.

Lemma slice_to_length {A} (n : Z) (l : list A) :
  0 <= n -> (length (slice_to n l) <= Z.to_nat n)%nat.
Proof.
  intros Hn. unfold slice_to. destruct (Z.leb_spec 0 n); [| lia].
  rewrite length_take. lia.
Qed.

(** A round adds at most as many pages as it may send requests. *)
Lemma crawl_round_size (st : CrawlState) :
  0 <= max_concurrent_requests cfg ->
  (size (pages_data (crawl_round w cfg base st))
   <= size (pages_data st) + Z.to_nat (max_concurrent_requests cfg))%nat.
Proof.
  intros Hn. unfold crawl_round.
  pose proof (dispatch_tasks_length
                (slice_to (max_concurrent_requests cfg) (urls_to_visit st)) []
                (visited_urls st) (events st)) as Htasks.
  pose proof (slice_to_length _ (urls_to_visit st) Hn) as Hbatch.
  destruct (fold_left (dispatch_step base)
              (slice_to (max_concurrent_requests cfg) (urls_to_visit st))
              (visited_urls st, [], events st)) as [[vis tasks] evs].
  cbn [fst snd length] in Htasks.
  etrans; [apply handle_results_size |]. rewrite length_map. simpl. lia.
Qed.

Lemma crawl_loop_size (fuel : nat) (st st' : CrawlState) :
  0 <= max_concurrent_requests cfg ->
  crawl_loop w cfg base fuel st = Some st' ->
  Z.of_nat (size (pages_data st'))
  <= Z.max (Z.of_nat (size (pages_data st)))
           (max_pages cfg - 1 + max_concurrent_requests cfg).
Proof.
  intros Hn. revert st. induction fuel as [|fuel IH]; intros st; simpl;
    destruct (loop_condition cfg st) eqn:Hc; try done; try (intros [= <-]; lia).
  intros Hrun. apply IH in Hrun.
  unfold loop_condition in Hc. apply andb_true_iff in Hc as [_ Hc].
  apply Z.ltb_lt in Hc. pose proof (crawl_round_size st Hn). lia.
Qed.

End Budget.

(** X9: what the loop does guarantee in place of the page budget: the result
    holds fewer than [max_pages + max_concurrent_requests] pages, because
    the budget is only looked at between rounds. *)
Lemma pages_within_budget_and_last_batch (w : World) (cfg : Config) (seed : string)
    (fuel : nat) (r : CrawlResult) :
  crawl w cfg seed fuel = Some (Returns r) ->
  Z.of_nat (size (pages r))
  <= Z.max 0 (max_pages cfg - 1 + max_concurrent_requests cfg).
Proof.
  intros Hr. apply crawl_result in Hr as (st & origin & Horigin & Hrun & ->). simpl.
  apply crawl_run_loop in Hrun as (origin' & _ & Hn & E).
  apply crawl_loop_size in E; [| done].
  simpl in E. by rewrite map_size_empty in E.
Qed.

(** ** Failures of single URLs *)

Section Failures.

Variable cfg : Config.
Variable base : string.

(** A failure with a non-empty message is entered into [errors]. *)
Lemma failure_with_message_is_recorded (batch : list (string * Z)) (st : CrawlState)
    (u message : string) :
  PyStr.truthy message = true ->
  error_urls (handle_result cfg base batch st (failed u message)) !! u = Some message.
Proof. intros H. unfold handle_result. simpl. rewrite H. simpl. apply lookup_insert_eq. Qed.

(** A failure whose message is empty leaves no trace at all. *)
Lemma failure_without_message_is_dropped (batch : list (string * Z)) (st : CrawlState)
    (u : string) :
  handle_result cfg base batch st (failed u EmptyString) = st.
Proof. done. Qed.

End Failures.

(** C7 (the code at the failing input): the only page of the site times
    out, the worker reports the failure with the empty message of the
    exception, and the result has no entry for the URL. *)
Theorem empty_failure_message_is_lost :
  r_error (process_url Scenario.timeout_site Scenario.home 0 (UrlParse.origin Scenario.home))
  = Some EmptyString
  /\ exists r,
       crawl Scenario.timeout_site default_config Scenario.home 1 = Some (Returns r)
       /\ errors r = ∅ /\ pages r = ∅
       /\ total_errors (crawl_stats r) = 0.
Proof. split; [reflexivity |]. eexists. split_and!; vm_compute; reflexivity. Qed.

(** ** What leaves [crawl] *)

Section Outcome.

Variable w : World.
Variable cfg : Config.
Variable seed : string.

(** A seed that [urlparse] refuses: its exception leaves [crawl] before
    the semaphore is created and before the loop is reached, so whatever
    the fuel and without any request. *)
Lemma unparsed_seed_raises (e : string) (fuel : nat) :
  parse_base_url w seed = Raises e -> crawl w cfg seed fuel = Some (Raises e).
Proof. intros Hparse. unfold crawl. by rewrite Hparse. Qed.

(** A negative number of requests per round: the semaphore raises. *)
Lemma negative_concurrency_raises (origin : string) (fuel : nat) :
  parse_base_url w seed = Returns origin ->
  max_concurrent_requests cfg < 0 ->
  crawl w cfg seed fuel = Some (Raises semaphore_error).
Proof.
  intros Hparse Hn. unfold crawl, crawl_run. rewrite Hparse.
  by destruct (Z.ltb_spec (max_concurrent_requests cfg) 0); [| lia].
Qed.

(** The exceptions that leave [crawl] are that of [urlparse] on the seed
    and that of the semaphore. *)
Lemma crawl_raises (fuel : nat) (e : string) :
  crawl w cfg seed fuel = Some (Raises e) ->
  parse_base_url w seed = Raises e
  \/ (max_concurrent_requests cfg < 0 /\ e = semaphore_error).
Proof.
  unfold crawl, crawl_run. destruct (parse_base_url w seed) as [e' | origin].
  { intros [= <-]. by left. }
  destruct (Z.ltb_spec (max_concurrent_requests cfg) 0).
  - intros [= <-]. by right.
  - by destruct (crawl_loop _ _ _ _ _).
Qed.

(** Without a page budget the loop is not entered. *)
Lemma no_budget_loop (origin : string) (fuel : nat) :
  max_pages cfg <= 0 ->
  crawl_loop w cfg origin fuel (initial_state seed) = Some (initial_state seed).
Proof.
  intros Hm.
  assert (loop_condition cfg (initial_state seed) = false) as Hc.
  { unfold loop_condition. simpl. rewrite map_size_empty.
    by destruct (Z.ltb_spec (Z.of_nat 0) (max_pages cfg)); [lia |]. }
  destruct fuel; simpl; by rewrite Hc.
Qed.

(** C5 (as amended): the crawler has no check of its own and no error
    of its own.  A seed that [urlparse] refuses makes [crawl] raise the
    exception of [urlparse], whatever the limits and whatever the network
    would answer.  When [urlparse] accepts the seed: a negative number of
    requests per round makes the semaphore raise; a page budget of zero or
    less (with a non-negative number of requests per round) is not refused
    and gives a result without pages and errors; and with at least one
    request per round, whatever [max_pages] and [max_depth] are, [crawl]
    returns a result, the same for every amount of fuel that suffices, and
    no exception leaves it. *)
Theorem crawl_outcome_by_configuration :
  (forall e, parse_base_url w seed = Raises e ->
     forall (w' : World) (cfg' : Config) (fuel : nat),
       urlparse w' seed = urlparse w seed ->
       crawl w' cfg' seed fuel = Some (Raises e))
  /\ (forall origin, parse_base_url w seed = Returns origin ->
        (max_concurrent_requests cfg < 0 ->
         forall fuel, crawl w cfg seed fuel = Some (Raises semaphore_error))
        /\ (0 <= max_concurrent_requests cfg -> max_pages cfg <= 0 ->
            forall fuel, exists r,
              crawl w cfg seed fuel = Some (Returns r) /\ pages r = ∅ /\ errors r = ∅)
        /\ (1 <= max_concurrent_requests cfg ->
            exists fuel r,
              crawl w cfg seed fuel = Some (Returns r)
              /\ forall fuel' o, crawl w cfg seed fuel' = Some o -> o = Returns r)).
Proof.
  split.
  { intros e Hparse w' cfg' fuel Hsame. unfold crawl, parse_base_url in *.
    rewrite Hsame. destruct (urlparse w seed) as [e' | [scheme netloc]]; [| done].
    by injection Hparse as ->. }
  intros origin Hparse. split_and!.
  - intros Hn fuel. by apply (negative_concurrency_raises origin).
  - intros Hn Hm fuel. exists (make_result w origin (initial_state seed)).
    split; [| done]. apply crawl_of_run; [done |].
    apply (crawl_run_of_loop w cfg seed origin); [done | done |].
    by apply no_budget_loop.
  - intros Hn. destruct (crawl_run_terminates w cfg seed origin Hparse Hn)
      as (fuel & st & Hrun).
    exists fuel, (make_result w origin st).
    pose proof (crawl_of_run w cfg seed origin fuel st Hparse Hrun) as Hr.
    split; [done |]. intros fuel' o Ho.
    by apply (crawl_deterministic w cfg seed fuel' fuel).
Qed.

(** A round on the seed alone, when the filter rejects the seed: the
    frontier is emptied and nothing else changes. *)
Lemma rejected_seed_round (base : string) :
  1 <= max_concurrent_requests cfg ->
  should_visit_url seed base = false ->
  crawl_round w cfg base (initial_state seed)
  = {| visited_urls := ∅; pages_data := ∅; error_urls := ∅; urls_to_visit := [];
       site_structure := ∅; events := [Enqueued seed 0] |}.
Proof.
  intros Hn Hreject. unfold crawl_round, slice_to, slice_from, initial_state.
  cbn [urls_to_visit visited_urls events pages_data error_urls site_structure].
  destruct (Z.leb_spec 0 (max_concurrent_requests cfg)); [| lia].
  destruct (Z.to_nat (max_concurrent_requests cfg)) as [|n] eqn:E; [lia |].
  cbn [take drop fold_left]. unfold dispatch_step. rewrite Hreject, andb_false_r.
  by rewrite take_nil, drop_nil.
Qed.

(** C10 (as amended): when [urlparse] accepts the seed, the admission
    filter rejects the seed for the origin so obtained, and the
    configuration allows a request per round (or allows none but has no
    page budget either), [crawl] returns a result whose [pages] and
    [errors] are empty; the rejection is reported nowhere. *)
Theorem rejected_seed_gives_empty_result (origin : string) :
  parse_base_url w seed = Returns origin ->
  should_visit_url seed origin = false ->
  1 <= max_concurrent_requests cfg
  \/ (max_concurrent_requests cfg = 0 /\ max_pages cfg <= 0) ->
  exists fuel r,
    crawl w cfg seed fuel = Some (Returns r)
    /\ pages r = ∅ /\ errors r = ∅
    /\ forall fuel' o, crawl w cfg seed fuel' = Some o -> o = Returns r.
Proof.
  intros Hparse Hreject Hcfg.
  assert (exists fuel st,
            crawl_loop w cfg origin fuel (initial_state seed) = Some st
            /\ pages_data st = ∅ /\ error_urls st = ∅) as (fuel & st & Hloop & Hp & He).
  { destruct (loop_condition cfg (initial_state seed)) eqn:Hc.
    - destruct Hcfg as [Hn | [_ Hm]].
      + exists 1%nat. eexists. simpl. rewrite Hc, (rejected_seed_round _ Hn Hreject).
        by split_and!.
      + unfold loop_condition in Hc. simpl in Hc. rewrite map_size_empty in Hc.
        apply Z.ltb_lt in Hc. lia.
    - exists 0%nat, (initial_state seed). simpl. by rewrite Hc. }
  assert (crawl w cfg seed fuel = Some (Returns (make_result w origin st))) as Hr.
  { apply crawl_of_run; [done |].
    apply (crawl_run_of_loop w cfg seed origin); [done | lia | done]. }
  exists fuel, (make_result w origin st). split_and!; try done.
  intros fuel' o Ho. by apply (crawl_deterministic w cfg seed fuel' fuel).
Qed.

End Outcome.

(** C5 (witness): the default configuration on a text that is no URL
    and on a seed that [urlparse] refuses. *)
Lemma crawl_outcome_by_configuration_witness :
  parse_base_url Scenario.small_site "not a url" = Returns "://"
  /\ 1 <= max_concurrent_requests default_config
  /\ (exists fuel r,
        crawl Scenario.small_site default_config "not a url" fuel = Some (Returns r)
        /\ forall fuel' o,
             crawl Scenario.small_site default_config "not a url" fuel' = Some o ->
             o = Returns r)
  /\ parse_base_url Scenario.small_site "http://[::1" = Raises "Invalid IPv6 URL"
  /\ crawl Scenario.timeout_site default_config "http://[::1" 0
     = Some (Raises "Invalid IPv6 URL").
Proof.
  assert (1 <= max_concurrent_requests default_config) as Hn by (by vm_compute).
  split; [reflexivity |]. split; [exact Hn |]. split.
  - destruct (proj2 (crawl_outcome_by_configuration Scenario.small_site default_config
                       "not a url") "://" eq_refl) as (_ & _ & Hreturns).
    exact (Hreturns Hn).
  - split; [reflexivity |].
    exact (proj1 (crawl_outcome_by_configuration Scenario.small_site default_config
                    "http://[::1") "Invalid IPv6 URL" eq_refl
             Scenario.timeout_site default_config 0%nat eq_refl).
Defined.

(** C5 (counterexample): no configuration error exists.  A seed that is
    no URL and a page budget of zero both make [crawl] return an empty
    result and neither raises; a seed that [urlparse] refuses makes
    [crawl] raise the [ValueError] of [urlparse], whatever the limits. *)
Lemma invalid_configuration_is_not_refused :
  (exists r,
     crawl Scenario.small_site default_config "not a url" 1 = Some (Returns r)
     /\ pages r = ∅ /\ errors r = ∅)
  /\ (exists r,
        crawl Scenario.small_site (Scenario.with_limits 0 3 10) Scenario.home 0
        = Some (Returns r)
        /\ pages r = ∅ /\ errors r = ∅)
  /\ (forall cfg fuel,
        crawl Scenario.small_site cfg "http://[::1" fuel = Some (Raises "Invalid IPv6 URL")).
Proof.
  split_and!; [eexists; split_and!; vm_compute; reflexivity.. |].
  intros cfg fuel. by apply unparsed_seed_raises.
Qed.

(** C10 (witness): a seed with a fragment under the default
    configuration. *)
Lemma rejected_seed_gives_empty_result_witness :
  parse_base_url Scenario.small_site "https://example.com/#top"
  = Returns "https://example.com"
  /\ should_visit_url "https://example.com/#top" "https://example.com" = false
  /\ (1 <= max_concurrent_requests default_config
      \/ (max_concurrent_requests default_config = 0 /\ max_pages default_config <= 0))
  /\ exists fuel r,
       crawl Scenario.small_site default_config "https://example.com/#top" fuel
       = Some (Returns r)
       /\ pages r = ∅ /\ errors r = ∅.
Proof.
  assert (1 <= max_concurrent_requests default_config
          \/ (max_concurrent_requests default_config = 0 /\ max_pages default_config <= 0))
    as Hcfg by (left; by vm_compute).
  split; [reflexivity |]. split; [reflexivity |]. split; [exact Hcfg |].
  destruct (rejected_seed_gives_empty_result Scenario.small_site default_config
              "https://example.com/#top" "https://example.com" eq_refl eq_refl Hcfg)
    as (fuel & r & Hr & Hp & He & _).
  by exists fuel, r.
Defined.

(** With no request per round the batch is empty, the seed stays in the
    frontier, and the loop never ends: [crawl] returns nothing, whatever
    the fuel. *)
Lemma no_requests_never_returns (seed : string) (fuel : nat) :
  parse_base_url Scenario.small_site seed <> Raises "Invalid IPv6 URL" ->
  crawl Scenario.small_site Scenario.no_requests seed fuel = None.
Proof.
  intros Hparse. unfold crawl, crawl_run.
  destruct (parse_base_url Scenario.small_site seed) as [e | origin] eqn:E.
  { exfalso. apply Hparse. unfold parse_base_url in E. simpl in E.
    unfold UrlParse.urlparse in E.
    destruct (UrlParse.unmatched_bracket (UrlParse.netloc seed)); simpl in E;
      congruence. }
  change (max_concurrent_requests Scenario.no_requests <? 0)%Z with false. cbv iota.
  assert (crawl_loop Scenario.small_site Scenario.no_requests origin fuel
            (initial_state seed) = None) as ->; [| done].
  induction fuel as [|fuel IH]; [reflexivity |].
  cbn [crawl_loop].
  change (loop_condition Scenario.no_requests (initial_state seed)) with true. cbv iota.
  assert (crawl_round Scenario.small_site Scenario.no_requests origin (initial_state seed)
          = initial_state seed) as -> by reflexivity.
  exact IH.
Qed.

(** C10 (counterexample): two seeds that the admission filter rejects
    (each contains a [#]) and for which [crawl] returns no result.  The
    first is refused by [urlparse], whose [ValueError] leaves [crawl]
    whatever the configuration; the second meets a configuration with no
    request per round, under which the loop never ends. *)
Lemma rejected_seed_gets_no_result :
  (forall base, should_visit_url "http://[#x" base = false)
  /\ (forall cfg fuel,
        crawl Scenario.small_site cfg "http://[#x" fuel = Some (Raises "Invalid IPv6 URL"))
  /\ should_visit_url "https://example.com/#top" "https://example.com" = false
  /\ parse_base_url Scenario.small_site "https://example.com/#top"
     = Returns "https://example.com"
  /\ (forall fuel,
        crawl Scenario.small_site Scenario.no_requests "https://example.com/#top" fuel
        = None).
Proof.
  split; [| split; [| split; [| split]]].
  - intros base. unfold should_visit_url.
    destruct (PyStr.startswith "http://[#x" base); reflexivity.
  - intros cfg fuel. by apply unparsed_seed_raises.
  - reflexivity.
  - reflexivity.
  - intros fuel. by apply no_requests_never_returns.
Qed.

(** ** The stamps of a page record *)

Section Stamps.

Variable w : World.

(** [_process_url] passes the status code, the measured time and the raw
    HTML on to the page record unchanged. *)
Lemma build_page_data_stamps (u base body : string) (soup : Soup) (code time : Z)
    (page : PageData) :
  build_page_data w u base body soup code time = Returns page ->
  status_code page = code /\ load_time_ms page = time /\ html page = body.
Proof.
  intros H. by apply build_page_data_inv in H as (_ & _ & -> & -> & -> & _).
Qed.

(** C8 (as amended): the load time stamped on a page record is the time,
    in whole milliseconds, from the start of the request until
    [session.get] has answered, which is before the body is read. *)
Theorem load_time_is_time_to_response (u base : string) (d : Z) (pd : PageData) :
  r_page_data (process_url w u d base) = Some pd ->
  load_time_ms pd = py_int ((clock_at_response w u - clock_at_request w u) * 1000).
Proof.
  unfold process_url, failed. destruct (http_get w u) as [e | response]; [done |].
  destruct (has_substring _ _); [| done]. cbn [negb].
  destruct (text response) as [e | body]; [done |].
  destruct (400 <=? status response)%Z; [done |].
  destruct (html_parser w body) as [e | soup]; [done |].
  destruct (build_page_data _ _ _ _ _ _ _) as [e | page] eqn:Hpage; [done |].
  simpl. intros [= <-].
  by apply build_page_data_stamps in Hpage as (_ & -> & _).
Qed.

End Stamps.

(** C8 (witness): the home page of the example site, answered after
    120 ms. *)
Lemma load_time_is_time_to_response_witness :
  r_page_data (process_url Scenario.small_site Scenario.home 0
                 (UrlParse.origin Scenario.home)) = Some Scenario.home_page
  /\ load_time_ms Scenario.home_page = 120.
Proof.
  assert (r_page_data (process_url Scenario.small_site Scenario.home 0
                         (UrlParse.origin Scenario.home)) = Some Scenario.home_page)
    as Hpd by (vm_compute; reflexivity).
  split; [exact Hpd |].
  rewrite (load_time_is_time_to_response Scenario.small_site Scenario.home
             (UrlParse.origin Scenario.home) 0 Scenario.home_page Hpd).
  by vm_compute.
Defined.

(** C8 (counterexample): the body of the home page has been read 500 ms
    after the start of the request, and the record says 120. *)
Lemma load_time_leaves_out_the_body :
  exists pd,
    r_page_data (process_url Scenario.small_site Scenario.home 0
                   (UrlParse.origin Scenario.home)) = Some pd
    /\ load_time_ms pd = 120
    /\ py_int ((clock_at_body_read Scenario.small_site Scenario.home
                - clock_at_request Scenario.small_site Scenario.home) * 1000) = 500.
Proof. eexists. split_and!; vm_compute; reflexivity. Qed.

(** ** Statistics *)

Section Statistics.

Lemma collected_length (pages : gmap string PageData) :
  length (collected pages) = size pages.
Proof. unfold collected. by rewrite length_fmap, length_map_to_list. Qed.

Lemma collected_nil (pages : gmap string PageData) :
  collected pages = [] <-> pages = ∅.
Proof.
  unfold collected. rewrite <- map_to_list_empty_iff. split.
  - apply fmap_nil_inv.
  - by intros ->.
Qed.

Lemma sum_of_load_times (ps : list PageData) :
  (inject_Z (fold_right Z.add 0%Z (map load_time_ms ps))
   == sumQ (map (fun p => inject_Z (load_time_ms p)) ps))%Q.
Proof.
  induction ps as [|p ps IH]; simpl; [reflexivity |].
  by rewrite inject_Z_plus, IH.
Qed.

Lemma calculate_avg_page_size_mean (pages : gmap string PageData) :
  (calculate_avg_page_size pages == mean (map page_size_kb (collected pages)))%Q.
Proof.
  unfold calculate_avg_page_size, mean. case_bool_decide as He.
  - apply collected_nil in He. by rewrite He.
  - destruct (map page_size_kb (collected pages)) as [|x xs] eqn:E.
    { apply map_eq_nil in E. by apply collected_nil in E. }
    rewrite <- E, length_map, collected_length. unfold collected.
    rewrite <- list_fmap_compose. reflexivity.
Qed.

Lemma calculate_avg_load_time_mean (pages : gmap string PageData) :
  (calculate_avg_load_time pages
   == mean (map (fun p => inject_Z (load_time_ms p)) (collected pages)))%Q.
Proof.
  unfold calculate_avg_load_time, mean. case_bool_decide as He.
  - apply collected_nil in He. by rewrite He.
  - destruct (map (fun p => inject_Z (load_time_ms p)) (collected pages)) as [|x xs] eqn:E.
    { apply map_eq_nil in E. by apply collected_nil in E. }
    rewrite <- E, length_map, collected_length, <- sum_of_load_times.
    unfold collected. rewrite <- list_fmap_compose. reflexivity.
Qed.

(** The counting loop of [_count_status_codes], started on any table. *)
Lemma count_loop_lookup (ps : list PageData) (counts : gmap Z Z) (c : Z) :
  fold_left
    (fun (status_counts : gmap Z Z) (p : PageData) =>
       <[status_code p := default 0 (status_counts !! status_code p) + 1]> status_counts)
    ps counts !! c
  = if decide (occurrences c ps = 0) then counts !! c
    else Some (default 0 (counts !! c) + occurrences c ps).
Proof.
  revert counts. unfold occurrences.
  induction ps as [|p ps IH]; intros counts; cbn [fold_left List.filter]; [done |].
  rewrite IH. destruct (Z.eqb_spec (status_code p) c) as [-> | Hne].
  - rewrite lookup_insert_eq. cbn [length default]. unfold id.
    repeat case_decide; try lia; f_equal; lia.
  - rewrite lookup_insert_ne by done. done.
Qed.

Lemma count_status_codes_histogram (pages : gmap string PageData) :
  histogram_of (collected pages) (count_status_codes pages).
Proof.
  intros c. unfold count_status_codes, collected.
  assert (forall (l : list (string * PageData)) (counts : gmap Z Z),
    fold_left
      (fun (status_counts : gmap Z Z) (p : string * PageData) =>
         <[status_code p.2 := default 0 (status_counts !! status_code p.2) + 1]>
           status_counts) l counts
    = fold_left
        (fun (status_counts : gmap Z Z) (p : PageData) =>
           <[status_code p := default 0 (status_counts !! status_code p) + 1]>
             status_counts) l.*2 counts) as Hfold.
  { induction l as [|[k p] l IH]; intros counts; [done |].
    cbn [fold_left fmap list_fmap snd]. apply IH. }
  rewrite Hfold, count_loop_lookup, lookup_empty.
  case_decide; [done |]. cbn [default]. by f_equal.
Qed.

(** C9: the statistics of a result.  The two totals are the numbers of
    entries of [pages] and of [errors]; the averages are the arithmetic
    means, over the collected pages, of [len(html) / 1024] and of the load
    time, and 0 when no page was collected; [pages_by_status_code] counts
    how many collected pages have each status code. *)
Theorem crawl_stats_spec (w : World) (cfg : Config) (seed : string) (fuel : nat)
    (r : CrawlResult) :
  crawl w cfg seed fuel = Some (Returns r) ->
  let stats := crawl_stats r in
  let ps := collected (pages r) in
  total_pages_crawled stats = Z.of_nat (size (pages r))
  /\ total_errors stats = Z.of_nat (size (errors r))
  /\ length ps = size (pages r)
  /\ (average_page_size_kb stats == mean (map page_size_kb ps))%Q
  /\ (average_load_time_ms stats == mean (map (fun p => inject_Z (load_time_ms p)) ps))%Q
  /\ (pages r = ∅ ->
      (average_page_size_kb stats == 0)%Q /\ (average_load_time_ms stats == 0)%Q)
  /\ histogram_of ps (pages_by_status_code stats).
Proof.
  intros Hr. apply crawl_result in Hr as (st & origin & _ & _ & ->). simpl.
  split_and!; try done.
  - apply collected_length.
  - apply calculate_avg_page_size_mean.
  - apply calculate_avg_load_time_mean.
  - intros ->. by split.
  - apply count_status_codes_histogram.
Qed.

End Statistics.

(** C9 (witness): the end-to-end scenario: three pages of status 200,
    120 ms each. *)
Lemma crawl_stats_spec_witness :
  crawl Scenario.small_site (Scenario.with_limits 10 1 10) Scenario.home 2
  = Some (Returns Scenario.small_result)
  /\ total_pages_crawled (crawl_stats Scenario.small_result) = 3
  /\ (average_load_time_ms (crawl_stats Scenario.small_result) == 120)%Q
  /\ pages_by_status_code (crawl_stats Scenario.small_result) !! 200 = Some 3.
Proof.
  assert (crawl Scenario.small_site (Scenario.with_limits 10 1 10) Scenario.home 2
          = Some (Returns Scenario.small_result)) as Hrun by (vm_compute; reflexivity).
  split; [exact Hrun |].
  destruct (crawl_stats_spec _ _ _ _ _ Hrun) as (Hn & _ & _ & _ & Hl & _ & Hh).
  split_and!.
  - rewrite Hn. by vm_compute.
  - rewrite Hl. by vm_compute.
  - rewrite (Hh 200). by vm_compute.
Defined.

(** ** Where the entries of a result come from *)

Section Origins.

Variable w : World.
Variable cfg : Config.
Variable seed : string.
Variable base : string.

Lemma dispatched_depth_unique (evs : list Event) (u : string) (d1 d2 : Z) :
  events_ok evs -> Dispatched u d1 ∈ evs -> Dispatched u d2 ∈ evs -> d1 = d2.
Proof.
  induction evs as [|e evs IH]; intros Hok H1 H2; [by apply elem_of_nil in H1 |].
  destruct Hok as [He Hok].
  apply elem_of_cons in H1 as [H1 | H1], H2 as [H2 | H2].
  - congruence.
  - subst e. destruct He. apply elem_of_dispatched_urls. by exists d2.
  - subst e. destruct He. apply elem_of_dispatched_urls. by exists d1.
  - by apply IH.
Qed.

(** The internal links of a page record all start with the origin, for
    every document. *)
Lemma build_page_data_internal (u body : string) (soup : Soup) (code time : Z)
    (page : PageData) :
  build_page_data w u base body soup code time = Returns page ->
  Forall (fun l => PyStr.startswith l base = true) (internal_links page).
Proof.
  intros H. apply build_page_data_links, extract_links_spec in H as (_ & -> & _).
  apply Forall_forall. intros l Hl. apply list_elem_of_In, filter_In in Hl. apply Hl.
Qed.

Lemma process_url_internal (u : string) (d : Z) (pd : PageData) :
  r_page_data (process_url w u d base) = Some pd ->
  Forall (fun l => PyStr.startswith l base = true) (internal_links pd).
Proof.
  intros H. apply process_url_built in H as (response & body & soup & H).
  destruct H as (_ & _ & _ & _ & _ & H). by apply build_page_data_internal in H.
Qed.

Lemma filter_all {A} (f : A -> bool) (l : list A) :
  Forall (fun x => f x = true) l -> List.filter f l = l.
Proof.
  induction 1 as [|x l Hx _ IH]; simpl; [done |]. by rewrite Hx, IH.
Qed.

Lemma prov_initial : Provenance w cfg base (initial_state seed).
Proof.
  split; simpl.
  - intros u d H. apply list_elem_of_singleton in H. discriminate.
  - intros u pd H. by rewrite lookup_empty in H.
  - intros u e H. by rewrite lookup_empty in H.
  - intros u. by rewrite !lookup_empty.
  - intros p dp pd v _ H. by rewrite lookup_empty in H.
Qed.

Lemma prov_dispatch_step (vis : gset string) (pg : gmap string PageData)
    (er : gmap string string) (ss : gmap string (list string))
    (u : string) (d : Z) (fr pending : list (string * Z)) (evs : list Event) :
  Inv cfg seed
    {| visited_urls := vis; pages_data := pg; error_urls := er;
       urls_to_visit := (u, d) :: fr; site_structure := ss; events := evs |} pending ->
  Provenance w cfg base
    {| visited_urls := vis; pages_data := pg; error_urls := er;
       urls_to_visit := (u, d) :: fr; site_structure := ss; events := evs |} ->
  Provenance w cfg base
    {| visited_urls := (dispatch_step base (vis, pending, evs) (u, d)).1.1;
       pages_data := pg; error_urls := er;
       urls_to_visit := fr; site_structure := ss;
       events := (dispatch_step base (vis, pending, evs) (u, d)).2 |}.
Proof.
  intros Hinv [P1 P2 P3 P4 P5]. simpl in *. unfold dispatch_step.
  destruct (bool_decide (u ∉ vis)) eqn:Hvis; simpl.
  - apply bool_decide_eq_true in Hvis.
    destruct (should_visit_url u base) eqn:Hadm; simpl.
    + assert (pg !! u = None) as Hpg.
      { destruct (pg !! u) eqn:E; [| done]. destruct Hvis.
        apply (inv_pages_visited _ _ _ _ Hinv). simpl. by rewrite E. }
      split; simpl.
      * intros v dv Hv. apply elem_of_cons in Hv as [[= -> ->] | Hv]; [done | by eapply P1].
      * intros v pd Hv. destruct (P2 _ _ Hv) as (dv & ? & ?). exists dv. split; [by right | done].
      * intros v e Hv. destruct (P3 _ _ Hv) as (? & dv & ? & ?). split; [done |].
        exists dv. split; [by right | done].
      * done.
      * intros p dp pd v Hp Hpd Hdp Hv Hav.
        apply elem_of_cons in Hp as [[= -> ->] | Hp]; [by rewrite Hpg in Hpd |].
        destruct (P5 _ _ _ _ Hp Hpd Hdp Hv Hav) as [? | Hin];
          [left; apply elem_of_union; by right |].
        apply elem_of_cons in Hin as [-> | Hin]; [| by right].
        left. apply elem_of_union. left. by apply elem_of_singleton.
    + split; simpl; try done.
      intros p dp pd v Hp Hpd Hdp Hv Hav.
      destruct (P5 _ _ _ _ Hp Hpd Hdp Hv Hav) as [? | Hin]; [by left |].
      apply elem_of_cons in Hin as [-> | Hin]; [congruence | by right].
  - apply bool_decide_eq_false in Hvis. apply dec_stable in Hvis.
    split; simpl; try done.
    intros p dp pd v Hp Hpd Hdp Hv Hav.
    destruct (P5 _ _ _ _ Hp Hpd Hdp Hv Hav) as [? | Hin]; [by left |].
    apply elem_of_cons in Hin as [-> | Hin]; [by left | by right].
Qed.

Lemma prov_dispatch (vis : gset string) (pg : gmap string PageData)
    (er : gmap string string) (ss : gmap string (list string))
    (batch rest pending : list (string * Z)) (evs : list Event) :
  Inv cfg seed
    {| visited_urls := vis; pages_data := pg; error_urls := er;
       urls_to_visit := batch ++ rest; site_structure := ss; events := evs |} pending ->
  Provenance w cfg base
    {| visited_urls := vis; pages_data := pg; error_urls := er;
       urls_to_visit := batch ++ rest; site_structure := ss; events := evs |} ->
  Provenance w cfg base
    {| visited_urls := (fold_left (dispatch_step base) batch (vis, pending, evs)).1.1;
       pages_data := pg; error_urls := er;
       urls_to_visit := rest; site_structure := ss;
       events := (fold_left (dispatch_step base) batch (vis, pending, evs)).2 |}.
Proof.
  revert vis pending evs.
  induction batch as [|[u d] batch IH]; intros vis pending evs Hinv Hprov;
    cbn [fold_left]; [done |].
  cbn [app] in Hinv, Hprov.
  pose proof (prov_dispatch_step _ _ _ _ _ _ _ _ _ Hinv Hprov) as Hprov'.
  apply (inv_dispatch_step cfg seed base) in Hinv.
  destruct (dispatch_step base (vis, pending, evs) (u, d)) as [[vis' pending'] evs'].
  cbn [fst snd] in Hinv, Hprov'. by apply IH.
Qed.

(** What enqueuing does: the frontier only grows, no worker is created,
    and an admitted link is visited or in the frontier afterwards. *)
Lemma enqueue_step_effects (vis : gset string) (dp : Z) (fr : list (string * Z))
    (evs : list Event) (v : string) :
  (forall x, x ∈ fr.*1 -> x ∈ (enqueue_step base vis dp (fr, evs) v).1.*1)
  /\ (forall x dx, Dispatched x dx ∈ (enqueue_step base vis dp (fr, evs) v).2
                   <-> Dispatched x dx ∈ evs)
  /\ (should_visit_url v base = true ->
      v ∈ vis \/ v ∈ (enqueue_step base vis dp (fr, evs) v).1.*1).
Proof.
  unfold enqueue_step.
  destruct (bool_decide (v ∉ vis)) eqn:H1; simpl.
  2:{ apply bool_decide_eq_false in H1. apply dec_stable in H1.
      split_and!; [done | done | by left]. }
  destruct (bool_decide (v ∉ fr.*1)) eqn:H2; simpl.
  2:{ apply bool_decide_eq_false in H2. apply dec_stable in H2.
      split_and!; [done | done | by right]. }
  destruct (should_visit_url v base); simpl; [| by split_and!].
  split_and!.
  - intros x Hx. rewrite fmap_app. apply elem_of_app. by left.
  - intros x dx. rewrite elem_of_cons. naive_solver.
  - intros _. right. rewrite fmap_app. apply elem_of_app. right. by left.
Qed.

Lemma enqueue_effects (vis : gset string) (dp : Z) (links : list string)
    (fr : list (string * Z)) (evs : list Event) :
  (forall x, x ∈ fr.*1 ->
     x ∈ (fold_left (enqueue_step base vis dp) links (fr, evs)).1.*1)
  /\ (forall x dx,
        Dispatched x dx ∈ (fold_left (enqueue_step base vis dp) links (fr, evs)).2
        <-> Dispatched x dx ∈ evs)
  /\ (forall v, v ∈ links -> should_visit_url v base = true ->
        v ∈ vis \/ v ∈ (fold_left (enqueue_step base vis dp) links (fr, evs)).1.*1).
Proof.
  revert fr evs. induction links as [|l links IH]; intros fr evs; cbn [fold_left].
  { split_and!; [done | done |]. intros v Hv. by apply elem_of_nil in Hv. }
  destruct (enqueue_step_effects vis dp fr evs l) as (Hgrow & Hevs & Hcov).
  destruct (enqueue_step base vis dp (fr, evs) l) as [fr' evs'].
  cbn [fst snd] in Hgrow, Hevs, Hcov.
  destruct (IH fr' evs') as (Hgrow' & Hevs' & Hcov'). split_and!.
  - intros x Hx. by apply Hgrow', Hgrow.
  - intros x dx. by rewrite Hevs', Hevs.
  - intros v Hv Hadm. apply elem_of_cons in Hv as [-> | Hv]; [| by apply Hcov'].
    destruct (Hcov Hadm) as [? | ?]; [by left | right; by apply Hgrow'].
Qed.

Lemma prov_handle_result (batch : list (string * Z)) (st : CrawlState)
    (u : string) (d : Z) (pending : list (string * Z)) :
  Inv cfg seed st ((u, d) :: pending) ->
  Provenance w cfg base st ->
  depth_in_batch batch u = d ->
  Provenance w cfg base (handle_result cfg base batch st (process_url w u d base)).
Proof.
  intros Hinv [P1 P2 P3 P4 P5] Hd. unfold handle_result.
  rewrite process_url_url, Hd.
  destruct (inv_pending_fresh _ _ _ _ Hinv u d) as (Hpg & Her & Hev); [by left |].
  destruct (r_error (process_url w u d base)) as [e |] eqn:Herr.
  - destruct (PyStr.truthy e) eqn:Ht.
    + simpl. split; simpl; try done.
      intros v e' Hv. destruct (decide (u = v)) as [<- | Hne].
      * rewrite lookup_insert_eq in Hv. injection Hv as <-. split; [done |]. by exists d.
      * rewrite lookup_insert_ne in Hv by done. by apply P3.
    + destruct (r_page_data (process_url w u d base)) as [pd |] eqn:Hpd; [| done].
      apply process_url_page in Hpd as [Hnone _]. congruence.
  - destruct (r_page_data (process_url w u d base)) as [pd |] eqn:Hpd; [| done].
    pose proof (process_url_internal u d pd Hpd) as Hint.
    pose proof Hpd as Hpd'. apply process_url_page in Hpd' as [_ ->].
    pose proof (enqueue_effects (visited_urls st) d (internal_links pd)
                  (urls_to_visit st) (events st)) as (Hgrow & Hevs & Hcov).
    assert (exists fr evs,
      (if (d <? max_depth cfg)%Z
       then fold_left (enqueue_step base (visited_urls st) d) (internal_links pd)
              (urls_to_visit st, events st)
       else (urls_to_visit st, events st)) = (fr, evs)
      /\ (forall x, x ∈ (urls_to_visit st).*1 -> x ∈ fr.*1)
      /\ (forall x dx, Dispatched x dx ∈ evs <-> Dispatched x dx ∈ events st)
      /\ (d < max_depth cfg -> forall v, v ∈ internal_links pd ->
            should_visit_url v base = true -> v ∈ visited_urls st \/ v ∈ fr.*1))
      as (fr & evs & -> & Hgrow' & Hevs' & Hcov').
    { destruct (Z.ltb_spec d (max_depth cfg)).
      - destruct (fold_left _ _ _) as [fr evs]. exists fr, evs. by split_and!.
      - exists (urls_to_visit st), (events st). split_and!; [done | done | done | lia]. }
    split; simpl.
    + intros v dv Hv. apply Hevs' in Hv. by eapply P1.
    + intros v pd' Hv. destruct (decide (u = v)) as [<- | Hne].
      * rewrite lookup_insert_eq in Hv. injection Hv as <-. exists d.
        split; [by apply Hevs' | done].
      * rewrite lookup_insert_ne in Hv by done.
        destruct (P2 _ _ Hv) as (dv & ? & ?). exists dv. split; [by apply Hevs' | done].
    + intros v e Hv. destruct (P3 _ _ Hv) as (? & dv & ? & ?). split; [done |].
      exists dv. split; [by apply Hevs' | done].
    + intros v. destruct (decide (u = v)) as [<- | Hne].
      * rewrite !lookup_insert_eq. simpl. by rewrite filter_all.
      * rewrite !lookup_insert_ne by done. apply P4.
    + intros p dp pd' v Hp Hpd'' Hdp Hv Hadm. apply Hevs' in Hp.
      destruct (decide (u = p)) as [<- | Hne].
      * rewrite lookup_insert_eq in Hpd''. injection Hpd'' as <-.
        assert (dp = d) as -> by
          (eapply dispatched_depth_unique; [apply (inv_events_ok _ _ _ _ Hinv) | done..]).
        by apply Hcov'.
      * rewrite lookup_insert_ne in Hpd'' by done.
        destruct (P5 _ _ _ _ Hp Hpd'' Hdp Hv Hadm) as [? | ?]; [by left | right].
        by apply Hgrow'.
Qed.

Lemma prov_handle_results (batch tasks : list (string * Z)) (st : CrawlState) :
  Inv cfg seed st tasks ->
  Provenance w cfg base st ->
  (forall u d, (u, d) ∈ tasks -> depth_in_batch batch u = d) ->
  Provenance w cfg base
    (fold_left (handle_result cfg base batch)
       (map (fun task => process_url w task.1 task.2 base) tasks) st).
Proof.
  revert st. induction tasks as [|[u d] tasks IH]; intros st Hinv Hprov Hd;
    cbn [map fold_left]; [done |].
  cbn [fst snd]. apply IH.
  - apply (inv_handle_result w cfg seed base batch st u d tasks Hinv). apply Hd. by left.
  - apply (prov_handle_result batch st u d tasks Hinv Hprov). apply Hd. by left.
  - intros. apply Hd. by right.
Qed.

Lemma prov_crawl_round (st : CrawlState) :
  Inv cfg seed st [] -> Provenance w cfg base st ->
  Provenance w cfg base (crawl_round w cfg base st).
Proof.
  intros Hinv Hprov. unfold crawl_round.
  set (n := max_concurrent_requests cfg).
  assert (Inv cfg seed
    {| visited_urls := visited_urls st; pages_data := pages_data st;
       error_urls := error_urls st;
       urls_to_visit := slice_to n (urls_to_visit st) ++ slice_from n (urls_to_visit st);
       site_structure := site_structure st; events := events st |} []) as Hinv0.
  { rewrite slice_split. by destruct st. }
  assert (Provenance w cfg base
    {| visited_urls := visited_urls st; pages_data := pages_data st;
       error_urls := error_urls st;
       urls_to_visit := slice_to n (urls_to_visit st) ++ slice_from n (urls_to_visit st);
       site_structure := site_structure st; events := events st |}) as Hprov0.
  { rewrite slice_split. by destruct st. }
  assert (NoDup (slice_to n (urls_to_visit st)).*1) as Hnd.
  { pose proof (inv_frontier_nodup _ _ _ _ Hinv) as H.
    rewrite <- (slice_split n (urls_to_visit st)), fmap_app in H.
    by apply NoDup_app in H as [? _]. }
  pose proof (prov_dispatch _ _ _ _ _ _ _ _ Hinv0 Hprov0) as Hprov1.
  apply (inv_dispatch cfg seed base) in Hinv0 as [Hinv1 Hsub].
  destruct (fold_left (dispatch_step base) (slice_to n (urls_to_visit st))
              (visited_urls st, [], events st)) as [[vis tasks] evs].
  cbn [fst snd] in Hinv1, Hsub, Hprov1.
  apply (prov_handle_results _ _ _ Hinv1 Hprov1).
  intros u d Hu. apply depth_in_batch_lookup; [done |].
  destruct (Hsub _ Hu) as [H | H]; [by apply elem_of_nil in H | done].
Qed.

Lemma prov_crawl_loop (fuel : nat) (st st' : CrawlState) :
  Inv cfg seed st [] -> Provenance w cfg base st ->
  crawl_loop w cfg base fuel st = Some st' -> Provenance w cfg base st'.
Proof.
  revert st. induction fuel as [|fuel IH]; intros st Hinv Hprov; simpl;
    destruct (loop_condition cfg st); try done; try by intros [= <-].
  apply IH; [by apply inv_crawl_round | by apply prov_crawl_round].
Qed.

End Origins.

(** ** The worker, case by case *)

Section Worker.

Variable w : World.
Variable base : string.

Lemma build_page_data_url (u body : string) (soup : Soup) (code time : Z)
    (page : PageData) :
  build_page_data w u base body soup code time = Returns page -> url page = u.
Proof. intros H. by apply build_page_data_inv in H as (_ & -> & _). Qed.

(** A page record is returned only for a response declared as HTML, with
    a status below 400, whose body was read and parsed; the record is the
    extractor's, stamped with that status, and nothing else. *)
Lemma process_url_page_inv (u : string) (d : Z) (pd : PageData) :
  r_page_data (process_url w u d base) = Some pd ->
  fetched_as w base u pd /\ url pd = u.
Proof.
  intros H. apply process_url_built in H as (response & body & soup & H).
  destruct H as (Hget & Hct & Htext & Hlt & Hparse & Hpage).
  destruct (build_page_data_stamps w u base body soup _ _ pd Hpage) as (Hs & _ & Hh).
  split; [| by apply build_page_data_url in Hpage].
  exists response, soup. rewrite Hs, Hh. by split_and!.
Qed.

(** Every other outcome is a failure with a message and without a page
    record or links. *)
Lemma process_url_error_inv (u : string) (d : Z) (e : string) :
  r_error (process_url w u d base) = Some e ->
  failure_of w base u e
  /\ r_page_data (process_url w u d base) = None
  /\ r_new_urls (process_url w u d base) = [].
Proof.
  unfold process_url, failed, failure_of.
  destruct (http_get w u) as [e' | response].
  { simpl. intros [= <-]. split_and!; [by left | done | done]. }
  destruct (has_substring _ _) eqn:Hct; cbn [negb].
  2:{ simpl. intros [= <-]. split_and!; [| done | done].
      right. exists response. split; [done |]. left. by rewrite Hct. }
  destruct (text response) as [e' | body] eqn:Htext.
  { simpl. intros [= <-]. split_and!; [| done | done].
    right. exists response. split; [done |]. right. left. by rewrite Hct. }
  destruct (Z.leb_spec 400 (status response)).
  { simpl. intros [= <-]. split_and!; [| done | done].
    right. exists response. split; [done |]. right. right. rewrite Hct.
    split; [done |]. exists body. split; [done |]. by left. }
  destruct (html_parser w body) as [e' | soup] eqn:Hparse.
  { simpl. intros [= <-]. split_and!; [| done | done].
    right. exists response. split; [done |]. right. right. rewrite Hct.
    split; [done |]. exists body. split; [done |]. right. by left. }
  destruct (build_page_data _ _ _ _ _ _ _) as [e' | page] eqn:Hpage; [| done].
  simpl. intros [= <-]. split_and!; [| done | done].
  right. exists response. split; [done |]. right. right. rewrite Hct.
  split; [done |]. exists body. split; [done |]. right. right.
  split; [done |]. by exists soup.
Qed.

Lemma process_url_depth (u : string) (d d' : Z) :
  process_url w u d base = process_url w u d' base.
Proof. done. Qed.

End Worker.

(** ** The tables of a result *)

Section Tables.

Variable w : World.
Variable cfg : Config.
Variable seed : string.

Lemma crawl_run_prov (fuel : nat) (st : CrawlState) (origin : string) :
  parse_base_url w seed = Returns origin ->
  crawl_run w cfg seed fuel = Some (Returns st) ->
  Provenance w cfg origin st.
Proof.
  intros Hparse Hrun. apply crawl_run_loop in Hrun as (origin' & Hparse' & _ & Hloop).
  rewrite Hparse in Hparse'. injection Hparse' as <-.
  eapply prov_crawl_loop; [apply inv_initial | apply prov_initial | done].
Qed.

(** X1: a worker is created only for a URL that the admission filter
    accepts for the origin of the seed, so every key of [pages] and of
    [errors] starts with the origin, has no fragment and no listed
    extension. *)
Theorem only_admitted_urls_are_fetched (fuel : nat) (st : CrawlState) :
  crawl_run w cfg seed fuel = Some (Returns st) ->
  exists origin,
    parse_base_url w seed = Returns origin
    /\ (forall u, u ∈ dispatched_urls (events st) -> should_visit_url u origin = true)
    /\ (forall u, is_Some (pages_data st !! u) \/ is_Some (error_urls st !! u) ->
          should_visit_url u origin = true).
Proof.
  intros Hrun. destruct (crawl_run_inv _ _ _ _ _ Hrun) as [Hinv _].
  destruct (crawl_run_loop _ _ _ _ _ Hrun) as (origin & Horigin & _ & _).
  pose proof (crawl_run_prov _ _ _ Horigin Hrun) as Hprov.
  exists origin. split; [done |].
  assert (forall u, u ∈ dispatched_urls (events st) ->
            should_visit_url u origin = true) as Hadm.
  { intros u Hu. apply elem_of_dispatched_urls in Hu as [d Hd].
    by apply (prov_admitted _ _ _ _ Hprov u d). }
  split; [done |]. intros u Hu. apply Hadm, (inv_visited_dispatched _ _ _ _ Hinv).
  destruct Hu as [Hu | Hu].
  - by apply (inv_pages_visited _ _ _ _ Hinv).
  - by apply (inv_errors_visited _ _ _ _ Hinv).
Qed.

(** X2: every entry of [pages] is the record the worker built for its
    key: the URL answered with a response declared as HTML and a status
    below 400, the body was read and parsed, and the record carries that
    URL, that body and that status. *)
Theorem pages_are_what_workers_fetched (fuel : nat) (r : CrawlResult)
    (u : string) (pd : PageData) :
  crawl w cfg seed fuel = Some (Returns r) ->
  pages r !! u = Some pd ->
  fetched_as w (base_url r) u pd /\ url pd = u.
Proof.
  intros Hr Hu. apply crawl_result in Hr as (st & origin & Horigin & Hrun & ->). simpl in *.
  pose proof (crawl_run_prov _ _ _ Horigin Hrun) as Hprov.
  destruct (prov_pages _ _ _ _ Hprov _ _ Hu) as (d & _ & Hpd).
  by apply process_url_page_inv in Hpd.
Qed.

(** X3: every entry of [errors] is the non-empty message of a failure of
    the worker of its key, and that key has no page. *)
Theorem errors_are_worker_failures (fuel : nat) (r : CrawlResult) (u e : string) :
  crawl w cfg seed fuel = Some (Returns r) ->
  errors r !! u = Some e ->
  e <> EmptyString /\ failure_of w (base_url r) u e /\ pages r !! u = None.
Proof.
  intros Hr Hu. apply crawl_result in Hr as (st & origin & Horigin & Hrun & ->). simpl in *.
  pose proof (crawl_run_prov _ _ _ Horigin Hrun) as Hprov.
  destruct (crawl_run_inv _ _ _ _ _ Hrun) as [Hinv _].
  destruct (prov_errors _ _ _ _ Hprov _ _ Hu) as (Ht & d & _ & He).
  apply process_url_error_inv in He as (Hf & _ & _). split_and!.
  - intros ->. discriminate.
  - done.
  - destruct (pages_data st !! u) eqn:E; [| done].
    assert (is_Some (pages_data st !! u)) as Hs by (by rewrite E).
    apply (inv_disjoint _ _ _ _ Hinv) in Hs. congruence.
Qed.

(** X4: [site_structure] has an entry exactly for the collected pages,
    and the entry of a page is the whole list of its internal links: the
    filter of line 143 never removes anything. *)
Theorem site_structure_follows_pages (fuel : nat) (r : CrawlResult) (u : string) :
  crawl w cfg seed fuel = Some (Returns r) ->
  result_site_structure r !! u = internal_links <$> (pages r !! u).
Proof.
  intros Hr. apply crawl_result in Hr as (st & origin & Horigin & Hrun & ->). simpl.
  apply (prov_structure _ _ _ _ (crawl_run_prov _ _ _ Horigin Hrun)).
Qed.

(** X5: when the crawl ends with fewer pages than the budget, the
    frontier is exhausted and the crawl is complete: every link of a
    collected page dispatched at a depth below [max_depth] that the filter
    admits has got a worker. *)
Theorem crawl_complete_below_budget (fuel : nat) (st : CrawlState)
    (origin p v : string) (dp : Z) (pd : PageData) :
  parse_base_url w seed = Returns origin ->
  crawl_run w cfg seed fuel = Some (Returns st) ->
  Z.of_nat (size (pages_data st)) < max_pages cfg ->
  Dispatched p dp ∈ events st -> pages_data st !! p = Some pd ->
  dp < max_depth cfg -> v ∈ internal_links pd ->
  should_visit_url v origin = true ->
  urls_to_visit st = [] /\ v ∈ dispatched_urls (events st).
Proof.
  intros Horigin Hrun Hsize Hp Hpd Hdp Hv Hadm.
  destruct (crawl_run_inv _ _ _ _ _ Hrun) as [Hinv Hdone].
  pose proof (crawl_run_prov _ _ _ Horigin Hrun) as Hprov.
  assert (urls_to_visit st = []) as Hempty.
  { unfold loop_condition in Hdone. destruct (urls_to_visit st); [done |].
    simpl in Hdone. apply Z.ltb_ge in Hdone. lia. }
  split; [done |].
  destruct (prov_complete _ _ _ _ Hprov _ _ _ _ Hp Hpd Hdp Hv Hadm) as [Hvis | Hfr].
  - by apply (inv_visited_dispatched _ _ _ _ Hinv).
  - rewrite Hempty in Hfr. by apply elem_of_nil in Hfr.
Qed.

(** X6: the entries of [pages] and [errors] together are at most as many
    as the workers that were created. *)
Theorem entries_at_most_workers (fuel : nat) (st : CrawlState) :
  crawl_run w cfg seed fuel = Some (Returns st) ->
  (size (pages_data st) + size (error_urls st)
   <= length (dispatched_urls (events st)))%nat.
Proof.
  intros Hrun. destruct (crawl_run_inv _ _ _ _ _ Hrun) as [Hinv _].
  rewrite <- (size_dom (D := gset string) (pages_data st)).
  rewrite <- (size_dom (D := gset string) (error_urls st)).
  rewrite <- size_union.
  2:{ intros u Hp He. apply elem_of_dom in Hp, He.
      rewrite (inv_disjoint _ _ _ _ Hinv u Hp) in He. by destruct He. }
  rewrite <- (size_list_to_set (C := gset string) (dispatched_urls (events st))).
  2:{ apply events_ok_NoDup, (inv_events_ok _ _ _ _ Hinv). }
  apply subseteq_size. intros u Hu. apply elem_of_list_to_set.
  apply (inv_visited_dispatched _ _ _ _ Hinv).
  apply elem_of_union in Hu as [Hu | Hu]; apply elem_of_dom in Hu.
  - by apply (inv_pages_visited _ _ _ _ Hinv).
  - by apply (inv_errors_visited _ _ _ _ Hinv).
Qed.

Lemma hops_from_seed_page (pages : gmap string PageData) (d : Z) (u : string) :
  hops pages seed d u -> u = seed \/ is_Some (pages !! seed).
Proof.
  induction 1 as [|d parent child _ IH (page & Hp & _)]; [by left |].
  right. destruct IH as [<- | ?]; [by rewrite Hp | done].
Qed.

(** X7: a result that holds any page holds the page of the seed. *)
Theorem seed_page_is_collected (fuel : nat) (r : CrawlResult) :
  crawl w cfg seed fuel = Some (Returns r) ->
  pages r <> ∅ -> is_Some (pages r !! seed).
Proof.
  intros Hr Hne. apply crawl_result in Hr as (st & origin & Horigin & Hrun & ->). simpl in *.
  destruct (crawl_run_inv _ _ _ _ _ Hrun) as [Hinv _].
  apply map_choose in Hne as (u & pd & Hu).
  assert (is_Some (pages_data st !! u)) as Hs by (by rewrite Hu).
  apply (inv_pages_visited _ _ _ _ Hinv) in Hs.
  apply (inv_visited_dispatched _ _ _ _ Hinv), elem_of_dispatched_urls in Hs as [d Hd].
  assert (hops (pages_data st) seed d u) as Hhops.
  { apply (inv_hops cfg seed st Hinv (Z.to_nat d)); [done | |].
    - destruct (inv_dispatched_depth _ _ _ _ _ _ Hinv Hd) as [[_ ->] | ?]; lia.
    - by apply (inv_dispatched_enqueued _ _ _ _ Hinv). }
  destruct (hops_from_seed_page _ _ _ Hhops) as [<- | ?]; [by rewrite Hu | done].
Qed.

End Tables.

Section TableWitnesses.

Lemma small_run :
  crawl_run Scenario.small_site (Scenario.with_limits 10 1 10) Scenario.home 2
  = Some (Returns Scenario.small_state).
Proof. vm_compute. reflexivity. Qed.

Lemma small_crawl :
  crawl Scenario.small_site (Scenario.with_limits 10 1 10) Scenario.home 2
  = Some (Returns Scenario.small_result).
Proof. vm_compute. reflexivity. Qed.

Lemma small_home_page :
  pages Scenario.small_result !! Scenario.home
  = Some Scenario.home_page.
Proof. vm_compute. reflexivity. Qed.

End TableWitnesses.

(** X1 (witness): the end-to-end scenario. *)
Lemma only_admitted_urls_are_fetched_witness :
  crawl_run Scenario.small_site (Scenario.with_limits 10 1 10) Scenario.home 2
  = Some (Returns Scenario.small_state)
  /\ exists origin,
       parse_base_url Scenario.small_site Scenario.home = Returns origin
       /\ forall u, u ∈ dispatched_urls (events Scenario.small_state) ->
            should_visit_url u origin = true.
Proof.
  split; [exact small_run |].
  destruct (only_admitted_urls_are_fetched _ _ _ _ _ small_run)
    as (origin & Horigin & Hworkers & _).
  exists origin. split; [exact Horigin | exact Hworkers].
Defined.

(** X2 (witness): the home page of the end-to-end scenario. *)
Lemma pages_are_what_workers_fetched_witness :
  crawl Scenario.small_site (Scenario.with_limits 10 1 10) Scenario.home 2
  = Some (Returns Scenario.small_result)
  /\ exists pd, pages Scenario.small_result !! Scenario.home = Some pd
                /\ url pd = Scenario.home.
Proof.
  split; [exact small_crawl |]. eexists. split; [exact small_home_page |].
  exact (proj2 (pages_are_what_workers_fetched _ _ _ _ _ _ _ small_crawl small_home_page)).
Defined.

(** X4 (witness): the home page of the end-to-end scenario. *)
Lemma site_structure_follows_pages_witness :
  crawl Scenario.small_site (Scenario.with_limits 10 1 10) Scenario.home 2
  = Some (Returns Scenario.small_result)
  /\ result_site_structure Scenario.small_result !! Scenario.home
     = internal_links <$> (pages Scenario.small_result !! Scenario.home).
Proof.
  split; [exact small_crawl |].
  exact (site_structure_follows_pages _ _ _ _ _ Scenario.home small_crawl).
Defined.

(** X5 (witness): the end-to-end scenario: the link to the about page,
    found on the home page at depth 0 below the limit 1. *)
Lemma crawl_complete_below_budget_witness :
  "https://example.com/about" ∈ dispatched_urls (events Scenario.small_state).
Proof.
  refine (proj2 (crawl_complete_below_budget Scenario.small_site
                   (Scenario.with_limits 10 1 10) Scenario.home 2 Scenario.small_state
                   "https://example.com" Scenario.home "https://example.com/about" 0
                   Scenario.home_page eq_refl small_run _ _ _ _ _ _)).
  - vm_compute. reflexivity.
  - apply list_elem_of_In. vm_compute. tauto.
  - vm_compute. reflexivity.
  - vm_compute. reflexivity.
  - apply list_elem_of_In. vm_compute. tauto.
  - vm_compute. reflexivity.
Defined.

(** X6 (witness): the end-to-end scenario: three pages, no error, three
    workers. *)
Lemma entries_at_most_workers_witness :
  crawl_run Scenario.small_site (Scenario.with_limits 10 1 10) Scenario.home 2
  = Some (Returns Scenario.small_state)
  /\ (size (pages_data Scenario.small_state) + size (error_urls Scenario.small_state)
      <= length (dispatched_urls (events Scenario.small_state)))%nat.
Proof.
  split; [exact small_run |]. exact (entries_at_most_workers _ _ _ _ _ small_run).
Defined.

(** X7 (witness): the end-to-end scenario. *)
Lemma seed_page_is_collected_witness :
  crawl Scenario.small_site (Scenario.with_limits 10 1 10) Scenario.home 2
  = Some (Returns Scenario.small_result)
  /\ pages Scenario.small_result <> ∅
  /\ is_Some (pages Scenario.small_result !! Scenario.home).
Proof.
  assert (pages Scenario.small_result <> ∅) as Hne.
  { intros H. pose proof small_home_page as Hp. rewrite H, lookup_empty in Hp.
    discriminate Hp. }
  split; [exact small_crawl |]. split; [exact Hne |].
  exact (seed_page_is_collected _ _ _ _ _ small_crawl Hne).
Defined.

(** X3 (witness): the about page answers with status 500. *)
Lemma errors_are_worker_failures_witness :
  crawl Scenario.broken_site (Scenario.with_limits 10 1 10) Scenario.home 2
  = Some (Returns Scenario.broken_result)
  /\ errors Scenario.broken_result !! "https://example.com/about" = Some "HTTP status 500"
  /\ pages Scenario.broken_result !! "https://example.com/about" = None.
Proof.
  assert (crawl Scenario.broken_site (Scenario.with_limits 10 1 10) Scenario.home 2
          = Some (Returns Scenario.broken_result)) as Hrun by (vm_compute; reflexivity).
  assert (errors Scenario.broken_result !! "https://example.com/about"
          = Some "HTTP status 500") as He by (vm_compute; reflexivity).
  split; [exact Hrun |]. split; [exact He |].
  exact (proj2 (proj2 (errors_are_worker_failures _ _ _ _ _ _ _ Hrun He))).
Defined.

(** ** The status table *)

Section StatusTable.

Lemma total_count_insert (counts : gmap Z Z) (c : Z) :
  total_count (<[c := default 0 (counts !! c) + 1]> counts) = total_count counts + 1.
Proof.
  unfold total_count. destruct (counts !! c) as [n |] eqn:E; cbn [default].
  - rewrite <- (insert_delete_eq counts).
    rewrite map_fold_insert_L; [| intros; lia | apply lookup_delete_eq].
    rewrite (map_fold_delete_L _ _ c n counts); [unfold id; lia | intros; lia | done].
  - rewrite map_fold_insert_L; [lia | intros; lia | done].
Qed.

Lemma total_count_loop (ps : list PageData) (counts : gmap Z Z) :
  total_count
    (fold_left
       (fun (status_counts : gmap Z Z) (p : PageData) =>
          <[status_code p := default 0 (status_counts !! status_code p) + 1]>
            status_counts) ps counts)
  = total_count counts + Z.of_nat (length ps).
Proof.
  revert counts. induction ps as [|p ps IH]; intros counts; cbn [fold_left length];
    [lia |].
  rewrite IH, total_count_insert. lia.
Qed.

Lemma count_status_codes_total (pages : gmap string PageData) :
  total_count (count_status_codes pages) = Z.of_nat (size pages).
Proof.
  unfold count_status_codes.
  assert (forall (l : list (string * PageData)) (counts : gmap Z Z),
    fold_left
      (fun (status_counts : gmap Z Z) (p : string * PageData) =>
         <[status_code p.2 := default 0 (status_counts !! status_code p.2) + 1]>
           status_counts) l counts
    = fold_left
        (fun (status_counts : gmap Z Z) (p : PageData) =>
           <[status_code p := default 0 (status_counts !! status_code p) + 1]>
             status_counts) l.*2 counts) as Hfold.
  { induction l as [|[k p] l IH]; intros counts; [done |].
    cbn [fold_left fmap list_fmap snd]. apply IH. }
  rewrite Hfold, total_count_loop, length_fmap, length_map_to_list.
  unfold total_count. by rewrite map_fold_empty.
Qed.

Lemma occurrences_positive (c : Z) (ps : list PageData) :
  occurrences c ps <> 0 -> exists p, p ∈ ps /\ status_code p = c.
Proof.
  unfold occurrences. induction ps as [|p ps IH]; simpl; [lia |].
  destruct (Z.eqb_spec (status_code p) c) as [Hc | Hc].
  - intros _. exists p. split; [by left | done].
  - intros H. destruct (IH H) as (q & Hq & ?). exists q. split; [by right | done].
Qed.

Lemma occurrences_le (c : Z) (ps : list PageData) :
  occurrences c ps <= Z.of_nat (length ps).
Proof.
  unfold occurrences. pose proof (filter_length_le (fun p => Z.eqb (status_code p) c) ps).
  lia.
Qed.

(** X8: [pages_by_status_code] of a result counts every collected page
    once: its counts add up to [total_pages_crawled]; every code in it is
    below 400, and its count is at least 1. *)
Theorem status_table_counts_each_page_once (w : World) (cfg : Config) (seed : string)
    (fuel : nat) (r : CrawlResult) :
  crawl w cfg seed fuel = Some (Returns r) ->
  total_count (pages_by_status_code (crawl_stats r)) = total_pages_crawled (crawl_stats r)
  /\ forall c n, pages_by_status_code (crawl_stats r) !! c = Some n ->
       c < 400 /\ 1 <= n <= total_pages_crawled (crawl_stats r).
Proof.
  intros Hr. pose proof Hr as Hr'. apply crawl_result in Hr' as (st & origin & Horigin & Hrun & ->).
  simpl. split; [apply count_status_codes_total |].
  intros c n Hc. rewrite (count_status_codes_histogram (pages_data st) c) in Hc.
  case_decide as Hocc; [done |]. injection Hc as <-.
  pose proof (occurrences_le c (collected (pages_data st))) as Hle.
  rewrite collected_length in Hle.
  split; [| unfold occurrences in *; lia].
  apply occurrences_positive in Hocc as (p & Hp & <-).
  unfold collected in Hp. apply list_elem_of_fmap in Hp as ([k p'] & -> & Hp).
  apply elem_of_map_to_list in Hp. simpl.
  destruct (prov_pages _ _ _ _ (crawl_run_prov _ _ _ _ _ _ Horigin Hrun) _ _ Hp) as (d & _ & Hpd).
  apply process_url_page_inv in Hpd as [(response & soup & _ & _ & _ & _ & Hlt & _) _].
  exact Hlt.
Qed.

End StatusTable.

(** X8 (witness): the end-to-end scenario. *)
Lemma status_table_counts_each_page_once_witness :
  crawl Scenario.small_site (Scenario.with_limits 10 1 10) Scenario.home 2
  = Some (Returns Scenario.small_result)
  /\ total_count (pages_by_status_code (crawl_stats Scenario.small_result))
     = total_pages_crawled (crawl_stats Scenario.small_result).
Proof.
  split; [exact small_crawl |].
  exact (proj1 (status_table_counts_each_page_once _ _ _ _ _ small_crawl)).
Defined.

(** X9 (witness): the budget of two pages and ten requests per round. *)
Lemma pages_within_budget_and_last_batch_witness :
  exists r,
    crawl Scenario.small_site Scenario.tight_budget Scenario.home 2 = Some (Returns r)
    /\ Z.of_nat (size (pages r)) <= Z.max 0 (2 - 1 + 10).
Proof.
  eexists. split; [vm_compute; reflexivity |].
  refine (pages_within_budget_and_last_batch Scenario.small_site Scenario.tight_budget
            Scenario.home 2 _ _).
  vm_compute. reflexivity.
Defined.

(** ** The tree after [_extract_content] *)

Section EditedTree.

Variable tags : list string.

(** Nothing is found below a removed element, and what is found
    elsewhere keeps its attributes and its place in the document order. *)
Lemma find_all_decompose_node (p : string -> list (string * string) -> bool) (n : Node) :
  Bs4.node_attrs <$> flat_map (Bs4.find_all_node p) (Bs4.decompose_node tags n)
  `sublist_of` Bs4.node_attrs <$> Bs4.find_all_node p n.
Proof.
  induction n as [s | t a cs IH] using Node_nested_ind; [done |].
  cbn [Bs4.decompose_node]. destruct (existsb (String.eqb t) tags).
  { apply sublist_nil_l. }
  cbn [flat_map Bs4.find_all_node]. rewrite app_nil_r, !fmap_app.
  apply sublist_app.
  { by destruct (p t a). }
  induction IH as [|c cs Hc _ IHcs]; [done |].
  cbn [flat_map]. rewrite flat_map_app, !fmap_app. by apply sublist_app.
Qed.

Lemma find_all_decompose (p : string -> list (string * string) -> bool) (soup : Soup) :
  Bs4.node_attrs <$> Bs4.find_all p (Bs4.decompose_all tags soup)
  `sublist_of` Bs4.node_attrs <$> Bs4.find_all p soup.
Proof.
  unfold Bs4.find_all, Bs4.decompose_all.
  induction soup as [|n soup IH]; [done |].
  cbn [flat_map]. rewrite flat_map_app, !fmap_app.
  apply sublist_app; [apply find_all_decompose_node | done].
Qed.

(** No element with a removed tag is left. *)
Lemma find_removed_node (p : string -> list (string * string) -> bool) (n : Node) :
  (forall t a, p t a = true -> existsb (String.eqb t) tags = true) ->
  flat_map (Bs4.find_all_node p) (Bs4.decompose_node tags n) = [].
Proof.
  intros Hp. induction n as [s | t a cs IH] using Node_nested_ind; [done |].
  cbn [Bs4.decompose_node]. destruct (existsb (String.eqb t) tags) eqn:Ht; [done |].
  cbn [flat_map Bs4.find_all_node]. rewrite app_nil_r.
  destruct (p t a) eqn:Hpt; [apply Hp in Hpt; congruence |]. cbn [app].
  induction IH as [|c cs Hc _ IHcs]; [done |].
  cbn [flat_map]. by rewrite flat_map_app, Hc, IHcs.
Qed.

Lemma find_removed (p : string -> list (string * string) -> bool) (soup : Soup) :
  (forall t a, p t a = true -> existsb (String.eqb t) tags = true) ->
  Bs4.find_all p (Bs4.decompose_all tags soup) = [].
Proof.
  intros Hp. unfold Bs4.find_all, Bs4.decompose_all.
  induction soup as [|n soup IH]; [done |].
  cbn [flat_map]. by rewrite flat_map_app, find_removed_node, IH.
Qed.

End EditedTree.

Section Extractors.

Variable w : World.
Variables u base body : string.
Variables code time : Z.

(** X10: for every document, each of the two link lists of the page
    record is free of duplicates, every internal link starts with the
    origin and no external link does, and no link contains a [#]. *)
Theorem page_links_are_clean (soup : Soup) (page : PageData) :
  build_page_data w u base body soup code time = Returns page ->
  NoDup (internal_links page) /\ NoDup (external_links page)
  /\ Forall (fun l => PyStr.startswith l base = true) (internal_links page)
  /\ Forall (fun l => PyStr.startswith l base = false) (external_links page)
  /\ Forall (fun l => PyStr.contains "#" l = false)
       (internal_links page ++ external_links page).
Proof.
  intros H. apply build_page_data_links, extract_links_spec in H as (_ & Hi & He).
  set (links := first_occurrences []
                  (resolved_links (urljoin w) u
                     (anchor_hrefs (Bs4.decompose_all stripped_tags soup)))) in *.
  assert (NoDup links) as Hnd by apply first_occurrences_NoDup.
  assert (forall l, l ∈ links -> PyStr.contains "#" l = false) as Hfrag.
  { intros l Hl. apply first_occurrences_fresh in Hl as [Hl _].
    unfold resolved_links in Hl. apply list_elem_of_In, in_flat_map in Hl as (h & _ & Hl).
    unfold resolve_href in Hl.
    destruct (if PyStr.startswith_any h http_schemes then Returns h else urljoin w u h)
      as [e | absolute]; [by destruct Hl |].
    destruct Hl as [<- | []]. apply before_no_char. }
  rewrite Hi, He. split_and!.
  - by apply NoDup_ListNoDup, List.NoDup_filter, NoDup_ListNoDup.
  - by apply NoDup_ListNoDup, List.NoDup_filter, NoDup_ListNoDup.
  - apply Forall_forall. intros l Hl. apply list_elem_of_In, filter_In in Hl. apply Hl.
  - apply Forall_forall. intros l Hl. apply list_elem_of_In, filter_In in Hl as [_ Hl].
    unfold outside in Hl. by destruct (PyStr.startswith l base).
  - apply Forall_forall. intros l Hl. apply Hfrag.
    apply elem_of_app in Hl as [Hl | Hl]; apply list_elem_of_In, filter_In in Hl as [Hl _];
      by apply list_elem_of_In.
Qed.

Lemma resolved_links_sublist (join : string -> string -> Try string)
    (hrefs1 hrefs2 : list string) :
  hrefs1 `sublist_of` hrefs2 ->
  resolved_links join u hrefs1 `sublist_of` resolved_links join u hrefs2.
Proof.
  intros H. unfold resolved_links, followed_hrefs.
  induction H as [| x l1 l2 _ IH | x l1 l2 _ IH]; cbn [map List.filter]; [done | |];
    destruct (followable (PyStr.strip x)); cbn [flat_map]; try done.
  - by apply sublist_app.
  - by apply sublist_inserts_l.
Qed.

Lemma anchor_hrefs_decompose (soup : Soup) :
  anchor_hrefs (Bs4.decompose_all stripped_tags soup) `sublist_of` anchor_hrefs soup.
Proof.
  pose proof (fmap_sublist (Bs4.get_attr_or_empty "href") _ _
                (find_all_decompose stripped_tags is_anchor_with_href soup)) as H.
  rewrite <- !list_fmap_compose in H. exact H.
Qed.

(** X11: for every document, every link of the page record is the
    resolved URL of an anchor of that document whose trimmed [href] is
    followed; the extractor invents no link. *)
Theorem page_links_come_from_anchors (soup : Soup) (page : PageData) (l : string) :
  build_page_data w u base body soup code time = Returns page ->
  l ∈ internal_links page ++ external_links page ->
  l ∈ resolved_links (urljoin w) u (anchor_hrefs soup).
Proof.
  intros H Hl. apply build_page_data_links, extract_links_spec in H as (_ & Hi & He).
  assert (l ∈ resolved_links (urljoin w) u
                (anchor_hrefs (Bs4.decompose_all stripped_tags soup))) as Hin.
  { rewrite Hi, He in Hl.
    apply elem_of_app in Hl as [Hl | Hl]; apply list_elem_of_In, filter_In in Hl as [Hl _];
      apply list_elem_of_In in Hl; by apply first_occurrences_fresh in Hl as [? _]. }
  eapply elem_of_sublist; [exact Hin |].
  apply resolved_links_sublist, anchor_hrefs_decompose.
Qed.

(** X12: the page record never holds structured data: the script
    elements are removed from the tree by [_extract_content] before
    [_extract_schema_org] looks for them. *)
Theorem schema_org_is_always_empty (soup : Soup) (page : PageData) :
  build_page_data w u base body soup code time = Returns page ->
  schema_org page = [].
Proof.
  intros H. apply build_page_data_inv in H as (_ & _ & _ & _ & _ & _ & _ & ->).
  unfold extract_schema_org.
  rewrite (find_removed stripped_tags is_ld_json); [done |].
  intros t a Ht. unfold is_ld_json in Ht. apply andb_true_iff in Ht as [Ht _].
  apply String.eqb_eq in Ht as ->. reflexivity.
Qed.

(** X13: [_extract_content] leaves a tree without script, style, header,
    footer and nav elements, so running it on the tree it has left gives
    the same text and the same tree again. *)
Theorem extract_content_is_idempotent (soup : Soup) :
  Bs4.find_all (Bs4.tag_in stripped_tags) (extract_content soup).2 = []
  /\ extract_content (extract_content soup).2 = extract_content soup.
Proof.
  assert (Bs4.find_all (Bs4.tag_in stripped_tags)
            (Bs4.decompose_all stripped_tags soup) = []) as Hnone.
  { by apply find_removed. }
  split; [exact Hnone |].
  unfold extract_content. cbn [snd]. by rewrite (decompose_all_id _ _ Hnone).
Qed.

End Extractors.

(** The record of the home page of the example site. *)
Lemma home_page_built :
  build_page_data Scenario.small_site Scenario.home (UrlParse.origin Scenario.home)
    Scenario.home_html Scenario.home_soup 200 120 = Returns Scenario.home_page.
Proof. vm_compute. reflexivity. Qed.

(** X10 (witness): the home page of the example site. *)
Lemma page_links_are_clean_witness :
  build_page_data Scenario.small_site Scenario.home (UrlParse.origin Scenario.home)
    Scenario.home_html Scenario.home_soup 200 120 = Returns Scenario.home_page
  /\ NoDup (internal_links Scenario.home_page)
  /\ NoDup (external_links Scenario.home_page).
Proof.
  split; [exact home_page_built |].
  destruct (page_links_are_clean Scenario.small_site Scenario.home
              (UrlParse.origin Scenario.home) Scenario.home_html 200 120
              Scenario.home_soup Scenario.home_page home_page_built) as (Hi & He & _).
  split; [exact Hi | exact He].
Defined.

(** X11 (witness): the home page of the example site. *)
Lemma page_links_come_from_anchors_witness :
  build_page_data Scenario.small_site Scenario.home (UrlParse.origin Scenario.home)
    Scenario.home_html Scenario.home_soup 200 120 = Returns Scenario.home_page
  /\ "https://example.com/about"
     ∈ resolved_links Scenario.rfc_join Scenario.home (anchor_hrefs Scenario.home_soup).
Proof.
  split; [exact home_page_built |].
  refine (page_links_come_from_anchors Scenario.small_site Scenario.home
            (UrlParse.origin Scenario.home) Scenario.home_html 200 120
            Scenario.home_soup Scenario.home_page "https://example.com/about"
            home_page_built _).
  apply list_elem_of_In. vm_compute. tauto.
Defined.

(** X12 (witness): the home page of the example site. *)
Lemma schema_org_is_always_empty_witness :
  build_page_data Scenario.small_site Scenario.home (UrlParse.origin Scenario.home)
    Scenario.home_html Scenario.home_soup 200 120 = Returns Scenario.home_page
  /\ schema_org Scenario.home_page = [].
Proof.
  split; [exact home_page_built |].
  exact (schema_org_is_always_empty Scenario.small_site Scenario.home
           (UrlParse.origin Scenario.home) Scenario.home_html 200 120
           Scenario.home_soup Scenario.home_page home_page_built).
Defined.

(** ** More on the worker *)

Section WorkerOutcome.

Variable w : World.
Variable base : string.

Lemma py_int_nonneg (x : Q) : (0 <= x)%Q -> 0 <= py_int x.
Proof.
  unfold Qle, py_int. simpl. intros H. apply Z.quot_pos; lia.
Qed.

(** X14: when the clock does not run backwards between the start of
    the request and the response, the load time of the page record is not
    negative. *)
Theorem load_time_is_not_negative (u : string) (d : Z) (pd : PageData) :
  (clock_at_request w u <= clock_at_response w u)%Q ->
  r_page_data (process_url w u d base) = Some pd ->
  0 <= load_time_ms pd.
Proof.
  intros Hclock Hpd.
  apply process_url_built in Hpd as (response & body & soup & Hpd).
  destruct Hpd as (_ & _ & _ & _ & _ & Hrec).
  apply build_page_data_stamps in Hrec as (_ & -> & _).
  unfold measure_load_time_ms. apply py_int_nonneg.
  apply Qmult_le_0_compat; [| done]. by apply Qle_minus_iff in Hclock.
Qed.

(** X15: a worker returns the URL it was given and exactly one of a
    page record and an error message; with the record come its internal
    links as the new URLs, with the message comes no URL. *)
Theorem worker_returns_page_or_error (u : string) (d : Z) :
  let result := process_url w u d base in
  r_url result = u
  /\ ((exists pd, r_page_data result = Some pd /\ r_error result = None
                  /\ r_new_urls result = internal_links pd)
      \/ (exists e, r_error result = Some e /\ r_page_data result = None
                    /\ r_new_urls result = [])).
Proof.
  intros result. split; [apply process_url_url |].
  destruct (r_page_data result) as [pd |] eqn:Hpd.
  - left. exists pd. destruct (process_url_page w base u d pd Hpd) as [? ?]. by split_and!.
  - right. subst result. revert Hpd.
    destruct (process_url_cases w base u d) as [[e ->] | [pd ->]]; [| done].
    intros _. by exists e.
Qed.

End WorkerOutcome.

(** X14 (witness): the home page of the example site. *)
Lemma load_time_is_not_negative_witness :
  (clock_at_request Scenario.small_site Scenario.home
   <= clock_at_response Scenario.small_site Scenario.home)%Q
  /\ 0 <= load_time_ms Scenario.home_page.
Proof.
  assert (clock_at_request Scenario.small_site Scenario.home
          <= clock_at_response Scenario.small_site Scenario.home)%Q as Hclock.
  { vm_compute. discriminate. }
  split; [exact Hclock |].
  refine (load_time_is_not_negative Scenario.small_site (UrlParse.origin Scenario.home)
            Scenario.home 0 Scenario.home_page Hclock _).
  vm_compute. reflexivity.
Defined.

(** ** Small crawls *)

Section SmallCrawls.

Variable w : World.
Variable cfg : Config.
Variable seed : string.

(** The first round on an admitted seed whose worker fails. *)
Lemma failed_seed_round (origin e : string) :
  1 <= max_concurrent_requests cfg ->
  should_visit_url seed origin = true ->
  r_error (process_url w seed 0 origin) = Some e ->
  crawl_round w cfg origin (initial_state seed)
  = {| visited_urls := {[seed]} ∪ ∅; pages_data := ∅;
       error_urls := if PyStr.truthy e then <[seed := e]> ∅ else ∅;
       urls_to_visit := []; site_structure := ∅;
       events := [Dispatched seed 0; Enqueued seed 0] |}.
Proof.
  intros Hn Hadm Herr. unfold crawl_round, slice_to, slice_from, initial_state.
  cbn [urls_to_visit visited_urls events pages_data error_urls site_structure].
  destruct (Z.leb_spec 0 (max_concurrent_requests cfg)); [| lia].
  destruct (Z.to_nat (max_concurrent_requests cfg)) as [|n] eqn:E; [lia |].
  cbn [take drop fold_left]. rewrite take_nil, drop_nil. cbn [fold_left].
  unfold dispatch_step. rewrite Hadm.
  rewrite (bool_decide_eq_true_2 (seed ∉ (∅ : gset string))) by apply not_elem_of_empty.
  cbn [andb app map fold_left fst snd]. unfold handle_result.
  rewrite process_url_url, Herr.
  destruct (PyStr.truthy e); [done |].
  destruct (process_url_error_inv w origin seed 0 e Herr) as (_ & -> & _).
  done.
Qed.

(** X16: when [urlparse] accepts the seed, the seed is admitted for its
    origin and its worker fails, the crawl ends after one round with no
    page; [errors] holds the message under the seed, unless the message is
    empty, in which case [errors] is empty too. *)
Theorem failed_seed_is_the_only_entry (origin e : string) :
  parse_base_url w seed = Returns origin ->
  1 <= max_concurrent_requests cfg -> 1 <= max_pages cfg ->
  should_visit_url seed origin = true ->
  r_error (process_url w seed 0 origin) = Some e ->
  exists r,
    crawl w cfg seed 1 = Some (Returns r)
    /\ pages r = ∅
    /\ errors r = (if PyStr.truthy e then {[seed := e]} else ∅).
Proof.
  intros Hparse Hn Hm Hadm Herr. unfold crawl, crawl_run. rewrite Hparse.
  destruct (Z.ltb_spec (max_concurrent_requests cfg) 0); [lia |].
  cbn [crawl_loop].
  assert (loop_condition cfg (initial_state seed) = true) as ->.
  { unfold loop_condition. simpl. rewrite map_size_empty. apply Z.ltb_lt. lia. }
  rewrite (failed_seed_round origin e Hn Hadm Herr).
  eexists. split; [reflexivity |]. simpl. split; [done |].
  by destruct (PyStr.truthy e).
Qed.

(** X17: with a depth limit of zero or less, the only URL that ever
    gets a worker is the seed, so [pages] and [errors] have no other key. *)
Theorem depth_limit_zero_fetches_only_seed (fuel : nat) (st : CrawlState) :
  crawl_run w cfg seed fuel = Some (Returns st) ->
  max_depth cfg <= 0 ->
  (forall u, u ∈ dispatched_urls (events st) -> u = seed)
  /\ (forall u, is_Some (pages_data st !! u) \/ is_Some (error_urls st !! u) -> u = seed).
Proof.
  intros Hrun Hdepth. destruct (crawl_run_inv _ _ _ _ _ Hrun) as [Hinv _].
  assert (forall u, u ∈ dispatched_urls (events st) -> u = seed) as Honly.
  { intros u Hu. apply elem_of_dispatched_urls in Hu as [d Hd].
    destruct (inv_dispatched_depth _ _ _ _ _ _ Hinv Hd) as [[-> _] | ?]; [done | lia]. }
  split; [done |]. intros u Hu. apply Honly, (inv_visited_dispatched _ _ _ _ Hinv).
  destruct Hu as [Hu | Hu].
  - by apply (inv_pages_visited _ _ _ _ Hinv).
  - by apply (inv_errors_visited _ _ _ _ Hinv).
Qed.

(** X18: when [urlparse] accepts the seed, a page budget of zero or
    less keeps the loop from being entered: whatever the fuel, [crawl]
    returns at once, without creating a worker, a result with no page and
    no error. *)
Theorem no_budget_no_fetch (origin : string) (fuel : nat) :
  parse_base_url w seed = Returns origin ->
  0 <= max_concurrent_requests cfg -> max_pages cfg <= 0 ->
  crawl_run w cfg seed fuel = Some (Returns (initial_state seed))
  /\ exists r, crawl w cfg seed fuel = Some (Returns r)
               /\ pages r = ∅ /\ errors r = ∅
               /\ total_pages_crawled (crawl_stats r) = 0.
Proof.
  intros Hparse Hn Hm.
  assert (crawl_run w cfg seed fuel = Some (Returns (initial_state seed))) as Hrun.
  { apply (crawl_run_of_loop w cfg seed origin); [done | done |].
    by apply no_budget_loop. }
  split; [done |]. exists (make_result w origin (initial_state seed)).
  split; [by apply crawl_of_run |]. simpl. by rewrite map_size_empty.
Qed.

End SmallCrawls.

(** X16 (witness): the site whose only page times out with an empty
    message. *)
Lemma failed_seed_is_the_only_entry_witness :
  parse_base_url Scenario.timeout_site Scenario.home = Returns "https://example.com"
  /\ exists r,
       crawl Scenario.timeout_site default_config Scenario.home 1 = Some (Returns r)
       /\ pages r = ∅ /\ errors r = ∅.
Proof.
  split; [reflexivity |].
  refine (failed_seed_is_the_only_entry Scenario.timeout_site default_config
            Scenario.home "https://example.com" EmptyString eq_refl _ _ _ _);
    vm_compute; congruence.
Defined.

(** X17 (witness): the example site crawled with depth limit 0. *)
Lemma depth_limit_zero_fetches_only_seed_witness :
  exists st,
    crawl_run Scenario.small_site (Scenario.with_limits 10 0 10) Scenario.home 1
    = Some (Returns st)
    /\ forall u, u ∈ dispatched_urls (events st) -> u = Scenario.home.
Proof.
  eexists. split; [vm_compute; reflexivity |].
  refine (proj1 (depth_limit_zero_fetches_only_seed Scenario.small_site
                   (Scenario.with_limits 10 0 10) Scenario.home 1 _ _ _)).
  - vm_compute. reflexivity.
  - vm_compute. discriminate.
Defined.

(** X18 (witness): the example site with a budget of zero pages. *)
Lemma no_budget_no_fetch_witness :
  parse_base_url Scenario.small_site Scenario.home = Returns "https://example.com"
  /\ crawl_run Scenario.small_site (Scenario.with_limits 0 3 10) Scenario.home 5
     = Some (Returns (initial_state Scenario.home)).
Proof.
  split; [reflexivity |].
  refine (proj1 (no_budget_no_fetch Scenario.small_site (Scenario.with_limits 0 3 10)
                   Scenario.home "https://example.com" 5 eq_refl _ _));
    vm_compute; discriminate.
Defined.

(** ** Workers per round *)

Section WorkersPerRound.

Variable w : World.
Variable cfg : Config.
Variable base : string.

Lemma dispatch_workers (batch tasks : list (string * Z)) (vis : gset string)
    (evs : list Event) :
  (length (dispatched_urls (fold_left (dispatch_step base) batch (vis, tasks, evs)).2)
   + length tasks
   = length (dispatched_urls evs)
     + length (fold_left (dispatch_step base) batch (vis, tasks, evs)).1.2)%nat.
Proof.
  revert vis tasks evs.
  induction batch as [|[u d] batch IH]; intros vis tasks evs; cbn [fold_left];
    [simpl; lia |].
  unfold dispatch_step at 2 4.
  destruct (bool_decide (u ∉ vis) && should_visit_url u base)%bool; [| apply IH].
  pose proof (IH ({[u]} ∪ vis) (tasks ++ [(u, d)]) (Dispatched u d :: evs)) as H.
  rewrite length_app in H. simpl in H. lia.
Qed.

Lemma enqueue_creates_no_worker (vis : gset string) (dp : Z) (links : list string)
    (fr : list (string * Z)) (evs : list Event) :
  dispatched_urls (fold_left (enqueue_step base vis dp) links (fr, evs)).2
  = dispatched_urls evs.
Proof.
  revert fr evs. induction links as [|v links IH]; intros fr evs; cbn [fold_left];
    [done |].
  unfold enqueue_step at 2.
  destruct (bool_decide (v ∉ vis) && bool_decide (v ∉ fr.*1)
            && should_visit_url v base)%bool; by rewrite IH.
Qed.

Lemma handle_result_creates_no_worker (batch : list (string * Z)) (st : CrawlState)
    (result : WorkerResult) :
  dispatched_urls (events (handle_result cfg base batch st result))
  = dispatched_urls (events st).
Proof.
  unfold handle_result.
  destruct (match r_error result with Some e => PyStr.truthy e | None => false end);
    [done |].
  destruct (r_page_data result) as [pd |]; [| done].
  destruct (depth_in_batch batch (r_url result) <? max_depth cfg)%Z; [| done].
  pose proof (enqueue_creates_no_worker (visited_urls st)
                (depth_in_batch batch (r_url result)) (r_new_urls result)
                (urls_to_visit st) (events st)) as H.
  by destruct (fold_left _ _ _) as [fr evs].
Qed.

Lemma handle_results_create_no_worker (batch : list (string * Z))
    (results : list WorkerResult) (st : CrawlState) :
  dispatched_urls (events (fold_left (handle_result cfg base batch) results st))
  = dispatched_urls (events st).
Proof.
  revert st. induction results as [|r results IH]; intros st; cbn [fold_left]; [done |].
  by rewrite IH, handle_result_creates_no_worker.
Qed.

(** X19: a round creates at most [max_concurrent_requests] workers, one
    for each entry of the batch that is unvisited and admitted; handling
    the results creates none. *)
Theorem round_creates_at_most_the_allowed_workers (st : CrawlState) :
  0 <= max_concurrent_requests cfg ->
  (length (dispatched_urls (events (crawl_round w cfg base st)))
   <= length (dispatched_urls (events st)) + Z.to_nat (max_concurrent_requests cfg))%nat.
Proof.
  intros Hn. unfold crawl_round.
  pose proof (dispatch_workers
                (slice_to (max_concurrent_requests cfg) (urls_to_visit st)) []
                (visited_urls st) (events st)) as Hworkers.
  pose proof (dispatch_tasks_length base
                (slice_to (max_concurrent_requests cfg) (urls_to_visit st)) []
                (visited_urls st) (events st)) as Htasks.
  pose proof (slice_to_length _ (urls_to_visit st) Hn) as Hbatch.
  destruct (fold_left (dispatch_step base)
              (slice_to (max_concurrent_requests cfg) (urls_to_visit st))
              (visited_urls st, [], events st)) as [[vis tasks] evs].
  cbn [fst snd length] in Hworkers, Htasks.
  rewrite handle_results_create_no_worker. simpl. lia.
Qed.

End WorkersPerRound.

(** X19 (witness): the second round of the end-to-end scenario, two
    workers with ten allowed. *)
Lemma round_creates_at_most_the_allowed_workers_witness :
  let st := crawl_round Scenario.small_site (Scenario.with_limits 10 1 10)
              (UrlParse.origin Scenario.home) (initial_state Scenario.home) in
  (length (dispatched_urls
             (events (crawl_round Scenario.small_site (Scenario.with_limits 10 1 10)
                        (UrlParse.origin Scenario.home) st)))
   <= length (dispatched_urls (events st)) + 10)%nat.
Proof.
  intros st.
  refine (round_creates_at_most_the_allowed_workers Scenario.small_site
            (Scenario.with_limits 10 1 10) (UrlParse.origin Scenario.home) st _).
  vm_compute. discriminate.
Defined.

(** ** The text of a page *)

Section CleanText.

Lemma lstrip_all_chars (p : ascii -> bool) (s : string) :
  UrlParse.all_chars p s = true -> UrlParse.all_chars p (PyStr.lstrip s) = true.
Proof.
  induction s as [|c s IH]; simpl; [done |].
  intros H. apply andb_true_iff in H as [Hc Hs].
  destruct (PyStr.is_space c); [by apply IH |]. simpl. by rewrite Hc, Hs.
Qed.

Lemma rstrip_all_chars (p : ascii -> bool) (s : string) :
  UrlParse.all_chars p s = true -> UrlParse.all_chars p (PyStr.rstrip s) = true.
Proof.
  induction s as [|c s IH]; simpl; [done |].
  intros H. apply andb_true_iff in H as [Hc Hs]. specialize (IH Hs).
  destruct (PyStr.rstrip s) as [|d r].
  - destruct (PyStr.is_space c); simpl; [done | by rewrite Hc].
  - cbn [UrlParse.all_chars] in *. by rewrite Hc, IH.
Qed.

Lemma strip_all_chars (p : ascii -> bool) (s : string) :
  UrlParse.all_chars p s = true -> UrlParse.all_chars p (PyStr.strip s) = true.
Proof. intros H. by apply rstrip_all_chars, lstrip_all_chars. Qed.

Lemma lstrip_head (s : string) :
  match PyStr.lstrip s with
  | EmptyString => True
  | String c _ => PyStr.is_space c = false
  end.
Proof.
  induction s as [|c s IH]; simpl; [done |].
  by destruct (PyStr.is_space c) eqn:E.
Qed.

Lemma rstrip_keeps_head (c : ascii) (s : string) :
  PyStr.is_space c = false -> exists r, PyStr.rstrip (String c s) = String c r.
Proof.
  intros Hc. simpl. destruct (PyStr.rstrip s) as [|d r]; [| by eexists].
  rewrite Hc. by eexists.
Qed.

Lemma rstrip_idempotent (s : string) : PyStr.rstrip (PyStr.rstrip s) = PyStr.rstrip s.
Proof.
  induction s as [|c s IH]; [done |]. cbn [PyStr.rstrip].
  destruct (PyStr.rstrip s) as [|d r] eqn:E.
  - destruct (PyStr.is_space c) eqn:Hc; [done |]. simpl. by rewrite Hc.
  - cbn [PyStr.rstrip]. cbn [PyStr.rstrip] in IH. rewrite IH.
    by destruct (match PyStr.rstrip r with
                 | EmptyString => if PyStr.is_space d then EmptyString
                                  else String d EmptyString
                 | String a s0 => String d (String a s0)
                 end).
Qed.

(** Trimming what is trimmed changes nothing. *)
Lemma strip_idempotent (s : string) : PyStr.strip (PyStr.strip s) = PyStr.strip s.
Proof.
  unfold PyStr.strip. pose proof (lstrip_head s) as Hhead.
  destruct (PyStr.lstrip s) as [|c t]; [done |].
  destruct (rstrip_keeps_head c t Hhead) as [r Hr]. rewrite Hr.
  cbn [PyStr.lstrip]. rewrite Hhead, <- Hr. apply rstrip_idempotent.
Qed.

Lemma splitlines_no_linebreak (s : string) :
  Forall (fun l => UrlParse.all_chars not_linebreak l = true) (TextCleanup.splitlines s).
Proof.
  induction s as [|c s IH]; cbn [TextCleanup.splitlines]; [by constructor |].
  destruct (TextCleanup.is_linebreak c) eqn:Hc; [by constructor |].
  destruct (TextCleanup.splitlines s) as [|l ls]; cbn [TextCleanup.cons_head].
  - constructor; [| done]. simpl. unfold not_linebreak. by rewrite Hc.
  - apply Forall_cons in IH as [Hl Hls]. constructor; [| done].
    simpl. unfold not_linebreak at 1. by rewrite Hc.
Qed.

Lemma cons_head_all_chars (p : ascii -> bool) (c : ascii) (ls : list string) :
  p c = true -> Forall (fun l => UrlParse.all_chars p l = true) ls ->
  Forall (fun l => UrlParse.all_chars p l = true) (TextCleanup.cons_head c ls).
Proof.
  intros Hc Hls. destruct ls as [|l ls]; cbn [TextCleanup.cons_head].
  - constructor; [| done]. simpl. by rewrite Hc.
  - apply Forall_cons in Hls as [Hl Hls]. constructor; [| done]. simpl. by rewrite Hc.
Qed.

Lemma split_double_space_all_chars (p : ascii -> bool) (n : nat) (s : string) :
  (String.length s <= n)%nat ->
  UrlParse.all_chars p s = true ->
  Forall (fun l => UrlParse.all_chars p l = true) (TextCleanup.split_double_space s).
Proof.
  revert s. induction n as [|n IH]; intros s Hlen Hs.
  { destruct s; [by constructor | simpl in Hlen; lia]. }
  destruct s as [|c s1]; [by constructor |].
  cbn [TextCleanup.split_double_space]. simpl in Hlen, Hs.
  apply andb_true_iff in Hs as [Hc Hs1].
  destruct s1 as [|c2 s2].
  { constructor; [| done]. simpl. by rewrite Hc. }
  destruct (Ascii.eqb c " " && Ascii.eqb c2 " ")%bool.
  - constructor; [done |]. apply IH; [simpl in Hlen; lia |].
    simpl in Hs1. by apply andb_true_iff in Hs1 as [_ ?].
  - apply cons_head_all_chars; [done |]. apply IH; [lia | done].
Qed.

(** X20: the text [_extract_content] returns is made of lines joined by
    single newlines, none of which is empty, has white space at either end
    or a line break inside; so the text has no blank line and no line with
    leading or trailing white space. *)
Theorem content_lines_are_clean (soup : Soup) :
  exists lines,
    (extract_content soup).1
    = String.concat (String TextCleanup.newline EmptyString) lines
    /\ Forall clean_line lines.
Proof.
  unfold extract_content. cbn [fst].
  set (text := Bs4.get_text (Bs4.decompose_all stripped_tags soup)).
  eexists. split; [reflexivity |].
  apply Forall_forall. intros chunk Hchunk.
  apply list_elem_of_In, filter_In in Hchunk as [Hin Htruthy].
  apply in_flat_map in Hin as (line & Hline & Hin).
  apply in_map_iff in Hin as (piece & <- & Hpiece).
  apply in_map_iff in Hline as (raw & <- & Hraw).
  split_and!.
  - intros Hempty. by rewrite Hempty in Htruthy.
  - apply strip_idempotent.
  - apply strip_all_chars.
    pose proof (split_double_space_all_chars not_linebreak _ (PyStr.strip raw) (le_n _))
      as Hpieces.
    rewrite Forall_forall in Hpieces. apply Hpieces; [| by apply list_elem_of_In].
    apply strip_all_chars.
    pose proof (splitlines_no_linebreak text) as Hlines.
    rewrite Forall_forall in Hlines. apply Hlines. by apply list_elem_of_In.
Qed.

End CleanText.

(** ** Breadth-first order *)

Section BreadthFirst.

Variable w : World.
Variable cfg : Config.
Variable seed : string.
Variable base : string.

Lemma nondecreasing_app (a b : list Z) :
  nondecreasing (a ++ b)
  <-> nondecreasing a /\ nondecreasing b /\ (forall x y, x ∈ a -> y ∈ b -> x <= y).
Proof.
  induction a as [|x a IH]; simpl.
  - split; [intros H; split_and!; [done | done |] | by intros (_ & ? & _)].
    intros x y Hx. by apply elem_of_nil in Hx.
  - rewrite IH. split.
    + intros (Hx & Ha & Hb & Hab). split_and!; try done.
      * intros y Hy. apply Hx, elem_of_app. by left.
      * intros z y Hz Hy. apply elem_of_cons in Hz as [-> | Hz]; [| by apply Hab].
        apply Hx, elem_of_app. by right.
    + intros ((Hx & Ha) & Hb & Hab). split_and!; try done.
      * intros y Hy. apply elem_of_app in Hy as [Hy | Hy]; [by apply Hx |].
        apply Hab; [by left | done].
      * intros z y Hz Hy. apply Hab; [by right | done].
Qed.

Lemma breadth_initial : Breadth (initial_state seed) [].
Proof.
  split; simpl.
  - split; [| done]. intros y Hy. by apply elem_of_nil in Hy.
  - intros x y Hx Hy. apply list_elem_of_singleton in Hx, Hy. lia.
  - done.
  - intros u d x H. apply list_elem_of_singleton in H. discriminate.
  - intros u d x H. apply list_elem_of_singleton in H. discriminate.
Qed.

Lemma breadth_drop_pending (st : CrawlState) (task : string * Z)
    (pending : list (string * Z)) :
  Breadth st (task :: pending) -> Breadth st pending.
Proof.
  intros [B1 B2 B3 B4 B5]. split; try done.
  - rewrite fmap_cons in B1. by destruct B1.
  - intros x y Hx Hy. apply B2; rewrite fmap_cons; by right.
  - intros u d x Hd Hx. apply (B5 u); [done |]. rewrite fmap_cons. by right.
Qed.

Lemma breadth_dispatch_step (vis : gset string) (pg : gmap string PageData)
    (er : gmap string string) (ss : gmap string (list string))
    (u : string) (d : Z) (fr pending : list (string * Z)) (evs : list Event) :
  Breadth
    {| visited_urls := vis; pages_data := pg; error_urls := er;
       urls_to_visit := (u, d) :: fr; site_structure := ss; events := evs |} pending ->
  Breadth
    {| visited_urls := (dispatch_step base (vis, pending, evs) (u, d)).1.1;
       pages_data := pg; error_urls := er;
       urls_to_visit := fr; site_structure := ss;
       events := (dispatch_step base (vis, pending, evs) (u, d)).2 |}
    (dispatch_step base (vis, pending, evs) (u, d)).1.2.
Proof.
  intros [B1 B2 B3 B4 B5]. simpl in *. unfold dispatch_step.
  destruct (bool_decide (u ∉ vis) && should_visit_url u base)%bool; simpl.
  - assert (forall x, x ∈ (pending ++ [(u, d)]).*2 ++ fr.*2
                      <-> x ∈ pending.*2 ++ d :: fr.*2) as Hsame.
    { intros x. rewrite fmap_app, <- app_assoc. done. }
    split; simpl.
    + by rewrite fmap_app, <- app_assoc.
    + intros x y Hx Hy. apply Hsame in Hx, Hy. by apply B2.
    + split; [| done]. intros u' d' Hd'. apply (B4 u'); [done | by left].
    + intros u' d' x Hd' Hx. apply elem_of_cons in Hd' as [[= -> ->] | Hd'].
      * apply nondecreasing_app in B1 as (_ & [Hd _] & _). by apply Hd.
      * apply (B4 u'); [done | by right].
    + intros u' d' x Hd' Hx. apply Hsame in Hx.
      apply elem_of_cons in Hd' as [[= -> ->] | Hd']; [| by apply (B5 u')].
      apply B2; [done |]. apply elem_of_app. right. by left.
  - assert (forall x, x ∈ pending.*2 ++ fr.*2 -> x ∈ pending.*2 ++ d :: fr.*2) as Hsub.
    { intros x Hx. apply elem_of_app in Hx as [Hx | Hx]; apply elem_of_app;
        [by left | right; by right]. }
    split; simpl; try done.
    + apply nondecreasing_app in B1 as (Hp & [_ Hf] & Hpf).
      apply nondecreasing_app. split_and!; try done.
      intros x y Hx Hy. apply Hpf; [done | by right].
    + intros x y Hx Hy. apply B2; by apply Hsub.
    + intros u' d' x Hd' Hx. apply (B4 u'); [done | by right].
    + intros u' d' x Hd' Hx. apply (B5 u'); [done | by apply Hsub].
Qed.

Lemma breadth_dispatch (vis : gset string) (pg : gmap string PageData)
    (er : gmap string string) (ss : gmap string (list string))
    (batch rest pending : list (string * Z)) (evs : list Event) :
  Breadth
    {| visited_urls := vis; pages_data := pg; error_urls := er;
       urls_to_visit := batch ++ rest; site_structure := ss; events := evs |} pending ->
  Breadth
    {| visited_urls := (fold_left (dispatch_step base) batch (vis, pending, evs)).1.1;
       pages_data := pg; error_urls := er;
       urls_to_visit := rest; site_structure := ss;
       events := (fold_left (dispatch_step base) batch (vis, pending, evs)).2 |}
    (fold_left (dispatch_step base) batch (vis, pending, evs)).1.2.
Proof.
  revert vis pending evs.
  induction batch as [|[u d] batch IH]; intros vis pending evs Hb; cbn [fold_left];
    [done |].
  cbn [app] in Hb. apply breadth_dispatch_step in Hb.
  destruct (dispatch_step base (vis, pending, evs) (u, d)) as [[vis' pending'] evs'].
  cbn [fst snd] in Hb. by apply IH.
Qed.

(** What enqueuing appends: entries one level below the page. *)
Lemma enqueue_appends (vis : gset string) (dp : Z) (links : list string)
    (fr : list (string * Z)) (evs : list Event) :
  (exists new, (fold_left (enqueue_step base vis dp) links (fr, evs)).1 = fr ++ new
               /\ Forall (fun entry => entry.2 = dp + 1) new)
  /\ (depth_order evs ->
      depth_order (fold_left (enqueue_step base vis dp) links (fr, evs)).2).
Proof.
  revert fr evs. induction links as [|v links IH]; intros fr evs; cbn [fold_left].
  { split; [| done]. exists []. by rewrite app_nil_r. }
  unfold enqueue_step at 2 4.
  destruct (bool_decide (v ∉ vis) && bool_decide (v ∉ fr.*1)
            && should_visit_url v base)%bool; [| apply IH].
  destruct (IH (fr ++ [(v, dp + 1)]) (Enqueued v (dp + 1) :: evs))
    as [(new & -> & Hnew) Horder].
  split.
  - exists ((v, dp + 1) :: new). rewrite <- app_assoc. split; [done |].
    by constructor.
  - intros H. by apply Horder.
Qed.

Lemma breadth_handle_result (batch : list (string * Z)) (st : CrawlState)
    (u : string) (d : Z) (pending : list (string * Z)) (result : WorkerResult) :
  Breadth st ((u, d) :: pending) ->
  depth_in_batch batch (r_url result) = d ->
  Breadth (handle_result cfg base batch st result) pending.
Proof.
  intros Hb Hd. unfold handle_result. rewrite Hd.
  destruct (match r_error result with Some e => PyStr.truthy e | None => false end).
  { apply breadth_drop_pending in Hb. by destruct Hb. }
  destruct (r_page_data result) as [pd |]; [| by apply breadth_drop_pending in Hb].
  destruct (d <? max_depth cfg)%Z.
  2:{ apply breadth_drop_pending in Hb. by destruct Hb. }
  destruct (enqueue_appends (visited_urls st) d (r_new_urls result)
              (urls_to_visit st) (events st)) as [(new & Hfr & Hnew) Horder].
  destruct (enqueue_effects base (visited_urls st) d (r_new_urls result)
              (urls_to_visit st) (events st)) as (_ & Hevs & _).
  destruct (fold_left _ _ _) as [fr' evs']. cbn [fst snd] in *. subst fr'.
  destruct Hb as [B1 B2 B3 B4 B5]. rewrite fmap_cons in B1, B2, B5. simpl in B1.
  destruct B1 as [Hhead B1].
  assert (forall x, x ∈ new.*2 -> x = d + 1) as Hnew'.
  { intros x Hx. apply list_elem_of_fmap in Hx as (entry & -> & Hentry).
    rewrite Forall_forall in Hnew. by apply Hnew. }
  assert (forall x, x ∈ pending.*2 ++ (urls_to_visit st).*2 -> d <= x <= d + 1) as Hold.
  { intros x Hx. split; [by apply Hhead |].
    apply B2; [by left | by right]. }
  assert (forall x, x ∈ pending.*2 ++ (urls_to_visit st ++ new).*2 ->
            x ∈ pending.*2 ++ (urls_to_visit st).*2 \/ x = d + 1) as Hcases.
  { intros x. rewrite fmap_app, app_assoc, elem_of_app. intros [? | ?]; [by left |].
    right. by apply Hnew'. }
  split; simpl.
  - rewrite fmap_app, app_assoc. apply nondecreasing_app. split_and!; [done | |].
    + clear -Hnew'. induction new as [|entry new IH]; [done |]. simpl. split.
      * intros y Hy. rewrite (Hnew' entry.2), (Hnew' y); [lia | by right | by left].
      * apply IH. intros x Hx. apply Hnew'. by right.
    + intros x y Hx Hy. rewrite (Hnew' y Hy). by apply Hold.
  - intros x y Hx Hy. apply Hcases in Hx, Hy.
    destruct Hx as [Hx | ->], Hy as [Hy | ->]; try apply Hold in Hx;
      try apply Hold in Hy; lia.
  - by apply Horder.
  - intros u' d' x Hd' Hx. apply Hevs in Hd'.
    rewrite fmap_app in Hx. apply elem_of_app in Hx as [Hx | Hx]; [by apply (B4 u') |].
    rewrite (Hnew' x Hx). apply (B5 u'); [done | by left].
  - intros u' d' x Hd' Hx. apply Hevs in Hd'. apply Hcases in Hx as [Hx | ->].
    + apply (B5 u'); [done | by right].
    + pose proof (B5 u' d' d Hd' ltac:(by left)). lia.
Qed.

Lemma breadth_handle_results (batch tasks : list (string * Z)) (st : CrawlState) :
  Breadth st tasks ->
  (forall u d, (u, d) ∈ tasks -> depth_in_batch batch u = d) ->
  Breadth
    (fold_left (handle_result cfg base batch)
       (map (fun task => process_url w task.1 task.2 base) tasks) st) [].
Proof.
  revert st. induction tasks as [|[u d] tasks IH]; intros st Hb Hd;
    cbn [map fold_left]; [done |].
  cbn [fst snd]. apply IH; [| intros; apply Hd; by right].
  apply (breadth_handle_result batch st u d); [done |].
  rewrite process_url_url. apply Hd. by left.
Qed.

Lemma breadth_crawl_round (st : CrawlState) :
  Inv cfg seed st [] -> Breadth st [] -> Breadth (crawl_round w cfg base st) [].
Proof.
  intros Hinv Hb. unfold crawl_round.
  set (n := max_concurrent_requests cfg).
  assert (Inv cfg seed
    {| visited_urls := visited_urls st; pages_data := pages_data st;
       error_urls := error_urls st;
       urls_to_visit := slice_to n (urls_to_visit st) ++ slice_from n (urls_to_visit st);
       site_structure := site_structure st; events := events st |} []) as Hinv0.
  { rewrite slice_split. by destruct st. }
  assert (Breadth
    {| visited_urls := visited_urls st; pages_data := pages_data st;
       error_urls := error_urls st;
       urls_to_visit := slice_to n (urls_to_visit st) ++ slice_from n (urls_to_visit st);
       site_structure := site_structure st; events := events st |} []) as Hb0.
  { rewrite slice_split. by destruct st. }
  assert (NoDup (slice_to n (urls_to_visit st)).*1) as Hnd.
  { pose proof (inv_frontier_nodup _ _ _ _ Hinv) as H.
    rewrite <- (slice_split n (urls_to_visit st)), fmap_app in H.
    by apply NoDup_app in H as [? _]. }
  apply breadth_dispatch in Hb0.
  apply (inv_dispatch cfg seed base) in Hinv0 as [_ Hsub].
  destruct (fold_left (dispatch_step base) (slice_to n (urls_to_visit st))
              (visited_urls st, [], events st)) as [[vis tasks] evs].
  cbn [fst snd] in Hsub, Hb0.
  apply (breadth_handle_results _ _ _ Hb0).
  intros u d Hu. apply depth_in_batch_lookup; [done |].
  destruct (Hsub _ Hu) as [H | H]; [by apply elem_of_nil in H | done].
Qed.

Lemma breadth_crawl_loop (fuel : nat) (st st' : CrawlState) :
  Inv cfg seed st [] -> Breadth st [] ->
  crawl_loop w cfg base fuel st = Some st' -> Breadth st' [].
Proof.
  revert st. induction fuel as [|fuel IH]; intros st Hinv Hb; simpl;
    destruct (loop_condition cfg st); try done; try by intros [= <-].
  apply IH; [by apply inv_crawl_round | by apply breadth_crawl_round].
Qed.

Lemma depth_order_split (evs later earlier : list Event) (u u' : string) (d d' : Z) :
  depth_order evs -> evs = later ++ Dispatched u d :: earlier ->
  Dispatched u' d' ∈ earlier -> d' <= d.
Proof.
  revert evs. induction later as [|e later IH]; intros evs Horder -> Hin.
  - destruct Horder as [H _]. by apply (H u').
  - destruct Horder as [_ Horder]. by eapply IH.
Qed.

End BreadthFirst.

(** X22: workers are created in breadth-first order: a URL that got its
    worker earlier never has a greater depth than one that got its worker
    later. *)
Theorem workers_are_created_in_depth_order (w : World) (cfg : Config) (seed : string)
    (fuel : nat) (st : CrawlState) (later earlier : list Event) (u u' : string)
    (d d' : Z) :
  crawl_run w cfg seed fuel = Some (Returns st) ->
  events st = later ++ Dispatched u d :: earlier ->
  Dispatched u' d' ∈ earlier ->
  d' <= d.
Proof.
  intros Hrun Hsplit Hin.
  assert (Breadth st []) as Hb.
  { apply crawl_run_loop in Hrun as (origin & _ & _ & Hloop).
    eapply breadth_crawl_loop; [apply inv_initial | apply breadth_initial | done]. }
  eapply depth_order_split; [apply (bf_order _ _ Hb) | done | done].
Qed.

(** X22 (witness): in the end-to-end scenario the home page (depth 0)
    got its worker before the contact page (depth 1). *)
Lemma workers_are_created_in_depth_order_witness : 0 <= 1.
Proof.
  refine (workers_are_created_in_depth_order Scenario.small_site
            (Scenario.with_limits 10 1 10) Scenario.home 2 Scenario.small_state
            [] [Dispatched "https://example.com/about" 1;
                Enqueued "https://example.com/contact" 1;
                Enqueued "https://example.com/about" 1;
                Dispatched Scenario.home 0; Enqueued Scenario.home 0]
            "https://example.com/contact" Scenario.home 1 0 small_run _ _).
  - vm_compute. reflexivity.
  - apply list_elem_of_In. vm_compute. tauto.
Defined.

(** ** The word count *)

Section WordCount.

Lemma count_words_bounds (in_word : bool) (s : string) :
  0 <= TextCleanup.count_words in_word s
  /\ 2 * TextCleanup.count_words in_word s
     <= Z.of_nat (String.length s) + (if in_word then 0 else 1).
Proof.
  revert in_word. induction s as [|c s IH]; intros in_word.
  { simpl. destruct in_word; lia. }
  cbn [TextCleanup.count_words String.length].
  destruct (TextCleanup.is_word_char c).
  - destruct (IH true) as [? ?]. destruct in_word; lia.
  - destruct (IH false) as [? ?]. destruct in_word; lia.
Qed.

(** X23: the word count of a page record is that of its content; it is
    not negative and at most half the length of the content, rounded up,
    since two words need a character between them. *)
Theorem word_count_bounds (w : World) (u base body : string) (soup : Soup)
    (code time : Z) (page : PageData) :
  build_page_data w u base body soup code time = Returns page ->
  word_count page = TextCleanup.count_words false (content page)
  /\ 0 <= word_count page
  /\ 2 * word_count page <= Z.of_nat (String.length (content page)) + 1.
Proof.
  intros H.
  assert (word_count page = TextCleanup.count_words false (content page)) as ->.
  { apply build_page_data_inv in H as (_ & _ & _ & _ & _ & Hc & Hw & _).
    by rewrite Hw, Hc. }
  split; [done |]. apply (count_words_bounds false).
Qed.

End WordCount.

(** X23 (witness): the home page of the example site. *)
Lemma word_count_bounds_witness :
  build_page_data Scenario.small_site Scenario.home (UrlParse.origin Scenario.home)
    Scenario.home_html Scenario.home_soup 200 120 = Returns Scenario.home_page
  /\ 0 <= word_count Scenario.home_page.
Proof.
  split; [exact home_page_built |].
  destruct (word_count_bounds Scenario.small_site Scenario.home
              (UrlParse.origin Scenario.home) Scenario.home_html Scenario.home_soup
              200 120 Scenario.home_page home_page_built) as (_ & Hw & _).
  exact Hw.
Defined.
